(** * Dataset transformation pipeline: model and verified properties

    The development follows the Python sources of the pill-image dataset
    pipeline:

    - [preprocessing.py]        letterbox geometry        (Module [Geometry])
    - [dataset_splitter.py]     sampling strategies       (Module [Sampler])
    - [annotation_converter.py] COCO to YOLO conversion   (Module [Converter])
    - [dataset_split.py]        stratified split          (Module [Splitter])
    - [data_analyzer.py]        class balance score       (Module [Analyzer])

    Python [float] arithmetic is kept behind the interface [PyNum].  It has
    two instances: exact rationals, over which the universally quantified
    statements are proved, and IEEE binary64 (the kernel's primitive floats,
    the arithmetic CPython really performs), on which concrete calls are
    evaluated bit for bit.  The class balance score needs a square root:
    its NumPy operations are kept behind [NpNum], with the real numbers
    and binary64 as instances. *)

From Stdlib Require Import ZArith QArith Qround Qabs Qminmax Reals.
From Stdlib Require Import Lia Psatz List Permutation Sorted.
From Stdlib Require Import Strings.String Strings.Ascii DecimalString.
From Stdlib Require Import Floats.
From stdpp Require Import base option list strings gmap.

Local Open Scope Z_scope.

(** ** Python exceptions and results *)

Inductive exn : Type :=
| ZeroDivisionError
| ValueError
| OverflowError.

Inductive result (A : Type) : Type :=
| Ok (a : A)
| Raise (e : exn).
Arguments Ok {A} a.
Arguments Raise {A} e.

#[export] Instance result_bind : MBind result := fun A B k r =>
  match r with
  | Ok a => k a
  | Raise e => Raise e
  end.

#[export] Instance result_ret : MRet result := fun A a => Ok a.

Definition is_ok {A} (r : result A) : bool :=
  match r with Ok _ => true | Raise _ => false end.

(** ** The arithmetic of Python numbers *)

Class PyNum (F : Type) := {
  of_int : Z -> F;                 (* int operand promoted to float *)
  fadd : F -> F -> F;              (* a + b *)
  fsub : F -> F -> F;              (* a - b *)
  fmul : F -> F -> F;              (* a * b *)
  fdiv : F -> F -> F;              (* a / b, divisor known non-zero *)
  flt : F -> F -> bool;            (* a < b *)
  to_int : F -> result Z;          (* int(a): truncation toward zero *)
  fmt6 : F -> string               (* f"{a:.6f}" *)
}.

(** [min(a, b)] of Python: the first argument unless the second is
    strictly smaller. *)
Definition py_min {F} `{PyNum F} (a b : F) : F :=
  if flt b a then b else a.

(** *** Decimal output *)

(** [str(n)] for an int. *)
Definition str_of_Z (z : Z) : string := NilZero.string_of_int (Z.to_int z).

Definition str_of_nat (n : nat) : string := str_of_Z (Z.of_nat n).

(** Rounding to the nearest integer, ties to the even one. *)
Definition round_half_even (q : Q) : Z :=
  let f := Qfloor q in
  match Qcompare (q - inject_Z f) (1 # 2) with
  | Lt => f
  | Gt => f + 1
  | Eq => if Z.even f then f else f + 1
  end.

(** The last [k] decimal digits of [n], most significant first. *)
Definition digit_char (d : Z) : ascii := ascii_of_nat (48 + Z.to_nat d).

Fixpoint digits_fixed (k : nat) (n : Z) : string :=
  match k with
  | O => EmptyString
  | S k' => digits_fixed k' (n / 10) +:+ String (digit_char (n mod 10)) EmptyString
  end.

(** Fixed notation with six decimals of an exactly known value, correctly
    rounded (as the C library prints a binary64 number). *)
Definition fmt6_Q (q : Q) : string :=
  let n := round_half_even (Qabs q * inject_Z (10 ^ 6)) in
  (if Qnum q <? 0 then "-" else EmptyString)
  +:+ str_of_Z (n / 10 ^ 6) +:+ "." +:+ digits_fixed 6 (n mod 10 ^ 6).

(** *** Instance 1: exact rational arithmetic *)

Definition Qtrunc (q : Q) : Z := Z.quot (Qnum q) (Zpos (Qden q)).

Definition Qltb (a b : Q) : bool :=
  (Qnum a * Zpos (Qden b) <? Qnum b * Zpos (Qden a))%Z.

#[export] Instance PyNum_Q : PyNum Q := {|
  of_int := inject_Z;
  fadd := Qplus;
  fsub := Qminus;
  fmul := Qmult;
  fdiv := Qdiv;
  flt := Qltb;
  to_int := fun q => Ok (Qtrunc q);
  fmt6 := fmt6_Q
|}.

(** *** Instance 2: IEEE 754 binary64, as CPython's [float] *)

(** [float(z)] for an int below 2^63 in magnitude (exact up to 2^53,
    rounded to nearest beyond, as CPython does).  On two such ints the true
    division [a / b] is the binary64 quotient of their conversions. *)
Definition float_of_Z (z : Z) : float :=
  if z <? 0 then PrimFloat.opp (PrimFloat.of_uint63 (Uint63.of_Z (- z)))
  else PrimFloat.of_uint63 (Uint63.of_Z z).

(** The exact value of a finite binary64 number [(-1)^s * m * 2^e]. *)
Definition SF_exact (x : spec_float) : option Q :=
  match x with
  | S754_zero _ => Some 0%Q
  | S754_finite s m e =>
      let mag := (if 0 <=? e
                  then inject_Z (Zpos m * 2 ^ e)
                  else Qmake (Zpos m) (Z.to_pos (2 ^ (- e))))%Z in
      Some (if s then Qopp mag else mag)
  | _ => None
  end.

Definition float_exact (x : float) : option Q := SF_exact (Prim2SF x).

(** [int(x)] raises [OverflowError] on an infinity and [ValueError] on a
    NaN. *)
Definition float_to_int (x : float) : result Z :=
  match float_exact x with
  | Some q => Ok (Qtrunc q)
  | None =>
      match Prim2SF x with
      | S754_nan => Raise ValueError
      | _ => Raise OverflowError
      end
  end.

(** [f"{x:.6f}"]: signed zeros, infinities and NaN apart, the exact value
    of [x] rounded to six decimals. *)
Definition float_fmt6 (x : float) : string :=
  match Prim2SF x with
  | S754_nan => "nan"
  | S754_infinity s => if s then "-inf" else "inf"
  | S754_zero s => if s then "-0.000000" else "0.000000"
  | S754_finite s _ _ =>
      match float_exact x with
      | Some q => (if s then "-" else EmptyString) +:+ fmt6_Q (Qabs q)
      | None => "nan"
      end
  end.

#[export] Instance PyNum_float : PyNum float := {|
  of_int := float_of_Z;
  fadd := PrimFloat.add;
  fsub := PrimFloat.sub;
  fmul := PrimFloat.mul;
  fdiv := PrimFloat.div;
  flt := PrimFloat.ltb;
  to_int := float_to_int;
  fmt6 := float_fmt6
|}.

(** ** The annotation JSON schema

    [{"images": [{"id", "file_name", "width", "height"}],
      "annotations": [{"image_id", "bbox": [x, y, w, h]}]}], as the entries
    of a file that loaded and has both keys, each entry with the keys
    above.  An entry that lacks one of them, on which the conversion
    raises [KeyError], is outside these types. *)

Module Coco.

Record image_info : Type := mkImage {
  id : Z;
  file_name : string;
  width : Z;
  height : Z
}.

Section Numbers.
Context {F : Type}.

(** One [bbox] entry [x, y, w, h]. *)
Record bbox : Type := mkBox { bx : F; by_ : F; bw : F; bh : F }.

Record annotation : Type := mkAnn {
  image_id : Z;
  ann_bbox : bbox
}.

Record coco : Type := mkCoco {
  images : list image_info;
  annotations : list annotation
}.

End Numbers.
Arguments bbox F : clear implicits.
Arguments annotation F : clear implicits.
Arguments coco F : clear implicits.

(** *** A file as the preprocessing reads it

    [update_annotation_coords] looks up ['annotations'], ['bbox'] and
    ['images'] only if they are there, and overwrites ['width'] and
    ['height'].  Here each of these keys may be missing, a [bbox] is the
    list of numbers found under the key, and [K] stands for the other
    keys of an entry, which are written back as they are. *)
Section Documents.
Context {F K : Type}.

Record annotation_entry : Type := mkAnnotationEntry {
  entry_bbox : option (list F);
  annotation_keys : K
}.

Record image_entry : Type := mkImageEntry {
  entry_width : option Z;
  entry_height : option Z;
  image_keys : K
}.

Record document : Type := mkDocument {
  doc_annotations : option (list annotation_entry);
  doc_images : option (list image_entry);
  doc_keys : K
}.

End Documents.
Arguments annotation_entry F K : clear implicits.
Arguments image_entry K : clear implicits.
Arguments document F K : clear implicits.

End Coco.

(** ** Letterbox geometry ([preprocessing.py]) *)

Module Geometry.
Import Coco.

Record ResizeParams (F : Type) : Type := mkParams {
  scale : F;
  new_size : Z * Z;
  padding : Z * Z;
  target_size : Z
}.
Arguments mkParams {F}.
Arguments scale {F}.
Arguments new_size {F}.
Arguments padding {F}.
Arguments target_size {F}.

Section Generic.
Context {F : Type} `{PyNum F}.

(** [target_size / width] on two ints: true division, which raises on a
    zero divisor. *)
Definition true_div (a b : Z) : result F :=
  if b =? 0 then Raise ZeroDivisionError
  else Ok (fdiv (of_int a) (of_int b)).

Definition calculate_resize_params (width height target : Z)
  : result (ResizeParams F) :=
  sw ← true_div target width;
  sh ← true_div target height;
  let scale := py_min sw sh in
  new_width ← to_int (fmul (of_int width) scale);
  new_height ← to_int (fmul (of_int height) scale);
  let pad_left := (target - new_width) / 2 in
  let pad_top := (target - new_height) / 2 in
  Ok {| scale := scale;
        new_size := (new_width, new_height);
        padding := (pad_left, pad_top);
        target_size := target |}.

(** The body of the loop over [data['annotations']]. *)
Definition update_bbox (p : ResizeParams F) (b : bbox F) : bbox F :=
  let s := scale p in
  let '(pad_left, pad_top) := padding p in
  {| bx := fadd (fmul (bx b) s) (of_int pad_left);
     by_ := fadd (fmul (by_ b) s) (of_int pad_top);
     bw := fmul (bw b) s;
     bh := fmul (bh b) s |}.

(** One round of the loop over [data['annotations']]: an entry without
    ['bbox'] is left as it is; a box that is not four numbers cannot be
    unpacked into [x, y, w, h], which raises ([None]). *)
Definition update_entry {K : Type} (p : ResizeParams F)
    (ann : annotation_entry F K) : option (annotation_entry F K) :=
  match entry_bbox ann with
  | None => Some ann
  | Some [x; y; w; h] =>
      let b := update_bbox p {| bx := x; by_ := y; bw := w; bh := h |} in
      Some {| entry_bbox := Some [bx b; by_ b; bw b; bh b];
              annotation_keys := annotation_keys ann |}
  | Some _ => None
  end.

(** [update_annotation_coords]: the record that is written back when the
    function returns [True], and [None] when it returns [False], having
    written nothing: the file does not load ([data] is [None]), or an
    exception stops the loop over the annotations.  Creating the
    directory and writing the file are taken to go through. *)
Definition update_annotation_coords {K : Type}
    (data : option (document F K)) (p : ResizeParams F)
  : option (document F K) :=
  data ← data;
  updated ← match doc_annotations data with
             | None => Some None
             | Some entries => Some <$> mapM (update_entry p) entries
             end;
  let resized :=
    map (fun img_info => {| entry_width := Some (target_size p);
                            entry_height := Some (target_size p);
                            image_keys := image_keys img_info |})
    <$> doc_images data in
  Some {| doc_annotations := updated;
          doc_images := resized;
          doc_keys := doc_keys data |}.

End Generic.

End Geometry.

(** ** Python string operations used on file names *)

Module PyStr.

(** [s.split(sep)] for a one-character separator: always at least one
    part. *)
Fixpoint split (sep : ascii) (s : string) : list string :=
  match s with
  | EmptyString => [EmptyString]
  | String c rest =>
      if Ascii.eqb c sep then EmptyString :: split sep rest
      else match split sep rest with
           | [] => [String c EmptyString]
           | part :: parts => String c part :: parts
           end
  end.

(** [sub in s] for a one-character [sub]. *)
Fixpoint contains (c : ascii) (s : string) : bool :=
  match s with
  | EmptyString => false
  | String d rest => Ascii.eqb d c || contains c rest
  end.

(** [s.replace(old, new)] for a non-empty [old]: occurrences are replaced
    from the left and do not overlap.  [skip] counts the characters of a
    matched occurrence still to be dropped. *)
Fixpoint replace_from (old new : string) (skip : nat) (s : string) : string :=
  match s with
  | EmptyString => EmptyString
  | String c rest =>
      match skip with
      | S k => replace_from old new k rest
      | O =>
          if String.prefix old s
          then String.append new
                 (replace_from old new (Nat.pred (String.length old)) rest)
          else String c (replace_from old new O rest)
      end
  end.

Definition replace (old new s : string) : string := replace_from old new O s.

(** [l[i]] on a list, for a non-negative literal index: [None] stands for
    [IndexError]. *)
Definition index {A} (l : list A) (i : nat) : option A := l !! i.

End PyStr.

(** ** The shared pseudo-random source ([random] module)

    The generator is an arbitrary infinite sequence of raw draws, consumed
    from the front; every statement below holds for all such sequences. *)

Module PyRandom.

Definition rng : Type := nat -> nat.

(** [_randbelow(n)]: a number below [n], for [n > 0]. *)
Definition randbelow (n : nat) (g : rng) : nat * rng :=
  ((g O mod n)%nat, fun i => g (S i)).

Section Lists.
Context {A : Type}.

(** [x[i], x[j] = x[j], x[i]] *)
Definition swap (x : list A) (i j : nat) : list A :=
  match x !! i, x !! j with
  | Some xi, Some xj => <[i := xj]> (<[j := xi]> x)
  | _, _ => x
  end.

(** [random.shuffle(x)]:
    [for i in reversed(range(1, len(x))): j = randbelow(i + 1); swap]. *)
Fixpoint shuffle_from (i : nat) (x : list A) (g : rng) : list A * rng :=
  match i with
  | O => (x, g)
  | S i' =>
      let '(j, g') := randbelow (S i) g in
      shuffle_from i' (swap x i j) g'
  end.

Definition shuffle (x : list A) (g : rng) : list A * rng :=
  shuffle_from (Nat.pred (length x)) x g.

(** [random.sample(population, k)], selection from a pool:
    [for i in range(k): j = randbelow(n - i); result[i] = pool[j];
     pool[j] = pool[n - i - 1]].  The pool is kept at its live length.
    (On a population much larger than [k] CPython tracks the chosen
    positions in a set instead; either way [k] distinct positions are
    drawn.) *)
Fixpoint sample_from (k : nat) (pool : list A) (g : rng) : list A * rng :=
  match k with
  | O => ([], g)
  | S k' =>
      let n := length pool in
      let '(j, g') := randbelow n g in
      match pool !! j, pool !! Nat.pred n with
      | Some xj, Some xlast =>
          let pool' := take (Nat.pred n) (<[j := xlast]> pool) in
          let '(rest, g'') := sample_from k' pool' g' in
          (xj :: rest, g'')
      | _, _ => ([], g')
      end
  end.

(** [ValueError("Sample larger than population or is negative")] *)
Definition sample (population : list A) (k : Z) (g : rng)
  : result (list A * rng) :=
  if (k <? 0) || (Z.of_nat (length population) <? k)
  then Raise ValueError
  else Ok (sample_from (Z.to_nat k) population g).

End Lists.

End PyRandom.

(** ** Python list slices and [defaultdict(list)] grouping *)

Module PyList.

Section Slices.
Context {A : Type}.

Definition len (l : list A) : Z := Z.of_nat (length l).

(** A slice bound is clamped into [0, len]; a negative one counts from
    the end. *)
Definition clamp (l : list A) (i : Z) : nat :=
  if i <? 0 then Z.to_nat (Z.max (i + len l) 0)
  else Z.to_nat (Z.min i (len l)).

(** [l[:hi]] *)
Definition slice_to (l : list A) (hi : Z) : list A :=
  take (clamp l hi) l.

(** [l[lo:]] *)
Definition slice_from (l : list A) (lo : Z) : list A :=
  drop (clamp l lo) l.

(** [l[lo:hi]] *)
Definition slice (l : list A) (lo hi : Z) : list A :=
  take (clamp l hi - clamp l lo)%nat (drop (clamp l lo) l).

(** [groups[k].append(v)] on an insertion-ordered [defaultdict(list)]. *)
Fixpoint group_append (k : string) (v : A) (groups : list (string * list A))
  : list (string * list A) :=
  match groups with
  | [] => [(k, [v])]
  | (k', vs) :: rest =>
      if String.eqb k' k then (k', vs ++ [v]) :: rest
      else (k', vs) :: group_append k v rest
  end.

(** [for v in l: groups[key(v)].append(v)] *)
Definition group_by (key : A -> string) (l : list A)
  : list (string * list A) :=
  foldl (fun groups v => group_append (key v) v groups) [] l.

End Slices.

End PyList.

(** ** Calls that end in an exception outside arithmetic *)

(** The exceptions met in the wrappers: those of [exn], a subscript on
    [None] or a comparison of a [str] with an [int] ([TypeError]), a
    missing dictionary key ([KeyError]), a [ValueError] raised with a
    message. *)
Inductive py_exception : Type :=
| Arithmetic (e : exn)
| TypeError
| KeyError (key : string)
| ValueErrorOf (message : string).

Inductive outcome (A : Type) : Type :=
| Returns (a : A)
| Raises (e : py_exception).
Arguments Returns {A} a.
Arguments Raises {A} e.

#[export] Instance outcome_bind : MBind outcome := fun A B k r =>
  match r with
  | Returns a => k a
  | Raises e => Raises e
  end.

#[export] Instance outcome_ret : MRet outcome := fun A a => Returns a.

(** ** Text files and [str.strip]

    A Python [str] is held as its UTF-8 bytes: splitting, replacing and
    comparing on ASCII separators read the same on bytes and on code
    points, and a file written and read back with [encoding='utf-8'] keeps
    its bytes. *)

Module PyText.

Definition bytes (codes : list nat) : string :=
  foldr (fun n s => String (ascii_of_nat n) s) EmptyString codes.

(** ["\n"] and ["\r"] *)
Definition newline : ascii := ascii_of_nat 10.
Definition carriage_return : ascii := ascii_of_nat 13.

(** The text of a file written with one [f.write(f"{line}\n")] per
    line. *)
Definition text_of (lines : list string) : string :=
  foldr (fun line text => line +:+ String newline text) EmptyString lines.

(** [f.readlines()] on a file opened in text mode: each line with its
    end, where ["\r\n"] and a lone ["\r"] are read as ["\n"] (universal
    newlines). *)
Fixpoint readlines (text : string) : list string :=
  match text with
  | EmptyString => []
  | String c rest =>
      if Ascii.eqb c newline then String newline EmptyString :: readlines rest
      else if Ascii.eqb c carriage_return then
        String newline EmptyString
          :: match rest with
             | String d rest' =>
                 if Ascii.eqb d newline then readlines rest'
                 else readlines rest
             | EmptyString => []
             end
      else match readlines rest with
           | [] => [String c EmptyString]
           | line :: lines => String c line :: lines
           end
  end.

(** The characters [str.strip()] removes, in UTF-8: U+0009 to U+000D,
    U+001C to U+0020, U+0085, U+00A0, U+1680, U+2000 to U+200A, U+2028,
    U+2029, U+202F, U+205F and U+3000. *)
Definition whitespace : list string :=
  map bytes
    [ [9]; [10]; [11]; [12]; [13]; [28]; [29]; [30]; [31]; [32];
      [194; 133]; [194; 160]; [225; 154; 128];
      [226; 128; 128]; [226; 128; 129]; [226; 128; 130]; [226; 128; 131];
      [226; 128; 132]; [226; 128; 133]; [226; 128; 134]; [226; 128; 135];
      [226; 128; 136]; [226; 128; 137]; [226; 128; 138];
      [226; 128; 168]; [226; 128; 169]; [226; 128; 175];
      [226; 129; 159]; [227; 128; 128] ]%nat.

(** [s] without its prefix [w], when it has that prefix. *)
Fixpoint drop_prefix (w s : string) : option string :=
  match w, s with
  | EmptyString, _ => Some s
  | String a w', String b s' =>
      if Ascii.eqb a b then drop_prefix w' s' else None
  | String _ _, EmptyString => None
  end.

Fixpoint drop_first (ws : list string) (s : string) : option string :=
  match ws with
  | [] => None
  | w :: ws' =>
      match drop_prefix w s with
      | Some s' => Some s'
      | None => drop_first ws' s
      end
  end.

(** Leading items of [ws] are dropped as long as there is one; [fuel]
    bounds the number of rounds. *)
Fixpoint lstrip_upto (fuel : nat) (ws : list string) (s : string) : string :=
  match fuel with
  | O => s
  | S fuel' =>
      match drop_first ws s with
      | Some s' => lstrip_upto fuel' ws s'
      | None => s
      end
  end.

Fixpoint reverse (s : string) : string :=
  match s with
  | EmptyString => EmptyString
  | String c s' => reverse s' +:+ String c EmptyString
  end.

Definition lstrip (s : string) : string :=
  lstrip_upto (String.length s) whitespace s.

Definition rstrip (s : string) : string :=
  reverse (lstrip_upto (String.length s) (map reverse whitespace) (reverse s)).

(** [s.strip()] *)
Definition strip (s : string) : string := rstrip (lstrip s).

End PyText.

(** ** Sampling strategies ([dataset_splitter.py]; [dataset_prunig.py]
    holds the same three strategies under other names) *)

Module Sampler.
Import PyRandom PyList.

(** An image-annotation pair as [_extract_train_pairs] builds it. *)
Record pair : Type := mkPair {
  image : string;
  annotation : string;
  name : string
}.

#[export] Instance pair_eq_dec : EqDecision pair.
Proof. solve_decision. Defined.

(** The grouping key of [_balanced_sample]:
    [pair['name'].split('-')[1]], and ['unknown'] when that raises. *)
Definition class_key (pair_name : string) : string :=
  match PyStr.index (PyStr.split "-" pair_name) 1 with
  | Some code => code
  | None => "unknown"
  end.

Definition pill_code (p : pair) : string := class_key (name p).

(** The loop [for code, group_pairs in groups.items()]. *)
Fixpoint sample_groups (samples_per_group : Z)
    (groups : list (string * list pair)) (g : rng)
  : result (list pair * rng) :=
  match groups with
  | [] => Ok ([], g)
  | (_, group_pairs) :: rest =>
      let sample_count := Z.min samples_per_group (len group_pairs) in
      '(picked, g1) ← sample group_pairs sample_count g;
      '(more, g2) ← sample_groups samples_per_group rest g1;
      Ok (picked ++ more, g2)
  end.

Definition _balanced_sample (pairs : list pair) (target_size : Z) (g : rng)
  : result (list pair * rng) :=
  let groups := group_by pill_code pairs in
  if len groups =? 0 then Raise ZeroDivisionError
  else
    let samples_per_group := Z.max 1 (target_size / len groups) in
    '(selected, g1) ← sample_groups samples_per_group groups g;
    if len selected <? target_size then
      let remaining := filter (fun p => p ∉ selected) pairs in
      let additional_count :=
        Z.min (target_size - len selected) (len remaining) in
      '(additional, g2) ← sample remaining additional_count g1;
      Ok (selected ++ additional, g2)
    else if target_size <? len selected then
      sample selected target_size g1
    else Ok (selected, g1).

Section Quality.
(** [os.path.getsize], the size on disk of each image file. *)
Variable getsize : string -> Z.

(** The stable descending order of [sort(key=..., reverse=True)]: an
    earlier item stays before a later one of the same size. *)
Fixpoint insert_desc (x : pair * Z) (l : list (pair * Z))
  : list (pair * Z) :=
  match l with
  | [] => [x]
  | y :: l' =>
      if snd x <? snd y then y :: insert_desc x l' else x :: y :: l'
  end.

Definition sort_desc (l : list (pair * Z)) : list (pair * Z) :=
  foldr insert_desc [] l.

Definition _quality_sample (pairs : list pair) (target_size : Z)
  : list pair :=
  let pairs_with_size := map (fun p => (p, getsize (image p))) pairs in
  map fst (slice_to (sort_desc pairs_with_size) target_size).

(** The strategy dispatch at the end of [_extract_train_pairs], on the
    valid pairs found by the directory scan. *)
Definition _extract_train_pairs (valid_pairs : list pair) (train_size : Z)
    (strategy : string) (g : rng) : result (list pair * rng) :=
  if String.eqb strategy "balanced" then
    _balanced_sample valid_pairs train_size g
  else if String.eqb strategy "quality" then
    Ok (_quality_sample valid_pairs train_size, g)
  else
    sample valid_pairs (Z.min train_size (len valid_pairs)) g.

End Quality.

End Sampler.

(** ** The test images of the small dataset ([dataset_splitter.py]) *)

Module SamplerFiles.
Import PyRandom PyList.

(** [_extract_test_files], on the test images found by the directory
    scan. *)
Definition _extract_test_files (test_images : list string) (test_size : Z)
    (g : rng) : result (list string * rng) :=
  sample test_images (Z.min test_size (len test_images)) g.

End SamplerFiles.

(** ** COCO to YOLO conversion ([annotation_converter.py]) *)

Module Converter.
Import Coco.

(** [extract_pill_code]: the file name without [.png] and [.json], cut at
    its first underscore. *)
Definition extract_pill_code (filename : string) : string :=
  let name := PyStr.replace ".json" EmptyString
      (PyStr.replace ".png" EmptyString filename) in
  if PyStr.contains "_" name
  then hd name (PyStr.split "_" name)
  else name.

(** [sorted(list(all_pill_codes))]: the distinct codes in ascending
    order. *)
Fixpoint insert_sorted (c : string) (l : list string) : list string :=
  match l with
  | [] => [c]
  | d :: l' => if String.leb c d then c :: d :: l' else d :: insert_sorted c l'
  end.

Definition sorted (l : list string) : list string :=
  foldr insert_sorted [] l.

(** [{code: i for i, code in enumerate(sorted_codes)}] *)
Definition enumerate_codes (sorted_codes : list string) : gmap string nat :=
  foldl (fun m '(i, code) => <[code := i]> m) ∅
        (imap (fun i code => (i, code)) sorted_codes).

Section Generic.
Context {F : Type} `{PyNum F}.

(** The pill codes of the first pass, and the class mapping. *)
Definition all_pill_codes (files : list (coco F)) : list string :=
  remove_dups
    (flat_map (fun data => map (fun img => extract_pill_code (file_name img))
                               (images data)) files).

Definition class_mapping (files : list (coco F)) : gmap string nat :=
  enumerate_codes (sorted (all_pill_codes files)).

(** One label line, without its newline: the body of
    [for ann in image_annotations], which raises when a recorded image
    side is zero. *)
Definition yolo_line (class_id : nat) (img_width img_height : Z) (b : bbox F)
  : result string :=
  if img_width =? 0 then Raise ZeroDivisionError else
  let center_x :=
    fdiv (fadd (bx b) (fdiv (bw b) (of_int 2))) (of_int img_width) in
  if img_height =? 0 then Raise ZeroDivisionError else
  let center_y :=
    fdiv (fadd (by_ b) (fdiv (bh b) (of_int 2))) (of_int img_height) in
  let width_rel := fdiv (bw b) (of_int img_width) in
  let height_rel := fdiv (bh b) (of_int img_height) in
  Ok (str_of_nat class_id +:+ " " +:+ fmt6 center_x +:+ " " +:+ fmt6 center_y
      +:+ " " +:+ fmt6 width_rel +:+ " " +:+ fmt6 height_rel).

(** The lines written into an open label file, and the exception that
    interrupted the loop, if any. *)
Fixpoint write_lines (class_id : nat) (img_width img_height : Z)
    (anns : list (annotation F)) : list string * option exn :=
  match anns with
  | [] => ([], None)
  | ann :: rest =>
      match yolo_line class_id img_width img_height (ann_bbox ann) with
      | Raise e => ([], Some e)
      | Ok line =>
          let '(lines, e) := write_lines class_id img_width img_height rest in
          (line :: lines, e)
      end
  end.

(** A file written: its name inside the output directory and its lines. *)
Definition written_file : Type := string * list string.

Definition image_annotations (data : coco F) (img : image_info)
  : list (annotation F) :=
  filter (fun ann => image_id ann = id img) (annotations data).

Definition label_name (filename : string) : string :=
  PyStr.replace ".jpg" EmptyString
    (PyStr.replace ".png" EmptyString filename) +:+ ".txt".

(** The loop over the images of one file: the label files written, the
    number of images converted, and the exception that stopped it. *)
Fixpoint convert_images (code_to_id : gmap string nat) (data : coco F)
    (imgs : list image_info) : list written_file * nat * option exn :=
  match imgs with
  | [] => ([], O, None)
  | img :: rest =>
      let anns := image_annotations data img in
      match anns with
      | [] => convert_images code_to_id data rest
      | _ :: _ =>
          let pill_code := extract_pill_code (file_name img) in
          let class_id := default O (code_to_id !! pill_code) in
          let '(lines, e) :=
            write_lines class_id (width img) (height img) anns in
          let file := (label_name (file_name img), lines) in
          match e with
          | Some _ => ([file], O, e)
          | None =>
              let '(files, count, e') := convert_images code_to_id data rest in
              (file :: files, S count, e')
          end
      end
  end.

(** The loop over the valid annotation files. *)
Fixpoint convert_files (code_to_id : gmap string nat) (files : list (coco F))
  : list written_file * nat * option exn :=
  match files with
  | [] => ([], O, None)
  | data :: rest =>
      let '(written, count, e) :=
        convert_images code_to_id data (images data) in
      match e with
      | Some _ => (written, count, e)
      | None =>
          let '(written', count', e') := convert_files code_to_id rest in
          (written ++ written', (count + count')%nat, e')
      end
  end.

Record summary : Type := mkSummary {
  converted_count : nat;
  total_classes : nat;
  code_to_id_of : gmap string nat
}.

(** The annotation files found, each with its content when it loads and
    has both keys; the first pass keeps those. *)
Definition valid_files (json_files : list (option (coco F)))
  : list (coco F) :=
  omap (fun content => content) json_files.

(** [convert_coco_to_yolo]: the files written into the output directory,
    in order, and the value returned ([None] when no annotation file is
    found) or the exception raised. *)
Definition convert_coco_to_yolo (json_files : list (option (coco F)))
  : list written_file * result (option summary) :=
  match json_files with
  | [] => ([], Ok None)
  | _ :: _ =>
      let files := valid_files json_files in
      let sorted_codes := sorted (all_pill_codes files) in
      let code_to_id := enumerate_codes sorted_codes in
      let classes_file : written_file := ("classes.txt"%string, sorted_codes) in
      let '(written, count, e) := convert_files code_to_id files in
      (classes_file :: written,
       match e with
       | Some err => Raise err
       | None => Ok (Some {| converted_count := count;
                             total_classes := length sorted_codes;
                             code_to_id_of := code_to_id |})
       end)
  end.

(** The output directory after the writes: a later write replaces an
    earlier file of the same name. *)
Definition files_after (dir : gmap string (list string))
    (written : list written_file) : gmap string (list string) :=
  foldl (fun d '(path, lines) => <[path := lines]> d) dir written.

End Generic.

End Converter.

(** ** Stratified train/val/test split ([dataset_split.py]) *)

Module Splitter.
Import PyRandom PyList.

(** [_extract_pill_code]: the segment after the first dash, else the
    prefix before the first underscore; ['unknown'] only in the handler
    of an exception. *)
Definition _extract_pill_code (filename : string) : string :=
  let parts := PyStr.split "-" filename in
  if (2 <=? length parts)%nat then
    match PyStr.index parts 1 with
    | Some code => code
    | None => "unknown"
    end
  else
    match PyStr.index (PyStr.split "_" filename) 0 with
    | Some code => code
    | None => "unknown"
    end.

(** An image-label pair as [_get_image_label_pairs] builds it. *)
Record pair : Type := mkPair {
  image : string;
  label : string;
  name : string;
  pill_code : string
}.

#[export] Instance pair_eq_dec : EqDecision pair.
Proof. solve_decision. Defined.

Definition make_pair (img_path label_path img_name : string) : pair :=
  {| image := img_path; label := label_path; name := img_name;
     pill_code := _extract_pill_code img_name |}.

Section Generic.
Context {F : Type} `{PyNum F}.

Definition splits : Type := list pair * list pair * list pair.

(** The loop [for pill_code, group_pairs in pill_groups.items()]. *)
Fixpoint split_groups (groups : list (string * list pair))
    (train_ratio val_ratio : F) (g : rng) : result (splits * rng) :=
  match groups with
  | [] => Ok (([], [], []), g)
  | (_, group_pairs) :: rest =>
      let '(group_pairs, g1) := shuffle group_pairs g in
      let n := len group_pairs in
      train_end ← to_int (fmul (of_int n) train_ratio);
      val_len ← to_int (fmul (of_int n) val_ratio);
      let val_end := train_end + val_len in
      '((train, val, test), g2) ← split_groups rest train_ratio val_ratio g1;
      Ok ((slice_to group_pairs train_end ++ train,
           slice group_pairs train_end val_end ++ val,
           slice_from group_pairs val_end ++ test), g2)
  end.

Definition _stratified_split (pairs : list pair)
    (train_ratio val_ratio test_ratio : F) (g : rng)
  : result (splits * rng) :=
  let pill_groups := group_by pill_code pairs in
  '((train_pairs, val_pairs, test_pairs), g1) ←
    split_groups pill_groups train_ratio val_ratio g;
  let '(train_pairs, g2) := shuffle train_pairs g1 in
  let '(val_pairs, g3) := shuffle val_pairs g2 in
  let '(test_pairs, g4) := shuffle test_pairs g3 in
  Ok ((train_pairs, val_pairs, test_pairs), g4).

End Generic.

End Splitter.

(** ** The dataset configuration ([dataset_split.py],
    [_create_dataset_yaml]) *)

Module DatasetYaml.
Import PyText.

(** The dictionary dumped into [dataset.yaml]. *)
Record dataset_config : Type := mkConfig {
  path : string;
  train : string;
  val : string;
  test : string;
  nc : nat;
  names : list string
}.

(** [[line.strip() for line in f.readlines() if line.strip()]] *)
Definition read_class_names (text : string) : list string :=
  filter (fun line => line <> EmptyString) (map strip (readlines text)).

(** [_create_dataset_yaml]: [classes_file] is the text of
    [yolo_labels/classes.txt] when that file exists, [abs_output_path]
    what [os.path.abspath(output_path)] gives. *)
Definition _create_dataset_yaml (classes_file : option string)
    (abs_output_path : string) : dataset_config :=
  let class_names :=
    match classes_file with
    | Some text => read_class_names text
    | None => ["pill"%string]
    end in
  {| path := abs_output_path;
     train := "images/train";
     val := "images/val";
     test := "images/test";
     nc := length class_names;
     names := class_names |}.

End DatasetYaml.

(** ** Dataset validation ([validation.py]) *)

Module Validation.
Import PyList.
Local Open Scope string_scope.

(** [os.path.basename] on a POSIX path: what follows the last slash. *)
Definition basename (path : string) : string :=
  List.last (PyStr.split "/" path) EmptyString.

(** What [Image.open(path)] gives: an image with its size and mode, or
    an exception with its text. *)
Inductive opened : Type :=
| Image (width height : Z) (mode : string)
| OpenError (message : string).

(** The directory tree as the validation reads it. *)
Record dataset : Type := mkDataset {
  train_images : list string;        (* glob of train_images/*.png *)
  test_images : list string;         (* glob of test_images/*.png *)
  open_image : string -> opened;
  (* glob of train_annotations/*/*/<img_name>.json *)
  annotation_files : string -> list string;
  (* [json.load] of a file: the text of its exception, if it raises *)
  load_error : string -> option string
}.

(** The body of the loop of [validate_images]: the issue recorded for an
    image, if any. *)
Definition image_issue (min_size : Z) (img_path : string) (o : opened)
  : option string :=
  match o with
  | Image width height mode =>
      if ((width <? min_size) || (height <? min_size))%Z then
        Some ("Small image: " +:+ img_path +:+ " (" +:+ str_of_Z width
              +:+ "x" +:+ str_of_Z height +:+ ")")
      else if negb (String.eqb mode "RGB" || String.eqb mode "L") then
        Some ("Invalid format: " +:+ img_path +:+ " (" +:+ mode +:+ ")")
      else None
  | OpenError message =>
      Some ("Corrupted image: " +:+ img_path +:+ " - " +:+ message)
  end.

(** One round of either loop: an issue is appended, or the image is
    counted as valid. *)
Definition record (state : Z * list string) (issue : option string)
  : Z * list string :=
  let '(valid_count, issues) := state in
  match issue with
  | Some text => (valid_count, (issues ++ [text])%list)
  | None => ((valid_count + 1)%Z, issues)
  end.

Definition validate_images (d : dataset) (min_size : Z)
  : Z * Z * list string :=
  let all_images := (train_images d ++ test_images d)%list in
  let '(valid_count, issues) :=
    foldl (fun state img_path =>
             record state (image_issue min_size img_path
                                       (open_image d img_path)))
          (0, []) all_images in
  (valid_count, len all_images, issues).

(** The body of the loop of [validate_annotations]. *)
Definition annotation_issue (d : dataset) (img_path : string)
  : option string :=
  let img_name := PyStr.replace ".png" EmptyString (basename img_path) in
  match annotation_files d img_name with
  | [] => Some ("Missing annotation: " +:+ img_name)
  | json_file :: _ =>
      match load_error d json_file with
      | None => None
      | Some message =>
          Some ("Invalid JSON: " +:+ json_file +:+ " - " +:+ message)
      end
  end.

Definition validate_annotations (d : dataset) : Z * Z * list string :=
  let '(valid_count, issues) :=
    foldl (fun state img_path => record state (annotation_issue d img_path))
          (0, []) (train_images d) in
  (valid_count, len (train_images d), issues).

Record counts : Type := mkCounts {
  valid : Z;
  total : Z;
  issues : list string
}.

Record report : Type := mkReport {
  images : counts;
  annotations : counts
}.

Section Generic.
Context {F : Type} `{PyNum F}.

(** [validate_dataset]: the two summary lines print
    [img_valid/img_total*100] and [ann_valid/ann_total*100]. *)
Definition validate_dataset (d : dataset) : result report :=
  let '(img_valid, img_total, img_issues) := validate_images d 100 in
  let '(ann_valid, ann_total, ann_issues) := validate_annotations d in
  _ ← Geometry.true_div (F:=F) img_valid img_total;
  _ ← Geometry.true_div (F:=F) ann_valid ann_total;
  Ok {| images := {| valid := img_valid; total := img_total;
                     issues := img_issues |};
        annotations := {| valid := ann_valid; total := ann_total;
                          issues := ann_issues |} |}.

End Generic.

End Validation.

(** ** Preprocessing of a dataset ([preprocessing.py]) *)

Module Preprocess.
Import Coco Geometry PyList.

(** An image file as the preprocessing meets it. *)
Record image_file : Type := mkImageFile {
  (* the size of the opened image; [None] when opening or converting
     it raises *)
  image_size : option (Z * Z);
  (* resizing, pasting and saving go through *)
  image_written : bool
}.

(** A training image with what becomes of its annotation: [None] when
    the glob finds no annotation file, else what
    [update_annotation_coords] returns. *)
Record train_image : Type := mkTrainImage {
  file : image_file;
  annotation_updated : option bool
}.

Section Generic.
Context {F : Type} `{PyNum F}.

(** [process_image]: the parameters, or [None] after any exception. *)
Definition process_image (img : image_file) (target_size : Z)
  : option (ResizeParams F) :=
  match image_size img with
  | None => None
  | Some (width, height) =>
      match calculate_resize_params width height target_size with
      | Raise _ => None
      | Ok params => if image_written img then Some params else None
      end
  end.

(** [preprocess_dataset]: the two counters after the loop over the
    training images and the loop over the test images. *)
Definition preprocess_dataset (train_images : list train_image)
    (test_images : list image_file) (target_size : Z) : Z * Z :=
  let after_train :=
    foldl (fun '(processed_count, failed_count) img =>
             match process_image (file img) target_size with
             | None => (processed_count, failed_count + 1)
             | Some params =>
                 match annotation_updated img with
                 | Some true => (processed_count + 1, failed_count)
                 | _ => (processed_count, failed_count)
                 end
             end)
          (0, 0) train_images in
  foldl (fun '(processed_count, failed_count) img =>
           match process_image img target_size with
           | Some _ => (processed_count + 1, failed_count)
           | None => (processed_count, failed_count + 1)
           end)
        after_train test_images.

(** [run_preprocessing]: the summary prints
    [processed/(processed+failed)*100]. *)
Definition run_preprocessing (train_images : list train_image)
    (test_images : list image_file) (target_size : Z) : result (Z * Z) :=
  let '(processed, failed) :=
    preprocess_dataset train_images test_images target_size in
  _ ← true_div (F:=F) processed (processed + failed);
  Ok (processed, failed).

End Generic.

End Preprocess.

(** ** Predefined dataset settings ([config.py]) *)

Module Config.
Local Open Scope string_scope.

(** The values of a settings dictionary: sizes are ints, the rest are
    strings. *)
Inductive value : Type :=
| VInt (n : Z)
| VStr (s : string).

Definition config : Type := gmap string value.

(** A dictionary with the five keys of the predefined settings. *)
Definition settings (train_size test_size : Z)
    (output_path sampling_strategy description : string) : config :=
  list_to_map
    [ ("train_size", VInt train_size);
      ("test_size", VInt test_size);
      ("output_path", VStr output_path);
      ("sampling_strategy", VStr sampling_strategy);
      ("description", VStr description) ].

Definition dataset_settings : list (string * config) :=
  [ ("prototype",
     settings 50 25 "./data/prototype_data" "random"
       "매우 빠른 프로토타입 테스트용 (1-2분 실행)");
    ("development",
     settings 150 75 "./data/dev_data" "balanced"
       "개발 및 디버깅용 (5-10분 실행)");
    ("experiment",
     settings 300 150 "./data/exp_data" "quality"
       "모델 실험 및 하이퍼파라미터 튜닝용 (15-25분 실행)");
    ("validation",
     settings 500 250 "./data/val_data" "balanced"
       "모델 성능 검증용 (30-45분 실행)");
    ("demo",
     settings 100 50 "./data/demo_data" "quality"
       "발표 및 데모용 고품질 샘플");
    ("analysis",
     settings 200 100 "./data/analysis_data" "balanced"
       "데이터 분석 및 시각화용") ].

Definition DATASET_CONFIGS : gmap string config :=
  list_to_map dataset_settings.

Definition personal_settings : list (string * config) :=
  [ ("researcher_a",
     settings 400 200 "./data/researcher_a_data" "balanced"
       "연구원 A 전용 설정");
    ("researcher_b",
     settings 250 125 "./data/researcher_b_data" "quality"
       "연구원 B 전용 설정") ].

(** [PERSONAL_CONFIGS] as the module defines it; [add_personal_config]
    changes it, so the functions below take its current state. *)
Definition PERSONAL_CONFIGS : gmap string config :=
  list_to_map personal_settings.

(** [d[key]] *)
Definition subscript {A} (d : gmap string A) (key : string) : outcome A :=
  match d !! key with
  | Some v => Returns v
  | None => Raises (KeyError key)
  end.

Definition get_config (personal : gmap string config) (config_name : string)
  : outcome config :=
  match DATASET_CONFIGS !! config_name with
  | Some found => Returns found
  | None =>
      match personal !! config_name with
      | Some found => Returns found
      | None => subscript DATASET_CONFIGS "development"
      end
  end.

(** [add_personal_config]: the state of [PERSONAL_CONFIGS] after the
    call; an empty description is replaced by the default one. *)
Definition add_personal_config (personal : gmap string config)
    (name : string) (train_size test_size : Z)
    (output_path sampling_strategy description : string)
  : gmap string config :=
  <[name := settings train_size test_size output_path sampling_strategy
              (if String.eqb description EmptyString
               then name +:+ " 전용 설정" else description)]> personal.

Definition recommendations : gmap string string :=
  list_to_map
    [ ("quick_test", "prototype");
      ("development", "development");
      ("experiment", "experiment");
      ("production", "validation");
      ("demo", "demo");
      ("analysis", "analysis") ].

Definition get_recommended_config (purpose : string) : string :=
  default "development" (recommendations !! purpose).

(** [v <= 0]; an int and a [str] do not compare. *)
Definition le_zero (v : value) : outcome bool :=
  match v with
  | VInt n => Returns (n <=? 0)%Z
  | VStr _ => Raises TypeError
  end.

Definition is_strategy (v : value) : bool :=
  match v with
  | VStr s => String.eqb s "balanced" || String.eqb s "quality"
              || String.eqb s "random"
  | VInt _ => false
  end.

(** The loop over [required_keys]. *)
Fixpoint require_keys (keys : list string) (c : config) : outcome unit :=
  match keys with
  | [] => Returns tt
  | key :: rest =>
      match c !! key with
      | None =>
          Raises (ValueErrorOf ("설정에 '" +:+ key +:+ "' 항목이 없습니다."))
      | Some _ => require_keys rest c
      end
  end.

Definition validate_config (c : config) : outcome bool :=
  _ ← require_keys
        ["train_size"; "test_size"; "output_path"; "sampling_strategy"] c;
  train_size ← subscript c "train_size";
  train_empty ← le_zero train_size;
  test_empty ←
    (if train_empty : bool then Returns true
     else test_size ← subscript c "test_size"; le_zero test_size);
  if test_empty : bool then
    Raises (ValueErrorOf "train_size와 test_size는 0보다 커야 합니다.")
  else
    strategy ← subscript c "sampling_strategy";
    if is_strategy strategy then Returns true
    else Raises (ValueErrorOf
      "sampling_strategy는 'balanced', 'quality', 'random' 중 하나여야 합니다.").

End Config.

(** ** The directory scans

    The pools of the sampler and of the splitter, as the two modules
    build them from what [glob] and [os.path.exists] return. *)

Module PyPath.
Local Open Scope string_scope.

Fixpoint ends_with_slash (path : string) : bool :=
  match path with
  | EmptyString => false
  | String c EmptyString => Ascii.eqb c "/"
  | String _ rest => ends_with_slash rest
  end.

(** [os.path.join(path, b)] on POSIX. *)
Definition join (path b : string) : string :=
  if String.prefix "/" b then b
  else if String.eqb path EmptyString || ends_with_slash path then path +:+ b
  else path +:+ "/" +:+ b.

End PyPath.

(** *** [dataset_splitter.py]: images with an annotation *)

Module SamplerScan.
Import PyRandom PyList Sampler.
Local Open Scope string_scope.

(** The source directory as [_extract_train_pairs] reads it. *)
Record source : Type := mkSource {
  train_images : list string;        (* glob of train_images/*.png *)
  annotation_folders : list string;  (* glob of train_annotations/* *)
  (* glob of <folder>/*/<img_name>.json *)
  json_files : string -> string -> list string
}.

Fixpoint _find_annotation (src : source) (img_name : string)
    (folders : list string) : option string :=
  match folders with
  | [] => None
  | folder :: rest =>
      match json_files src folder img_name with
      | [] => _find_annotation src img_name rest
      | first :: _ => Some first
      end
  end.

Definition image_name (img_path : string) : string :=
  PyStr.replace ".png" EmptyString (Validation.basename img_path).

(** The body of the loop over [train_images]: the pair appended, if
    [json_path] is neither [None] nor empty. *)
Definition valid_pair (src : source) (img_path : string) : option pair :=
  let img_name := image_name img_path in
  match _find_annotation src img_name (annotation_folders src) with
  | None => None
  | Some json_path =>
      if String.eqb json_path EmptyString then None
      else Some {| image := img_path; annotation := json_path;
                   name := img_name |}
  end.

Definition valid_pairs (src : source) : list pair :=
  omap (valid_pair src) (train_images src).

Definition _extract_train_pairs (getsize : string -> Z) (src : source)
    (train_size : Z) (strategy : string) (g : rng)
  : result (list pair * rng) :=
  Sampler._extract_train_pairs getsize (valid_pairs src) train_size strategy g.

End SamplerScan.

(** *** [dataset_split.py]: images with a label *)

Module SplitterScan.
Import PyRandom PyList Splitter PyPath.
Local Open Scope string_scope.

Definition image_name (img_path : string) : string :=
  PyStr.replace ".png" EmptyString (Validation.basename img_path).

Definition label_path_of (input_path img_path : string) : string :=
  join (join input_path "yolo_labels") (image_name img_path +:+ ".txt").

(** [_get_image_label_pairs]: [image_files] is the glob of
    [train_images/*.png], [path_exists] is [os.path.exists]. *)
Definition _get_image_label_pairs (input_path : string)
    (image_files : list string) (path_exists : string -> bool) : list pair :=
  omap (fun img_path =>
          let img_name := image_name img_path in
          let label_path := label_path_of input_path img_path in
          if path_exists label_path
          then Some (make_pair img_path label_path img_name)
          else None)
       image_files.

Record split_summary : Type := mkSplitSummary {
  train_count : Z;
  val_count : Z;
  test_count : Z;
  output_path : string
}.

Section Generic.
Context {F : Type} `{PyNum F}.

(** [split_dataset_for_yolo]: the pairs handed to [_copy_split_data] for
    the three directories, and the summary returned.  Creating the
    directories, copying the files and writing [dataset.yaml] are taken
    to go through. *)
Definition split_dataset_for_yolo (input_path output : string)
    (image_files : list string) (path_exists : string -> bool)
    (train_ratio val_ratio test_ratio : F) (g : rng)
  : result (splits * split_summary * rng) :=
  let pairs := _get_image_label_pairs input_path image_files path_exists in
  '((train_pairs, val_pairs, test_pairs), g') ←
    _stratified_split pairs train_ratio val_ratio test_ratio g;
  Ok ((train_pairs, val_pairs, test_pairs),
      {| train_count := len train_pairs; val_count := len val_pairs;
         test_count := len test_pairs; output_path := output |}, g').

End Generic.

End SplitterScan.

(** ** Class balance score ([data_analyzer.py])

    [np.mean], [np.std] and [round] work on NumPy's float64.  Their
    operations are kept behind the interface [NpNum], with two instances:
    the real numbers, for the exact reading of the formula, and IEEE
    binary64, the arithmetic NumPy performs. *)

Class NpNum (F : Type) := {
  np_of_int : Z -> F;        (* an int64 entry, or a number of items *)
  np_add : F -> F -> F;
  np_sub : F -> F -> F;
  np_mul : F -> F -> F;
  np_div : F -> F -> F;
  np_sqrt : F -> F;
  np_rint : F -> F;          (* [np.rint]: nearest integer, ties to even *)
  np_gt0 : F -> bool         (* x > 0 *)
}.

(** *** Instance 1: the real numbers *)

(** The nearest integer, ties to the even one. *)
Definition rint (x : R) : Z :=
  let f := Int_part x in
  if Rlt_dec (frac_part x) (1 / 2) then f
  else if Rlt_dec (1 / 2) (frac_part x) then (f + 1)%Z
  else if Z.even f then f else (f + 1)%Z.

#[export] Instance NpNum_R : NpNum R := {|
  np_of_int := IZR;
  np_add := Rplus;
  np_sub := Rminus;
  np_mul := Rmult;
  np_div := Rdiv;
  np_sqrt := R_sqrt.sqrt;
  np_rint := fun x => IZR (rint x);
  np_gt0 := fun x => if Rlt_dec 0 x then true else false
|}.

(** *** Instance 2: binary64 *)

(** [rint] of a binary64 number in the default rounding mode: a number
    with a non-negative exponent, a zero, an infinity or a NaN is
    returned as it is; otherwise the exact value is rounded to the nearest
    integer, ties to even, which is below 2^53 in magnitude and so a
    binary64 number; a zero result keeps the sign of the argument. *)
Definition float_rint (x : float) : float :=
  match Prim2SF x with
  | S754_finite s _ e =>
      if (0 <=? e)%Z then x
      else
        match float_exact x with
        | Some q =>
            let n := round_half_even q in
            if (n =? 0)%Z then (if s then PrimFloat.opp 0%float else 0%float)
            else float_of_Z n
        | None => x
        end
  | _ => x
  end.

#[export] Instance NpNum_float : NpNum float := {|
  np_of_int := float_of_Z;
  np_add := PrimFloat.add;
  np_sub := PrimFloat.sub;
  np_mul := PrimFloat.mul;
  np_div := PrimFloat.div;
  np_sqrt := PrimFloat.sqrt;
  np_rint := float_rint;
  np_gt0 := fun x => PrimFloat.ltb 0%float x
|}.

Module Analyzer.

(** [list(class_dist.values())]: the counts in the insertion order of the
    dictionary, which [class_dist] lists with its keys. *)
Definition counts_of (class_dist : list (string * Z)) : list Z :=
  map snd class_dist.

Section Generic.
Context {F : Type} `{NpNum F}.

(** **** [np.add.reduce] on float64

    NumPy adds the items of a contiguous float64 array by pairwise
    summation: fewer than 8 items in a plain loop; up to 128 items with
    eight accumulators over the blocks of eight, combined as a tree, and
    a plain loop over the rest; more items by halves, the first a
    multiple of eight.  The order matters in binary64 only. *)

Definition add_loop (res : F) (l : list F) : F := foldl np_add res l.

(** The eight accumulators [r[0]], ..., [r[7]]. *)
Definition lanes : Type := (F * F * F * F * F * F * F * F)%type.

(** [r[j] += a[i + j]] over the blocks of eight that remain: the
    accumulators and the items left over. *)
Fixpoint accumulate (r : lanes) (l : list F) {struct l} : lanes * list F :=
  match l with
  | a0 :: a1 :: a2 :: a3 :: a4 :: a5 :: a6 :: a7 :: l' =>
      let '(r0, r1, r2, r3, r4, r5, r6, r7) := r in
      accumulate (np_add r0 a0, np_add r1 a1, np_add r2 a2, np_add r3 a3,
                  np_add r4 a4, np_add r5 a5, np_add r6 a6, np_add r7 a7) l'
  | _ => (r, l)
  end.

Definition block_sum (l : list F) : F :=
  match l with
  | a0 :: a1 :: a2 :: a3 :: a4 :: a5 :: a6 :: a7 :: l' =>
      let '((r0, r1, r2, r3, r4, r5, r6, r7), rest) :=
        accumulate (a0, a1, a2, a3, a4, a5, a6, a7) l' in
      add_loop
        (np_add (np_add (np_add r0 r1) (np_add r2 r3))
                (np_add (np_add r4 r5) (np_add r6 r7)))
        rest
  | _ => add_loop (np_of_int 0) l      (* fewer than 8 items *)
  end.

(** [depth] bounds the halvings; the length of the list is enough. *)
Fixpoint pairwise_sum (depth : nat) (l : list F) : F :=
  let n := length l in
  if (n <? 8)%nat then add_loop (np_of_int 0) l
  else if (n <=? 128)%nat then block_sum l
  else
    match depth with
    | O => block_sum l
    | S depth' =>
        let n2 := (n / 2 - (n / 2) mod 8)%nat in
        np_add (pairwise_sum depth' (take n2 l))
               (pairwise_sum depth' (drop n2 l))
    end.

(** The reduction starts from the identity 0 and adds the sum of every
    piece the items arrive in. *)
Definition add_reduce (pieces : list (list F)) : F :=
  foldl (fun res piece => np_add res (pairwise_sum (length piece) piece))
        (np_of_int 0) pieces.

(** The pieces of at most [size] items of a list. *)
Fixpoint pieces_of (fuel size : nat) (l : list F) : list (list F) :=
  match fuel, l with
  | S fuel', _ :: _ => take size l :: pieces_of fuel' size (drop size l)
  | _, _ => []
  end.

(** The default buffer of NumPy's iterators: 8192 items. *)
Definition buffer_size : nat := 8 * 1024.

(** The sum of an int64 array with [dtype=float64]: the items are cast
    through the buffer, piece by piece. *)
Definition sum_as_float (counts : list Z) : F :=
  let items := map np_of_int counts in
  add_reduce (pieces_of (length items) buffer_size items).

(** [np.mean(counts)] *)
Definition np_mean (counts : list Z) : F :=
  np_div (sum_as_float counts) (np_of_int (Z.of_nat (length counts))).

(** [np.std(counts)]: the square root of the mean of the squared
    deviations from the mean; the float64 array of the squares is summed
    in one piece. *)
Definition np_std (counts : list Z) : F :=
  let arrmean := np_mean counts in
  let x := map (fun c => np_sub (np_of_int c) arrmean) counts in
  let x := map (fun d => np_mul d d) x in
  np_sqrt (np_div (add_reduce [x]) (np_of_int (Z.of_nat (length counts)))).

(** A float that may be [float('inf')]. *)
Inductive cv_value : Type :=
| Finite (c : F)
| Infinity.

Definition coefficient_of_variation (counts : list Z) : cv_value :=
  let mean_count := np_mean counts in
  let std_count := np_std counts in
  if np_gt0 mean_count then Finite (np_div std_count mean_count)
  else Infinity.

(** [1 / (1 + cv)], which is [0.0] for an infinite [cv]. *)
Definition inv_one_plus (cv : cv_value) : F :=
  match cv with
  | Finite c => np_div (np_of_int 1) (np_add (np_of_int 1) c)
  | Infinity => np_of_int 0
  end.

(** [round(x, 3)] on a NumPy float: scale by [10**3], [rint], scale
    back. *)
Definition round3 (x : F) : F :=
  np_div (np_rint (np_mul x (np_of_int 1000))) (np_of_int 1000).

Definition _calculate_class_balance_score (class_dist : list (string * Z))
  : F :=
  match class_dist with
  | [] => np_of_int 0
  | _ :: _ =>
      let counts := counts_of class_dist in
      let cv := coefficient_of_variation counts in
      let balance_score := inv_one_plus cv in
      round3 balance_score
  end.

End Generic.

End Analyzer.

(** * Properties *)

Import Coco Geometry.

(** ** Facts about the exact instance *)

Section ExactArithmetic.
Local Open Scope Q_scope.

Lemma Qltb_lt (a b : Q) : Qltb a b = true <-> a < b.
Proof. unfold Qltb, Qlt. apply Z.ltb_lt. Qed.

Lemma Qltb_ge (a b : Q) : Qltb a b = false <-> b <= a.
Proof. unfold Qltb, Qle. apply Z.ltb_ge. Qed.

Lemma py_min_Q (a b : Q) : py_min a b == Qmin a b.
Proof.
  unfold py_min; simpl.
  destruct (Qltb b a) eqn:E.
  - apply Qltb_lt in E. symmetry. apply Q.min_r. apply Qlt_le_weak, E.
  - apply Qltb_ge in E. symmetry. apply Q.min_l, E.
Qed.

Lemma Qtrunc_floor (q : Q) : 0 <= q -> Qtrunc q = Qfloor q.
Proof.
  destruct q as [n d]. unfold Qle, Qtrunc, Qfloor. simpl. intros Hn.
  apply Z.quot_div_nonneg; lia.
Qed.

Lemma Qfloor_bounds (q : Q) :
  inject_Z (Qfloor q) <= q /\ q < inject_Z (Qfloor q) + 1.
Proof.
  split; [apply Qfloor_le|].
  pose proof (Qlt_floor q) as Hlt.
  rewrite inject_Z_plus in Hlt. exact Hlt.
Qed.

End ExactArithmetic.


(** ** Geometry over exact arithmetic *)

Section GeometryExact.
Local Open Scope Q_scope.

Variables width height target : Z.
Hypothesis width_pos : (0 < width)%Z.
Hypothesis height_pos : (0 < height)%Z.
Hypothesis target_pos : (0 < target)%Z.

(** The scale the function computes. *)
Definition the_scale : Q :=
  py_min (fdiv (of_int target) (of_int width))
         (fdiv (of_int target) (of_int height)).

Lemma inject_Z_pos (z : Z) : (0 < z)%Z -> 0 < inject_Z z.
Proof. intros Hz. change 0 with (inject_Z 0). rewrite <- Zlt_Qlt. exact Hz. Qed.

Lemma the_scale_min :
  the_scale == Qmin (inject_Z target / inject_Z width)
                    (inject_Z target / inject_Z height).
Proof. unfold the_scale. apply py_min_Q. Qed.

Lemma the_scale_pos : 0 < the_scale.
Proof.
  rewrite the_scale_min.
  pose proof (inject_Z_pos _ width_pos) as Hw.
  pose proof (inject_Z_pos _ height_pos) as Hh.
  pose proof (inject_Z_pos _ target_pos) as Ht.
  apply Q.min_glb_lt; apply Qlt_shift_div_l; lra.
Qed.

Lemma scaled_width_le : inject_Z width * the_scale <= inject_Z target.
Proof.
  pose proof (inject_Z_pos _ width_pos) as Hw.
  rewrite the_scale_min.
  apply Qle_trans with (inject_Z width * (inject_Z target / inject_Z width)).
  - apply Qmult_le_l; [exact Hw | apply Q.le_min_l].
  - rewrite Qmult_div_r; [apply Qle_refl | lra].
Qed.

Lemma scaled_height_le : inject_Z height * the_scale <= inject_Z target.
Proof.
  pose proof (inject_Z_pos _ height_pos) as Hh.
  rewrite the_scale_min.
  apply Qle_trans with (inject_Z height * (inject_Z target / inject_Z height)).
  - apply Qmult_le_l; [exact Hh | apply Q.le_min_r].
  - rewrite Qmult_div_r; [apply Qle_refl | lra].
Qed.

Lemma scaled_nonneg (side : Z) : (0 < side)%Z -> 0 <= inject_Z side * the_scale.
Proof.
  intros Hs. apply Qmult_le_0_compat.
  - apply Qlt_le_weak, inject_Z_pos, Hs.
  - apply Qlt_le_weak, the_scale_pos.
Qed.

(** What the function returns on positive arguments. *)
Definition the_params : ResizeParams Q :=
  let nw := Qtrunc (inject_Z width * the_scale) in
  let nh := Qtrunc (inject_Z height * the_scale) in
  {| scale := the_scale;
     new_size := (nw, nh);
     padding := ((target - nw) / 2, (target - nh) / 2)%Z;
     target_size := target |}.

Lemma calculate_resize_params_exact :
  calculate_resize_params width height target = Ok the_params.
Proof.
  unfold calculate_resize_params, true_div.
  destruct (Z.eqb_spec width 0) as [E|_]; [lia|].
  destruct (Z.eqb_spec height 0) as [E|_]; [lia|].
  reflexivity.
Qed.

(** A side of the image, scaled and floored, fits the canvas. *)
Lemma floor_side_le (r : Q) :
  0 <= r -> r <= inject_Z target -> (0 <= Qfloor r <= target)%Z.
Proof.
  intros H0 Hr. split.
  - change 0%Z with (Qfloor 0). apply Qfloor_resp_le, H0.
  - rewrite <- (Qfloor_Z target). apply Qfloor_resp_le, Hr.
Qed.

(** The far edge of a scaled side, shifted by its centring pad, stays on
    the canvas. *)
Lemma side_plus_pad_le (r : Q) :
  0 <= r -> r <= inject_Z target ->
  r + inject_Z ((target - Qfloor r) / 2) <= inject_Z target.
Proof.
  intros H0 Hr.
  destruct (floor_side_le r H0 Hr) as [Hf0 Hft].
  destruct (Qfloor_bounds r) as [Hlo Hhi].
  destruct (Z.eq_dec (Qfloor r) target) as [E|NE].
  - rewrite E, Z.sub_diag. change (0 / 2)%Z with 0%Z.
    change (inject_Z 0) with 0. lra.
  - assert (Hd : (Qfloor r + 1 + (target - Qfloor r) / 2 <= target)%Z).
    { pose proof (Z.div_mod (target - Qfloor r) 2 ltac:(lia)).
      pose proof (Z.mod_pos_bound (target - Qfloor r) 2 ltac:(lia)). lia. }
    rewrite Zle_Qle in Hd. rewrite !inject_Z_plus in Hd.
    change (inject_Z 1) with 1 in Hd. lra.
Qed.

Lemma pad_nonneg (r : Q) :
  0 <= r -> r <= inject_Z target -> (0 <= (target - Qfloor r) / 2)%Z.
Proof.
  intros H0 Hr. destruct (floor_side_le r H0 Hr).
  apply Z.div_pos; lia.
Qed.

End GeometryExact.

(** ** The resize contract and box containment *)

Section GeometryClaims.
Local Open Scope Q_scope.








(** One call evaluated in both arithmetics: a 976 x 1280 photograph on
    the default 1280 canvas. *)
Example resize_976_1280_exact :
  exists p : ResizeParams Q,
    calculate_resize_params 976 1280 1280 = Ok p /\
    scale p == 1 /\ new_size p = (976, 1280)%Z /\ padding p = (152, 0)%Z.
Proof. eexists. split; [reflexivity|]. now vm_compute. Qed.

Example resize_976_1280_binary64 :
  calculate_resize_params (F:=float) 976 1280 1280
  = Ok {| scale := 1%float; new_size := (976, 1280)%Z;
          padding := (152, 0)%Z; target_size := 1280%Z |}.
Proof. vm_compute. reflexivity. Qed.

(** Where the two arithmetics part: on a square 308 x 308 image the
    product [width * scale] is exactly 1280, but in binary64 it rounds to
    1279.9999999999998 and [int] cuts it to 1279. *)
Example resize_308_308_exact :
  exists p : ResizeParams Q,
    calculate_resize_params 308 308 1280 = Ok p /\
    new_size p = (1280, 1280)%Z /\ padding p = (0, 0)%Z.
Proof. eexists. split; [reflexivity|]. now vm_compute. Qed.

Example resize_308_308_binary64 :
  exists p : ResizeParams float,
    calculate_resize_params 308 308 1280 = Ok p /\
    new_size p = (1279, 1279)%Z /\ padding p = (0, 0)%Z.
Proof. eexists. split; [vm_compute; reflexivity|]. now vm_compute. Qed.

(** Zero sides raise, as the true division does. *)
Example resize_zero_width :
  calculate_resize_params (F:=Q) 0 10 1280 = Raise ZeroDivisionError.
Proof. reflexivity. Qed.

(** C1 (as amended): in exact arithmetic a box inside the original image is
    remapped to a box inside the square canvas. *)
Theorem remapped_box_inside_canvas
    (width height target : Z) (b : bbox Q) :
  (0 < width)%Z -> (0 < height)%Z -> (0 < target)%Z ->
  0 <= bx b -> 0 <= by_ b ->
  bx b + bw b <= inject_Z width -> by_ b + bh b <= inject_Z height ->
  exists p : ResizeParams Q,
    calculate_resize_params width height target = Ok p /\
    let b' := update_bbox p b in
    0 <= bx b' /\ 0 <= by_ b' /\
    bx b' + bw b' <= inject_Z target /\
    by_ b' + bh b' <= inject_Z target.
Proof.
  intros Hw Hh Ht Hx Hy Hxw Hyh.
  exists (the_params width height target).
  split; [apply calculate_resize_params_exact; assumption|].
  cbn [the_params update_bbox padding scale bx by_ bw bh fadd fmul of_int PyNum_Q].
  set (s := the_scale width height target).
  pose proof (the_scale_pos width height target Hw Hh Ht) as Hs. fold s in Hs.
  pose proof (scaled_nonneg width height target Hw Hh Ht width Hw) as Hw0.
  pose proof (scaled_nonneg width height target Hw Hh Ht height Hh) as Hh0.
  pose proof (scaled_width_le width height target Hw) as Hw1.
  pose proof (scaled_height_le width height target Hh) as Hh1.
  fold s in Hw0, Hh0, Hw1, Hh1.
  rewrite !Qtrunc_floor by assumption.
  pose proof (pad_nonneg target _ Hw0 Hw1) as Hpl.
  pose proof (pad_nonneg target _ Hh0 Hh1) as Hpt.
  pose proof (side_plus_pad_le target _ Hw0 Hw1) as Hel.
  pose proof (side_plus_pad_le target _ Hh0 Hh1) as Het.
  rewrite Zle_Qle in Hpl, Hpt.
  set (pl := inject_Z ((target - Qfloor (inject_Z width * s)) / 2)) in *.
  set (pt := inject_Z ((target - Qfloor (inject_Z height * s)) / 2)) in *.
  change (inject_Z 0) with 0 in Hpl, Hpt.
  assert (Hxs : 0 <= bx b * s) by (apply Qmult_le_0_compat; lra).
  assert (Hys : 0 <= by_ b * s) by (apply Qmult_le_0_compat; lra).
  assert (Hxws : (bx b + bw b) * s <= inject_Z width * s)
    by (apply Qmult_le_compat_r; lra).
  assert (Hyhs : (by_ b + bh b) * s <= inject_Z height * s)
    by (apply Qmult_le_compat_r; lra).
  repeat split; lra.
Qed.

Lemma remapped_box_inside_canvas_witness :
  exists p : ResizeParams Q,
    calculate_resize_params 225 191 1280 = Ok p /\
    let b' := update_bbox p {| bx := 6; by_ := 166; bw := 219; bh := 25 |} in
    0 <= bx b' /\ 0 <= by_ b' /\
    bx b' + bw b' <= inject_Z 1280 /\
    by_ b' + bh b' <= inject_Z 1280.
Proof.
  apply (remapped_box_inside_canvas 225 191 1280
           {| bx := 6; by_ := 166; bw := 219; bh := 25 |});
    first [lia | vm_compute; discriminate].
Defined.

End GeometryClaims.

(** [update_annotation_coords] returns [True] on a file that loads
    exactly when every box present has four numbers; the record written
    back then keeps its entries in order, every such box remapped,
    every entry without box as it was, every image entry with the canvas
    as its size. *)
Definition updated_entry {F K : Type} `{PyNum F} (p : ResizeParams F)
    (ann ann' : annotation_entry F K) : Prop :=
  annotation_keys ann' = annotation_keys ann /\
  match entry_bbox ann with
  | None => entry_bbox ann' = None
  | Some numbers =>
      exists x y w h,
        numbers = [x; y; w; h] /\
        let b := update_bbox p {| bx := x; by_ := y; bw := w; bh := h |} in
        entry_bbox ann' = Some [bx b; by_ b; bw b; bh b]
  end.

Lemma update_entry_spec {F K : Type} `{PyNum F} (p : ResizeParams F)
    (ann : annotation_entry F K) :
  match update_entry p ann with
  | Some ann' => updated_entry p ann ann'
  | None => exists numbers,
      entry_bbox ann = Some numbers /\ length numbers <> 4%nat
  end.
Proof.
  unfold update_entry, updated_entry.
  destruct (entry_bbox ann) as [numbers|] eqn:Hb; [|now split].
  destruct numbers as [|x [|y [|w [|h [|extra more]]]]];
    try (eexists; split; [reflexivity | simpl; lia]).
  simpl. split; [reflexivity|]. exists x, y, w, h. now split.
Qed.

Lemma update_entries_spec {F K : Type} `{PyNum F} (p : ResizeParams F)
    (entries : list (annotation_entry F K)) :
  match mapM (update_entry p) entries with
  | Some updated => Forall2 (updated_entry p) entries updated
  | None =>
      exists ann numbers,
        ann ∈ entries /\ entry_bbox ann = Some numbers /\
        length numbers <> 4%nat
  end.
Proof.
  induction entries as [|ann entries IH]; [simpl; constructor|].
  cbn [mapM]. pose proof (update_entry_spec p ann) as Hann.
  destruct (update_entry p ann) as [ann'|]; simpl.
  - destruct (mapM (update_entry p) entries) as [updated|]; simpl.
    + now constructor.
    + destruct IH as (other & numbers & Hin & Hbox & Hlen).
      exists other, numbers. split; [now apply list_elem_of_further|].
      split; assumption.
  - destruct Hann as (numbers & Hbox & Hlen).
    exists ann, numbers. split; [apply list_elem_of_here|].
    split; assumption.
Qed.

Lemma update_annotation_coords_images {F K : Type} `{PyNum F}
    (data written : document F K) (p : ResizeParams F) :
  update_annotation_coords (Some data) p = Some written ->
  doc_keys written = doc_keys data /\
  match doc_images data, doc_images written with
  | None, None => True
  | Some imgs, Some imgs' =>
      Forall2 (fun img img' =>
                 image_keys img' = image_keys img /\
                 entry_width img' = Some (target_size p) /\
                 entry_height img' = Some (target_size p)) imgs imgs'
  | _, _ => False
  end.
Proof.
  unfold update_annotation_coords. simpl.
  destruct (match doc_annotations data with
            | Some entries => Some <$> mapM (update_entry p) entries
            | None => Some None
            end) as [updated|]; simpl; [|discriminate].
  intros [= <-]. simpl. split; [reflexivity|].
  destruct (doc_images data) as [imgs|]; simpl; [|exact I].
  induction imgs as [|img imgs IH]; simpl; constructor; [|exact IH].
  simpl. repeat split.
Qed.

(** An entry without box is kept, a box of three numbers makes the
    function return [False]. *)
Example update_annotation_coords_guards :
  let p := {| scale := 2%Q; new_size := (1280, 1280)%Z;
              padding := (0, 10)%Z; target_size := 1280%Z |} in
  let doc (numbers : list Q) : document Q unit :=
    {| doc_annotations :=
         Some [ {| entry_bbox := None; annotation_keys := tt |};
                {| entry_bbox := Some numbers; annotation_keys := tt |} ];
       doc_images := None; doc_keys := tt |} in
  update_annotation_coords (Some (doc [1; 2; 3; 4]%Q)) p
  = Some {| doc_annotations :=
              Some [ {| entry_bbox := None; annotation_keys := tt |};
                     {| entry_bbox := Some [1 * 2 + 0; 2 * 2 + 10;
                                            3 * 2; 4 * 2]%Q;
                        annotation_keys := tt |} ];
            doc_images := None; doc_keys := tt |} /\
  update_annotation_coords (Some (doc [1; 2; 3]%Q)) p = None /\
  update_annotation_coords (K:=unit) (F:=Q) None p = None.
Proof. repeat split. Qed.

(** In binary64 the claim of C1 fails: for a 225 x 191 image and the box
    [6, 166, 219, 25], whose right edge is the image's right edge, the
    remapped right edge is 1280.0000000000002, beyond the 1280 canvas. *)
Lemma remapped_box_escapes_canvas_binary64 :
  exists p : ResizeParams float,
    calculate_resize_params 225 191 1280 = Ok p /\
    let b := {| bx := 6%float; by_ := 166%float;
                bw := 219%float; bh := 25%float |} in
    let b' := update_bbox p b in
    (* the box lies inside the 225 x 191 image *)
    flt (bx b) (of_int 0) = false /\ flt (by_ b) (of_int 0) = false /\
    flt (of_int 225) (fadd (bx b) (bw b)) = false /\
    flt (of_int 191) (fadd (by_ b) (bh b)) = false /\
    (* its remapped right edge is beyond the canvas *)
    flt (of_int 1280) (fadd (bx b') (bw b')) = true /\
    (* 1280.0000000000002, one unit in the last place above 1280 *)
    fadd (bx b') (bw b') = 0x1.4000000000001p+10%float.
Proof.
  eexists. split; [vm_compute; reflexivity|].
  vm_compute. repeat split.
Qed.

(** ** Class keys of the sampler and of the splitter *)

Section ClassKeys.
Import PyStr.

Lemma split_nonempty (sep : ascii) (s : string) : split sep s <> [].
Proof.
  destruct s as [|c rest]; simpl; [discriminate|].
  destruct (Ascii.eqb c sep); [discriminate|].
  destruct (split sep rest); discriminate.
Qed.

(** Without the separator the string is its only part. *)
Lemma split_absent (sep : ascii) (s : string) :
  contains sep s = false -> split sep s = [s].
Proof.
  induction s as [|c rest IH]; simpl; [reflexivity|].
  intros Hc. apply orb_false_iff in Hc as [Hc Hrest].
  rewrite Hc, (IH Hrest). reflexivity.
Qed.

(** With the separator there are at least two parts. *)
Lemma split_present (sep : ascii) (s : string) :
  contains sep s = true ->
  exists first second rest, split sep s = first :: second :: rest.
Proof.
  induction s as [|c rest IH]; simpl; [discriminate|].
  destruct (Ascii.eqb c sep) eqn:Hc; simpl.
  - intros _. destruct (split sep rest) as [|p ps] eqn:Hs.
    + exfalso. exact (split_nonempty _ _ Hs).
    + eauto.
  - intros Hrest. destruct (IH Hrest) as (a & b & l & ->). eauto.
Qed.





(** C9 (as amended): on an identifier with a dash both extractions return
    the segment between its first and second dash; on an identifier
    without a dash the sampler's key is "unknown" while the splitter's is
    the prefix before the first underscore. *)
Theorem class_key_agreement (ident : string) :
  if contains "-" ident
  then (exists first key rest,
          split "-" ident = first :: key :: rest /\
          Splitter._extract_pill_code ident = key /\
          Sampler.class_key ident = key)
  else (Sampler.class_key ident = "unknown"%string /\
        Splitter._extract_pill_code ident = hd ident (split "_" ident)).
Proof.
  destruct (contains "-" ident) eqn:Hc.
  - destruct (split_present _ _ Hc) as (a & b & l & Hs).
    exists a, b, l. split; [exact Hs|].
    unfold Splitter._extract_pill_code, Sampler.class_key, index.
    rewrite Hs. simpl. split; reflexivity.
  - unfold Splitter._extract_pill_code, Sampler.class_key, index.
    rewrite (split_absent _ _ Hc). simpl. split; [reflexivity|].
    destruct (split "_" ident) as [|p ps] eqn:Hs; [|reflexivity].
    exfalso. exact (split_nonempty _ _ Hs).
Qed.

(** The two extractions disagree on an identifier without a dash, and the
    splitter's key is not the sentinel. *)
Lemma class_keys_differ :
  Sampler.class_key "img_001" = "unknown"%string /\
  Splitter._extract_pill_code "img_001" = "img"%string /\
  Splitter._extract_pill_code "img_001" <> Sampler.class_key "img_001".
Proof. repeat split. discriminate. Qed.

(** On the corpus' naming scheme both give the product code. *)
Example class_key_corpus_name :
  Sampler.class_key "K-003544-010221-016551-027926_0_2_0_2_70_000_200"
    = "003544"%string /\
  Splitter._extract_pill_code
    "K-003544-010221-016551-027926_0_2_0_2_70_000_200" = "003544"%string.
Proof. split; reflexivity. Qed.

End ClassKeys.

(** ** Properties of the COCO to YOLO conversion *)

Section ConverterProps.
Import Coco Converter.
Context {F : Type} `{PyNum F}.

Implicit Types (data : coco F) (img : image_info) (files : list (coco F)).
Implicit Types (code_to_id : gmap string nat).


Definition has_annotations data img : bool :=
  match image_annotations data img with
  | [] => false
  | _ :: _ => true
  end.

(** The images that have at least one matching annotation, in the order
    the conversion visits them. *)
Definition annotated data (imgs : list image_info) : list image_info :=
  filter (fun img => has_annotations data img = true) imgs.

Definition annotated_images files : list image_info :=
  flat_map (fun data => annotated data (images data)) files.

Definition label_names (imgs : list image_info) : list string :=
  map (fun img => label_name (file_name img)) imgs.


Definition sides_nonzero (imgs : list image_info) : Prop :=
  Forall (fun img => width img <> 0 /\ height img <> 0) imgs.

Lemma annotated_cons_skip data img (rest : list image_info) :
  image_annotations data img = [] ->
  annotated data (img :: rest) = annotated data rest.
Proof.
  intros Hanns. unfold annotated. apply filter_cons_False.
  unfold has_annotations. rewrite Hanns. discriminate.
Qed.

Lemma annotated_cons_keep data img (rest : list image_info) ann anns :
  image_annotations data img = ann :: anns ->
  annotated data (img :: rest) = img :: annotated data rest.
Proof.
  intros Hanns. unfold annotated. apply filter_cons_True.
  unfold has_annotations. now rewrite Hanns.
Qed.

Lemma yolo_line_ok (class_id : nat) (w h : Z) (b : bbox F) :
  w <> 0 -> h <> 0 -> exists line, yolo_line class_id w h b = Ok line.
Proof.
  intros Hw Hh. unfold yolo_line.
  destruct (Z.eqb_spec w 0); [contradiction|].
  destruct (Z.eqb_spec h 0); [contradiction|]. eauto.
Qed.




Lemma write_lines_complete (class_id : nat) (w h : Z)
    (anns : list (annotation F)) :
  w <> 0 -> h <> 0 ->
  (write_lines class_id w h anns).2 = None /\
  length (write_lines class_id w h anns).1 = length anns.
Proof.
  intros Hw Hh. induction anns as [|ann rest [IHe IHl]]; simpl; [done|].
  destruct (yolo_line_ok class_id w h (ann_bbox ann) Hw Hh) as [line ->].
  destruct (write_lines class_id w h rest) as [lines e]. simpl in *.
  split; [assumption | congruence].
Qed.


(** The names written by the image loop are the label names of the
    annotated images, up to the image on which an exception stopped the
    loop; without an exception all of them are written and counted. *)
Lemma convert_images_names code_to_id data (imgs : list image_info) :
  (convert_images code_to_id data imgs).1.1.*1
    `prefix_of` label_names (annotated data imgs) /\
  ((convert_images code_to_id data imgs).2 = None ->
   (convert_images code_to_id data imgs).1.1.*1
     = label_names (annotated data imgs) /\
   (convert_images code_to_id data imgs).1.2
     = length (annotated data imgs)).
Proof.
  induction imgs as [|img rest [IHp IHe]]; simpl; [done|].
  destruct (image_annotations data img) as [|ann anns] eqn:Hanns.
  - rewrite (annotated_cons_skip _ _ _ Hanns). done.
  - rewrite (annotated_cons_keep _ _ _ _ _ Hanns).
    destruct (write_lines _ _ _ (ann :: anns)) as [lines e].
    destruct e as [err|]; simpl.
    + split; [apply prefix_cons, prefix_nil | discriminate].
    + destruct (convert_images code_to_id data rest) as [[files count] e'].
      simpl in *. split; [apply prefix_cons, IHp|].
      intros He. destruct (IHe He) as [E1 E2].
      split; [f_equal; exact E1 | f_equal; exact E2].
Qed.

Lemma convert_images_complete code_to_id data (imgs : list image_info) :
  sides_nonzero imgs -> (convert_images code_to_id data imgs).2 = None.
Proof.
  induction 1 as [|img rest [Hw Hh] _ IH]; simpl; [done|].
  destruct (image_annotations data img) as [|ann anns] eqn:Hanns; [done|].
  destruct (write_lines_complete
              (default O (code_to_id !! extract_pill_code (file_name img)))
              (width img) (height img) (ann :: anns) Hw Hh) as [He _].
  destruct (write_lines _ _ _ (ann :: anns)) as [lines e].
  simpl in He. subst e.
  destruct (convert_images code_to_id data rest) as [[files count] e'].
  simpl in *. assumption.
Qed.


Lemma convert_files_names code_to_id files :
  (convert_files code_to_id files).1.1.*1
    `prefix_of` label_names (annotated_images files) /\
  ((convert_files code_to_id files).2 = None ->
   (convert_files code_to_id files).1.1.*1
     = label_names (annotated_images files) /\
   (convert_files code_to_id files).1.2
     = length (annotated_images files)).
Proof.
  induction files as [|data rest [IHp IHe]]; simpl; [done|].
  destruct (convert_images_names code_to_id data (images data)) as [Hp He].
  unfold annotated_images. simpl. unfold label_names.
  rewrite map_app, length_app.
  fold (label_names (annotated data (images data))).
  fold (annotated_images rest). fold (label_names (annotated_images rest)).
  destruct (convert_images code_to_id data (images data))
    as [[written count] e] eqn:Hc.
  destruct e as [err|]; simpl in *.
  - split; [now apply prefix_app_r | discriminate].
  - destruct (He eq_refl) as [Hn Hcount].
    destruct (convert_files code_to_id rest) as [[written' count'] e'].
    simpl in *. rewrite fmap_app, Hn.
    split; [apply prefix_app, IHp|].
    intros He'. destruct (IHe He') as [-> ->]. rewrite Hcount. done.
Qed.

Lemma convert_files_complete code_to_id files :
  Forall (fun data => sides_nonzero (images data)) files ->
  (convert_files code_to_id files).2 = None.
Proof.
  induction 1 as [|data rest Hd _ IH]; simpl; [done|].
  pose proof (convert_images_complete code_to_id data (images data) Hd) as He.
  destruct (convert_images code_to_id data (images data))
    as [[written count] e].
  simpl in He. subst e.
  destruct (convert_files code_to_id rest) as [[written' count'] e'].
  simpl in *. assumption.
Qed.


(** A name no write uses keeps its state. *)
Lemma files_after_untouched (dir : gmap string (list string))
    (written : list written_file) (path : string) :
  path ∉ written.*1 -> files_after dir written !! path = dir !! path.
Proof.
  unfold files_after. revert dir.
  induction written as [|[p c] rest IH]; simpl; intros dir Hn; [done|].
  apply not_elem_of_cons in Hn as [Hne Hrest].
  rewrite (IH _ Hrest). now apply lookup_insert_ne.
Qed.

(** What [convert_coco_to_yolo] writes and returns, in terms of its file
    loop. *)
Lemma convert_written (json_files : list (option (coco F))) :
  let files := valid_files json_files in
  (json_files = [] /\ (convert_coco_to_yolo json_files).1 = []) \/
  (json_files <> [] /\
   (convert_coco_to_yolo json_files).1
   = ("classes.txt"%string, sorted (all_pill_codes files))
       :: (convert_files (class_mapping files) files).1.1).
Proof.
  unfold convert_coco_to_yolo, class_mapping.
  destruct json_files as [|file rest]; [left; done|right].
  split; [discriminate|].
  destruct (convert_files _ (valid_files (file :: rest)))
    as [[written count] e].
  reflexivity.
Qed.

Lemma convert_outcome (json_files : list (option (coco F))) :
  let files := valid_files json_files in
  json_files <> [] ->
  (convert_files (class_mapping files) files).2 = None ->
  (convert_coco_to_yolo json_files).2
  = Ok (Some {| converted_count :=
                  (convert_files (class_mapping files) files).1.2;
                total_classes := length (sorted (all_pill_codes files));
                code_to_id_of := class_mapping files |}).
Proof.
  unfold convert_coco_to_yolo, class_mapping.
  destruct json_files as [|file rest]; [done|]. intros _.
  destruct (convert_files _ (valid_files (file :: rest)))
    as [[written count] e].
  simpl. intros ->. reflexivity.
Qed.

Lemma valid_files_elem (json_files : list (option (coco F))) data :
  data ∈ valid_files json_files <-> Some data ∈ json_files.
Proof.
  unfold valid_files. rewrite list_elem_of_omap. split.
  - intros ([d|] & Hin & Heq); simpl in Heq; [|discriminate].
    now injection Heq as ->.
  - intros Hin. exists (Some data). now split.
Qed.

End ConverterProps.

Section ConverterClaims.
Import Coco Converter.


(** C3 (as amended): an image without matching annotations gets no label
    file.  The conversion writes [classes.txt] and label files only for
    the images that have annotations (all of them, counted, when no
    recorded side is zero, and then it returns without error); the label
    name of an image without annotations is left as it was in the output
    directory unless an annotated image shares it. *)
Theorem unannotated_image_writes_no_label {F : Type} `{PyNum F}
    (json_files : list (option (coco F))) (data : coco F) (img : image_info)
    (dir : gmap string (list string)) :
  Some data ∈ json_files -> img ∈ images data ->
  image_annotations data img = [] ->
  let files := valid_files json_files in
  let out := convert_coco_to_yolo json_files in
  let labels := label_names (annotated_images files) in
  out.1.*1 `prefix_of` "classes.txt"%string :: labels /\
  (Forall (fun d => sides_nonzero (images d)) files ->
   out.1.*1 = "classes.txt"%string :: labels /\
   exists s, out.2 = Ok (Some s) /\
             converted_count s = length (annotated_images files)) /\
  (label_name (file_name img) ∉ "classes.txt"%string :: labels ->
   files_after dir out.1 !! label_name (file_name img)
     = dir !! label_name (file_name img)).
Proof.
  intros Hd Hi Hanns files out labels.
  assert (Hp : out.1.*1 `prefix_of` "classes.txt"%string :: labels).
  { subst out labels.
    destruct (convert_written json_files) as [[Hf Hw]|[Hf Hw]]; rewrite Hw;
      [apply prefix_nil|].
    rewrite fmap_cons. apply prefix_cons. simpl.
    apply (convert_files_names (class_mapping files) files). }
  split; [exact Hp|]. split.
  - intros Hsides. subst out labels.
    destruct (convert_written json_files) as [[Hf Hw]|[Hf Hw]];
      [rewrite Hf in Hd; now apply elem_of_nil in Hd|].
    pose proof (convert_files_complete (class_mapping files) files Hsides)
      as He.
    destruct (convert_files_names (class_mapping files) files) as [_ Hn].
    destruct (Hn He) as [Hnames Hcount].
    rewrite Hw, (convert_outcome json_files Hf He).
    split; [rewrite fmap_cons; f_equal; exact Hnames|].
    eexists. split; [reflexivity|]. exact Hcount.
  - intros Hfresh. apply files_after_untouched.
    intros Hin. apply Hfresh.
    destruct Hp as [k Hk]. rewrite Hk. apply elem_of_app. now left.
Qed.

End ConverterClaims.

Section ConverterExamples.
Import Coco Converter.
Local Open Scope string_scope.

(** A file with two 1000 x 1000 images: the first has the box
    [100, 200, 50, 80], the second has no annotation. *)
Definition example_file (F : Type) `{PyNum F} : coco F :=
  {| images := [ mkImage 1 "K-001900_0_2.png" 1000 1000;
                 mkImage 2 "K-003544_0_2.png" 1000 1000 ];
     annotations :=
       [ {| image_id := 1;
            ann_bbox := {| bx := of_int 100; by_ := of_int 200;
                           bw := of_int 50; bh := of_int 80 |} |} ] |}.

(** The claim of C3 fails: the image without annotations has no label
    file after the conversion, neither an empty one nor any other. *)
Lemma unannotated_image_label_absent :
  let out := convert_coco_to_yolo [Some (example_file Q)] in
  out.1 = [ ("classes.txt", ["K-001900"; "K-003544"]);
            ("K-001900_0_2.txt", ["0 0.125000 0.240000 0.050000 0.080000"]) ]
  /\ is_ok out.2 = true
  /\ files_after ∅ out.1 !! "K-003544_0_2.txt" = None
  /\ files_after ∅ out.1 !! "K-003544_0_2.txt" <> Some [].
Proof.
  assert (Hw : (convert_coco_to_yolo [Some (example_file Q)]).1
               = [ ("classes.txt", ["K-001900"; "K-003544"]);
                   ("K-001900_0_2.txt",
                    ["0 0.125000 0.240000 0.050000 0.080000"]) ])
    by (vm_compute; reflexivity).
  cbv zeta. rewrite Hw.
  split; [reflexivity|]. split; [vm_compute; reflexivity|].
  assert (Hl : files_after (∅ : gmap string (list string))
                 [ ("classes.txt", ["K-001900"; "K-003544"]);
                   ("K-001900_0_2.txt",
                    ["0 0.125000 0.240000 0.050000 0.080000"]) ]
               !! "K-003544_0_2.txt" = None)
    by (vm_compute; reflexivity).
  rewrite Hl. split; [reflexivity | discriminate].
Qed.

Lemma unannotated_image_writes_no_label_witness :
  let out := convert_coco_to_yolo [Some (example_file Q)] in
  out.1.*1 = ["classes.txt"; "K-001900_0_2.txt"] /\
  (exists s, out.2 = Ok (Some s) /\ converted_count s = 1%nat) /\
  files_after ∅ out.1 !! "K-003544_0_2.txt" = None.
Proof.
  destruct (unannotated_image_writes_no_label
              [Some (example_file Q)] (example_file Q)
              (mkImage 2 "K-003544_0_2.png" 1000 1000) ∅)
    as (_ & Hall & Hfresh).
  - apply list_elem_of_here.
  - apply list_elem_of_further, list_elem_of_here.
  - reflexivity.
  - destruct Hall as [Hnames Hsum].
    { repeat constructor; discriminate. }
    split; [exact Hnames|]. split; [exact Hsum|].
    apply Hfresh. apply (bool_decide_unpack _). vm_compute. exact I.
Defined.

End ConverterExamples.

(** ** The label line *)

Section LabelLine.
Import Coco Converter.
Local Open Scope string_scope.

Lemma string_length_app (s1 s2 : string) :
  String.length (s1 +:+ s2) = (String.length s1 + String.length s2)%nat.
Proof. induction s1 as [|c s1 IH]; simpl; [reflexivity | now rewrite IH]. Qed.

Lemma digits_fixed_length (k : nat) (n : Z) :
  String.length (digits_fixed k n) = k.
Proof.
  revert n. induction k as [|k IH]; intros n; simpl; [reflexivity|].
  rewrite string_length_app, IH. simpl. lia.
Qed.

Lemma round_half_even_near (q : Q) :
  (Qabs (inject_Z (round_half_even q) - q) <= 1 # 2)%Q.
Proof.
  unfold round_half_even.
  destruct (Qfloor_bounds q) as [Hlo Hhi].
  set (f := Qfloor q) in *.
  assert (Hcases : forall z : Z,
            (z = f /\ (q - inject_Z f <= 1 # 2)%Q) \/
            (z = (f + 1)%Z /\ (1 # 2 <= q - inject_Z f)%Q) ->
            (Qabs (inject_Z z - q) <= 1 # 2)%Q).
  { intros z [[-> Hle]|[-> Hge]]; apply Qabs_Qle_condition.
    - split; lra.
    - rewrite inject_Z_plus. change (inject_Z 1) with 1%Q. split; lra. }
  destruct (Qcompare_spec (q - inject_Z f) (1 # 2)) as [Heq|Hlt|Hgt].
  - destruct (Z.even f); apply Hcases; [left|right]; split; try reflexivity;
      rewrite Heq; apply Qle_refl.
  - apply Hcases. left. split; [reflexivity | lra].
  - apply Hcases. right. split; [reflexivity | lra].
Qed.

(** C8: on non-zero image sides a box [x, y, w, h] becomes the line
    "id cx cy rw rh" with cx = (x + w/2)/W, cy = (y + h/2)/H, rw = w/W,
    rh = h/H, each in fixed notation with six decimals: the integer
    nearest to the value times 10^6, printed with the point before its
    last six digits.  A 1000 x 1000 image with box [100, 200, 50, 80]
    gives "id 0.125000 0.240000 0.050000 0.080000", in exact arithmetic
    and in binary64. *)
Theorem yolo_line_contract :
  (forall (F : Type) (N : PyNum F) (class_id : nat) (img_width img_height : Z)
          (b : bbox F),
     img_width <> 0 -> img_height <> 0 ->
     yolo_line class_id img_width img_height b
     = Ok (str_of_nat class_id
           +:+ " " +:+ fmt6 (fdiv (fadd (bx b) (fdiv (bw b) (of_int 2)))
                                  (of_int img_width))
           +:+ " " +:+ fmt6 (fdiv (fadd (by_ b) (fdiv (bh b) (of_int 2)))
                                  (of_int img_height))
           +:+ " " +:+ fmt6 (fdiv (bw b) (of_int img_width))
           +:+ " " +:+ fmt6 (fdiv (bh b) (of_int img_height)))) /\
  (forall q : Q,
     exists n : Z,
       (Qabs (inject_Z n - Qabs q * inject_Z (10 ^ 6)) <= 1 # 2)%Q /\
       String.length (digits_fixed 6 (n mod 10 ^ 6)) = 6%nat /\
       fmt6 q = (if (Qnum q <? 0)%Z then "-" else EmptyString)
                +:+ str_of_Z (n / 10 ^ 6) +:+ "."
                +:+ digits_fixed 6 (n mod 10 ^ 6)) /\
  (forall class_id : nat,
     yolo_line (F:=Q) class_id 1000 1000
       {| bx := 100%Q; by_ := 200%Q; bw := 50%Q; bh := 80%Q |}
     = Ok (str_of_nat class_id +:+ " 0.125000 0.240000 0.050000 0.080000")) /\
  (forall class_id : nat,
     yolo_line (F:=float) class_id 1000 1000
       {| bx := 100%float; by_ := 200%float; bw := 50%float; bh := 80%float |}
     = Ok (str_of_nat class_id +:+ " 0.125000 0.240000 0.050000 0.080000")).
Proof.
  split; [|split; [|split]].
  - intros F N class_id w h b Hw Hh. unfold yolo_line.
    destruct (Z.eqb_spec w 0); [contradiction|].
    destruct (Z.eqb_spec h 0); [contradiction|]. reflexivity.
  - intros q. exists (round_half_even (Qabs q * inject_Z (10 ^ 6))).
    split; [apply round_half_even_near|].
    split; [apply digits_fixed_length | reflexivity].
  - intros class_id. unfold yolo_line. simpl Z.eqb. cbv iota.
    do 2 f_equal; vm_compute; reflexivity.
  - intros class_id. unfold yolo_line. simpl Z.eqb. cbv iota.
    do 2 f_equal; vm_compute; reflexivity.
Qed.

Lemma yolo_line_contract_witness :
  yolo_line (F:=Q) 7 1000 1000
    {| bx := 100%Q; by_ := 200%Q; bw := 50%Q; bh := 80%Q |}
  = Ok "7 0.125000 0.240000 0.050000 0.080000".
Proof.
  rewrite (proj1 yolo_line_contract Q PyNum_Q 7%nat 1000 1000
             {| bx := 100%Q; by_ := 200%Q; bw := 50%Q; bh := 80%Q |}
             ltac:(lia) ltac:(lia)).
  vm_compute. reflexivity.
Defined.

(** A single annotation file that does not load: only an empty
    [classes.txt] is written, and the conversion returns a summary. *)
Example convert_unreadable_file :
  let out := convert_coco_to_yolo (F:=Q) [None] in
  out.1 = [("classes.txt", [])] /\ is_ok out.2 = true.
Proof. split; reflexivity. Qed.

(** The whole conversion on the example file, in binary64. *)
Example convert_example_binary64 :
  (convert_coco_to_yolo [Some (example_file float)]).1
  = [ ("classes.txt", ["K-001900"; "K-003544"]);
      ("K-001900_0_2.txt", ["0 0.125000 0.240000 0.050000 0.080000"]) ].
Proof. vm_compute. reflexivity. Qed.

End LabelLine.

(** ** The random source: shuffles permute, samples select *)

Section RandomProps.
Import PyRandom PyList.
Context {A : Type}.
Implicit Types (x pool l : list A) (g : rng).

Lemma delete_insert_same l (i : nat) (v : A) :
  delete i (<[i := v]> l) = delete i l.
Proof.
  revert i. induction l as [|a l IH]; intros [|i]; simpl; try reflexivity.
  now rewrite IH.
Qed.

(** Overwriting position [i] trades the old element for the new one. *)
Lemma insert_Permutation l (i : nat) (old v : A) :
  l !! i = Some old -> <[i := v]> l ≡ₚ v :: delete i l.
Proof.
  intros Hi.
  rewrite (delete_Permutation (<[i := v]> l) i v).
  - now rewrite delete_insert_same.
  - apply list_lookup_insert_eq. eapply lookup_lt_Some, Hi.
Qed.

Lemma swap_Permutation x (i j : nat) : swap x i j ≡ₚ x.
Proof.
  unfold swap.
  destruct (x !! i) as [xi|] eqn:Hi; [|reflexivity].
  destruct (x !! j) as [xj|] eqn:Hj; [|reflexivity].
  destruct (decide (i = j)) as [->|Hne].
  - assert (xi = xj) as -> by congruence.
    rewrite (list_insert_id x j xj Hj). now rewrite (list_insert_id x j xj Hj).
  - assert (Hi' : <[j := xi]> x !! i = Some xi)
      by (rewrite list_lookup_insert_ne by congruence; exact Hi).
    rewrite (insert_Permutation _ i xi xj Hi').
    (* both [<[j:=xi]> x] and [x] are [delete j x] plus one element *)
    pose proof (insert_Permutation x j xj xi Hj) as H1.
    pose proof (delete_Permutation _ i xi Hi') as H2.
    rewrite H1 in H2 at 1. apply Permutation_cons_inv in H2.
    rewrite <- H2. symmetry. apply delete_Permutation, Hj.
Qed.

Lemma shuffle_from_Permutation (i : nat) x g :
  (shuffle_from i x g).1 ≡ₚ x.
Proof.
  revert x g. induction i as [|i IH]; intros x g; simpl; [reflexivity|].
  rewrite IH. apply swap_Permutation.
Qed.

Lemma shuffle_Permutation x g : (shuffle x g).1 ≡ₚ x.
Proof. apply shuffle_from_Permutation. Qed.

(** One step of the pool selection: the element taken and the shrunk
    pool together are the pool. *)
Lemma pool_step_Permutation pool (j : nat) (xj xlast : A) :
  pool !! j = Some xj ->
  pool !! Nat.pred (length pool) = Some xlast ->
  xj :: take (Nat.pred (length pool)) (<[j := xlast]> pool) ≡ₚ pool.
Proof.
  intros Hj Hlast.
  set (n := length pool) in *.
  set (l1 := <[j := xlast]> pool).
  assert (Hl1 : l1 !! Nat.pred n = Some xlast).
  { subst l1. destruct (decide (j = Nat.pred n)) as [->|Hne].
    - apply list_lookup_insert_eq. eapply lookup_lt_Some, Hlast.
    - rewrite list_lookup_insert_ne by assumption. exact Hlast. }
  assert (Hlen : length l1 = n) by (subst l1; apply length_insert).
  assert (Hsplit : l1 = take (Nat.pred n) l1 ++ [xlast]).
  { rewrite <- (take_drop_middle l1 (Nat.pred n) xlast Hl1) at 1.
    rewrite (drop_ge l1 (S (Nat.pred n))); [reflexivity|].
    apply lookup_lt_Some in Hlast. fold n in Hlast. lia. }
  pose proof (insert_Permutation pool j xj xlast Hj) as H1. fold l1 in H1.
  rewrite Hsplit in H1 at 1.
  rewrite <- Permutation_cons_append in H1.
  apply Permutation_cons_inv in H1. rewrite H1.
  symmetry. apply delete_Permutation, Hj.
Qed.

Lemma randbelow_lt (n : nat) g : (0 < n)%nat -> ((randbelow n g).1 < n)%nat.
Proof. intros Hn. simpl. apply Nat.mod_upper_bound. lia. Qed.

(** Drawing [k] items from a pool of at least [k]: exactly [k] items,
    taken from the pool without replacement. *)
Lemma sample_from_spec (k : nat) pool g :
  (k <= length pool)%nat ->
  length (sample_from k pool g).1 = k /\ (sample_from k pool g).1 ⊆+ pool.
Proof.
  revert pool g. induction k as [|k IH]; intros pool g Hk; simpl.
  - split; [reflexivity | apply submseteq_nil_l].
  - assert (Hj : ((g O mod length pool) < length pool)%nat)
      by (apply Nat.mod_upper_bound; lia).
    destruct (lookup_lt_is_Some_2 pool _ Hj) as [xj Hxj].
    destruct (lookup_lt_is_Some_2 pool (Nat.pred (length pool)) ltac:(lia))
      as [xlast Hlast].
    rewrite Hxj, Hlast.
    set (pool' := take (Nat.pred (length pool))
                       (<[(g O mod length pool)%nat := xlast]> pool)).
    assert (Hlen' : (k <= length pool')%nat).
    { subst pool'. rewrite length_take, length_insert. lia. }
    destruct (IH pool' (fun i => g (S i)) Hlen') as [IHl IHs].
    destruct (sample_from k pool' (fun i => g (S i))) as [rest g''].
    simpl in *. split; [now rewrite IHl|].
    rewrite <- (pool_step_Permutation pool _ xj xlast Hxj Hlast).
    fold pool'. now apply submseteq_skip.
Qed.

Lemma sample_spec (population : list A) (k : Z) g :
  0 <= k <= len population ->
  exists picked g',
    sample population k g = Ok (picked, g') /\
    len picked = k /\ picked ⊆+ population.
Proof.
  intros [Hk0 Hkn]. unfold sample, len in *.
  destruct (Z.ltb_spec k 0); [lia|].
  destruct (Z.ltb_spec (Z.of_nat (length population)) k); [lia|]. simpl.
  destruct (sample_from_spec (Z.to_nat k) population g ltac:(lia)) as [Hl Hs].
  destruct (sample_from (Z.to_nat k) population g) as [picked g'].
  simpl in *. exists picked, g'. split; [reflexivity|].
  split; [lia | exact Hs].
Qed.

Lemma sample_raises (population : list A) (k : Z) g :
  k < 0 \/ len population < k -> sample population k g = Raise ValueError.
Proof.
  intros Hk. unfold sample, len in *.
  destruct (Z.ltb_spec k 0); [reflexivity|].
  destruct (Z.ltb_spec (Z.of_nat (length population)) k); [reflexivity|lia].
Qed.

(** *** Grouping keeps every item once *)

Lemma group_append_Permutation (k : string) (v : A)
    (groups : list (string * list A)) :
  concat (group_append k v groups).*2 ≡ₚ v :: concat groups.*2.
Proof.
  induction groups as [|[k' vs] rest IH]; simpl; [reflexivity|].
  destruct (String.eqb k' k); simpl.
  - rewrite <- app_assoc. simpl.
    rewrite <- Permutation_middle. reflexivity.
  - rewrite IH. rewrite <- Permutation_middle. reflexivity.
Qed.

Lemma group_by_Permutation (key : A -> string) l :
  concat (group_by key l).*2 ≡ₚ l.
Proof.
  unfold group_by.
  assert (Hgen : forall acc : list (string * list A),
            concat (foldl (fun groups v => group_append (key v) v groups)
                          acc l).*2 ≡ₚ concat acc.*2 ++ l).
  { induction l as [|v l IH]; intros acc; simpl.
    - now rewrite app_nil_r.
    - rewrite IH, group_append_Permutation. simpl.
      rewrite <- Permutation_middle. reflexivity. }
  rewrite Hgen. reflexivity.
Qed.

Lemma group_append_nonempty (k : string) (v : A)
    (groups : list (string * list A)) : group_append k v groups <> [].
Proof.
  destruct groups as [|[k' vs] rest]; simpl; [discriminate|].
  destruct (String.eqb k' k); discriminate.
Qed.

Lemma group_by_nil (key : A -> string) : group_by key [] = [].
Proof. reflexivity. Qed.

Lemma group_by_nonempty (key : A -> string) l :
  l <> [] -> group_by key l <> [].
Proof.
  unfold group_by.
  assert (Hgen : forall (l' : list A) (acc : list (string * list A)),
            acc <> [] ->
            foldl (fun groups v => group_append (key v) v groups) acc l' <> []).
  { induction l' as [|v l' IH]; intros acc Hacc; simpl; [exact Hacc|].
    apply IH, group_append_nonempty. }
  destruct l as [|v l]; [congruence|]. intros _. simpl.
  apply Hgen. discriminate.
Qed.

End RandomProps.

(** ** The stratified split is a partition of the pool *)

Section SplitterProps.
Import PyRandom PyList Splitter.

Lemma clamp_nonneg {A} (l : list A) (i : Z) :
  0 <= i -> clamp l i = Z.to_nat (Z.min i (len l)).
Proof. intros Hi. unfold clamp. destruct (Z.ltb_spec i 0); [lia|reflexivity]. Qed.

(** Three slices at ordered non-negative bounds cut the list into three
    consecutive pieces. *)
Lemma slices_partition {A} (l : list A) (a b : Z) :
  0 <= a <= b -> slice_to l a ++ slice l a b ++ slice_from l b = l.
Proof.
  intros [Ha Hab]. unfold slice_to, slice, slice_from.
  rewrite !clamp_nonneg by lia.
  set (ca := Z.to_nat (Z.min a (len l))).
  set (cb := Z.to_nat (Z.min b (len l))).
  assert (Hle : (ca <= cb)%nat) by (subst ca cb; lia).
  rewrite app_assoc, take_take_drop.
  replace (ca + (cb - ca))%nat with cb by lia.
  apply take_drop.
Qed.

(** A ratio is usable when [int(n * ratio)] is a non-negative int for
    every group size [n]: no overflow, no NaN, no negative slice bound. *)
Definition usable_ratio {F : Type} `{PyNum F} (r : F) : Prop :=
  forall n : Z, 0 <= n ->
    exists z : Z, to_int (fmul (of_int n) r) = Ok z /\ 0 <= z.

(** In exact arithmetic every non-negative ratio is usable. *)
Lemma nonneg_ratio_usable (r : Q) : (0 <= r)%Q -> usable_ratio r.
Proof.
  intros Hr n Hn. exists (Qtrunc (inject_Z n * r)). split; [reflexivity|].
  rewrite Qtrunc_floor.
  - change 0 with (Qfloor 0). apply Qfloor_resp_le.
    apply Qmult_le_0_compat; [|exact Hr].
    change 0%Q with (inject_Z 0). now rewrite <- Zle_Qle.
  - apply Qmult_le_0_compat; [|exact Hr].
    change 0%Q with (inject_Z 0). now rewrite <- Zle_Qle.
Qed.

Section Generic.
Context {F : Type} `{PyNum F}.

Lemma split_groups_partition (groups : list (string * list pair))
    (train_ratio val_ratio : F) (g : rng) :
  usable_ratio train_ratio -> usable_ratio val_ratio ->
  exists train val test g',
    split_groups groups train_ratio val_ratio g
      = Ok ((train, val, test), g') /\
    train ++ val ++ test ≡ₚ concat groups.*2.
Proof.
  intros Ht Hv. revert g.
  induction groups as [|[code group_pairs] rest IH]; intros g; simpl.
  - exists [], [], [], g. split; reflexivity.
  - pose proof (shuffle_Permutation group_pairs g) as Hsh.
    destruct (shuffle group_pairs g) as [shuffled g1]. simpl in Hsh.
    destruct (Ht (len shuffled)) as (te & -> & Hte); [unfold len; lia|].
    destruct (Hv (len shuffled)) as (vl & -> & Hvl); [unfold len; lia|].
    simpl.
    destruct (IH g1) as (train & val & test & g2 & -> & Hperm). simpl.
    do 4 eexists. split; [reflexivity|].
    rewrite <- Hperm, <- Hsh.
    rewrite <- (slices_partition shuffled te (te + vl)) at 4 by lia.
    solve_Permutation.
Qed.

Lemma stratified_split_partition_generic (pairs : list pair)
    (train_ratio val_ratio test_ratio : F) (g : rng) :
  usable_ratio train_ratio -> usable_ratio val_ratio ->
  exists train val test g',
    _stratified_split pairs train_ratio val_ratio test_ratio g
      = Ok ((train, val, test), g') /\
    train ++ val ++ test ≡ₚ pairs.
Proof.
  intros Ht Hv. unfold _stratified_split.
  destruct (split_groups_partition (group_by pill_code pairs)
              train_ratio val_ratio g Ht Hv)
    as (train & val & test & g1 & -> & Hperm). simpl.
  rewrite group_by_Permutation in Hperm.
  pose proof (shuffle_Permutation train g1) as H1.
  destruct (shuffle train g1) as [train' g2].
  pose proof (shuffle_Permutation val g2) as H2.
  destruct (shuffle val g2) as [val' g3].
  pose proof (shuffle_Permutation test g3) as H3.
  destruct (shuffle test g3) as [test' g4]. simpl in *.
  do 4 eexists. split; [reflexivity|].
  now rewrite H1, H2, H3.
Qed.

End Generic.

(** C2: for valid ratios, that is train and validation ratios usable in
    the above sense (every non-negative ratio, in exact arithmetic), the
    split returns three lists whose concatenation is a permutation of the
    pool: sizes add up, every pair is in one of the three, and on a pool
    without repeated pairs, as [_get_image_label_pairs] builds it from
    distinct image paths, the three lists are duplicate-free and pairwise
    disjoint. *)
Theorem stratified_split_partition {F : Type} `{PyNum F}
    (pairs : list pair) (train_ratio val_ratio test_ratio : F) (g : rng) :
  usable_ratio train_ratio -> usable_ratio val_ratio ->
  exists train val test g',
    _stratified_split pairs train_ratio val_ratio test_ratio g
      = Ok ((train, val, test), g') /\
    train ++ val ++ test ≡ₚ pairs /\
    (length train + length val + length test = length pairs)%nat /\
    (forall p, p ∈ pairs <-> (p ∈ train \/ p ∈ val \/ p ∈ test)) /\
    (NoDup pairs ->
     NoDup train /\ NoDup val /\ NoDup test /\
     (forall p, p ∈ train -> (p ∉ val) /\ (p ∉ test)) /\
     (forall p, p ∈ val -> p ∉ test)).
Proof.
  intros Ht Hv.
  destruct (stratified_split_partition_generic pairs
              train_ratio val_ratio test_ratio g Ht Hv)
    as (train & val & test & g' & Heq & Hperm).
  exists train, val, test, g'. split; [exact Heq|].
  split; [exact Hperm|]. split; [|split].
  - rewrite <- (Permutation_length Hperm), !length_app. lia.
  - intros p. rewrite <- Hperm, !elem_of_app. reflexivity.
  - intros Hnd. rewrite <- Hperm in Hnd.
    apply NoDup_app in Hnd as (Hn1 & Hd1 & Hnd).
    apply NoDup_app in Hnd as (Hn2 & Hd2 & Hn3).
    split; [exact Hn1|]. split; [exact Hn2|]. split; [exact Hn3|]. split.
    + intros p Hp. split; intros Hin; apply (Hd1 p Hp), elem_of_app;
        [now left | now right].
    + intros p Hp. now apply Hd2.
Qed.

(** Four images of one product and ten of another. *)
Definition pool_of (code : string) (n : nat) : list pair :=
  map (fun i => make_pair ("img" +:+ str_of_nat i) ("lbl" +:+ str_of_nat i)
                          ("K-" +:+ code +:+ "-" +:+ str_of_nat i))
      (seq 0 n).

Definition fixed_source : rng := fun i => (7 * i + 3)%nat.

Lemma stratified_split_partition_witness :
  exists train val test g',
    _stratified_split (pool_of "003544" 4 ++ pool_of "001900" 10)
      (8 # 10)%Q (1 # 10)%Q (1 # 10)%Q fixed_source
      = Ok ((train, val, test), g') /\
    train ++ val ++ test ≡ₚ pool_of "003544" 4 ++ pool_of "001900" 10 /\
    (length train + length val + length test
     = length (pool_of "003544" 4 ++ pool_of "001900" 10))%nat /\
    (forall p, p ∈ pool_of "003544" 4 ++ pool_of "001900" 10
               <-> (p ∈ train \/ p ∈ val \/ p ∈ test)) /\
    (NoDup (pool_of "003544" 4 ++ pool_of "001900" 10) ->
     NoDup train /\ NoDup val /\ NoDup test /\
     (forall p, p ∈ train -> (p ∉ val) /\ (p ∉ test)) /\
     (forall p, p ∈ val -> p ∉ test)).
Proof.
  apply (stratified_split_partition
           (pool_of "003544" 4 ++ pool_of "001900" 10)
           (8 # 10)%Q (1 # 10)%Q (1 # 10)%Q fixed_source);
    apply nonneg_ratio_usable; vm_compute; discriminate.
Defined.

(** The ratios are not validated.  Outside the valid ones, with train
    ratio -1/2 and validation ratio 4/5, a group of four is cut into
    [group[:-2]], [group[-2:1]] and [group[1:]]: five entries in all, one
    pair twice. *)
Example split_with_negative_ratio :
  exists train val test g',
    _stratified_split (pool_of "003544" 4)
      (-1 # 2)%Q (4 # 5)%Q (7 # 10)%Q fixed_source
      = Ok ((train, val, test), g') /\
    (length train, length val, length test) = (2, 0, 3)%nat /\
    ~ (train ++ val ++ test ≡ₚ pool_of "003544" 4).
Proof.
  do 4 eexists. split; [vm_compute; reflexivity|].
  split; [reflexivity|].
  intros Hperm. apply Permutation_length in Hperm. discriminate.
Qed.

(** The default ratios in binary64 on the ten-image group: 8, 1, 1. *)
Example split_default_ratios_binary64 :
  exists train val test g',
    _stratified_split (pool_of "001900" 10)
      0x1.999999999999ap-1%float 0x1.999999999999ap-4%float
      0x1.999999999999ap-4%float fixed_source
      = Ok ((train, val, test), g') /\
    (length train, length val, length test) = (8, 1, 1)%nat.
Proof. do 4 eexists. split; [vm_compute; reflexivity | reflexivity]. Qed.

End SplitterProps.

(** ** The sampling strategies *)

Section SamplerProps.
Import PyRandom PyList Sampler.

Implicit Types (pairs : list pair) (g : rng).

Lemma len_app {A} (l k : list A) : len (l ++ k) = len l + len k.
Proof. unfold len. rewrite length_app. lia. Qed.

Lemma len_nonneg {A} (l : list A) : 0 <= len l.
Proof. unfold len. lia. Qed.

Lemma submseteq_len {A} (l k : list A) : l ⊆+ k -> len l <= len k.
Proof. intros Hs. apply submseteq_length in Hs. unfold len. lia. Qed.

Lemma filter_none {A} (P : A -> Prop) `{forall x, Decision (P x)}
    (l : list A) : (forall x, x ∈ l -> ~ P x) -> filter P l = [].
Proof.
  induction l as [|a l IH]; intros Hl; [reflexivity|].
  rewrite filter_cons_False by (apply Hl, list_elem_of_here).
  apply IH. intros x Hx. apply Hl. now apply list_elem_of_further.
Qed.

Lemma filter_all {A} (P : A -> Prop) `{forall x, Decision (P x)}
    (l : list A) : (forall x, x ∈ l -> P x) -> filter P l = l.
Proof.
  induction l as [|a l IH]; intros Hl; [reflexivity|].
  rewrite filter_cons_True by (apply Hl, list_elem_of_here).
  f_equal. apply IH. intros x Hx. apply Hl. now apply list_elem_of_further.
Qed.

(** The per-group draws never raise and select from the groups. *)
Lemma sample_groups_spec (samples_per_group : Z)
    (groups : list (string * list pair)) g :
  0 <= samples_per_group ->
  exists selected g',
    sample_groups samples_per_group groups g = Ok (selected, g') /\
    selected ⊆+ concat groups.*2.
Proof.
  intros Hs. revert g.
  induction groups as [|[code group_pairs] rest IH]; intros g; simpl.
  - exists [], g. split; [reflexivity | apply submseteq_nil_l].
  - destruct (sample_spec group_pairs
                (Z.min samples_per_group (len group_pairs)) g)
      as (picked & g1 & -> & _ & Hp).
    { pose proof (len_nonneg group_pairs). lia. }
    simpl. destruct (IH g1) as (more & g2 & -> & Hm). simpl.
    exists (picked ++ more), g2. split; [reflexivity|].
    now apply submseteq_app.
Qed.

(** What is left for the top-up once [selected] is taken out of the
    pool. *)
Lemma remaining_spec pairs (selected : list pair) :
  selected ⊆+ pairs ->
  selected ++ filter (fun p => p ∉ selected) pairs ⊆+ pairs /\
  (NoDup pairs ->
   len (filter (fun p => p ∉ selected) pairs) = len pairs - len selected).
Proof.
  intros Hsub.
  destruct (submseteq_Permutation _ _ Hsub) as [k Hk].
  assert (Hsel : filter (fun p => p ∉ selected) selected = []).
  { apply filter_none. intros p Hp Hn. exact (Hn Hp). }
  assert (Hrem : filter (fun p => p ∉ selected) pairs
                 ≡ₚ filter (fun p => p ∉ selected) k).
  { rewrite Hk, filter_app, Hsel. reflexivity. }
  split.
  - rewrite Hrem, Hk. apply submseteq_skips_l, sublist_submseteq, sublist_filter.
  - intros Hnd. rewrite Hk in Hnd.
    apply NoDup_app in Hnd as (_ & Hdisj & _).
    assert (Hall : filter (fun p => p ∉ selected) k = k).
    { apply filter_all. intros p Hp Hin. exact (Hdisj p Hin Hp). }
    unfold len. rewrite Hrem, Hall, (Permutation_length Hk), length_app. lia.
Qed.

(** On a non-empty pool the balanced strategy returns a selection from
    the pool of at most [target_size] items, and of exactly
    [min(target_size, len(pairs))] items when no pair repeats. *)
Lemma balanced_sample_spec pairs (target_size : Z) g :
  pairs <> [] -> 0 <= target_size ->
  exists selected g',
    _balanced_sample pairs target_size g = Ok (selected, g') /\
    selected ⊆+ pairs /\
    len selected <= target_size /\
    (NoDup pairs -> len selected = Z.min target_size (len pairs)).
Proof.
  intros Hne Ht. unfold _balanced_sample.
  pose proof (group_by_nonempty pill_code pairs Hne) as Hg.
  destruct (Z.eqb_spec (len (group_by pill_code pairs)) 0) as [E|_].
  { unfold len in E. destruct (group_by pill_code pairs); [done|simpl in E; lia]. }
  destruct (sample_groups_spec
              (Z.max 1 (target_size / len (group_by pill_code pairs)))
              (group_by pill_code pairs) g ltac:(lia))
    as (selected & g1 & -> & Hsub).
  rewrite group_by_Permutation in Hsub. simpl.
  destruct (remaining_spec pairs selected Hsub) as [Hrest Hcount].
  pose proof (submseteq_len _ _ Hsub) as Hls.
  destruct (Z.ltb_spec (len selected) target_size) as [Hlt|Hge].
  - set (remaining := filter (fun p => p ∉ selected) pairs) in *.
    destruct (sample_spec remaining
                (Z.min (target_size - len selected) (len remaining)) g1)
      as (additional & g2 & -> & Hla & Hsa).
    { pose proof (len_nonneg remaining). lia. }
    simpl. exists (selected ++ additional), g2. split; [reflexivity|].
    split; [|split].
    + etrans; [apply submseteq_skips_l, Hsa | exact Hrest].
    + rewrite len_app, Hla. lia.
    + intros Hnd. rewrite len_app, Hla, (Hcount Hnd). lia.
  - destruct (Z.ltb_spec target_size (len selected)) as [Hgt|Hle].
    + destruct (sample_spec selected target_size g1)
        as (picked & g2 & -> & Hlp & Hsp); [lia|].
      exists picked, g2. split; [reflexivity|].
      split; [etrans; eassumption|]. split; [lia|]. intros _. lia.
    + exists selected, g1. split; [reflexivity|].
      split; [exact Hsub|]. split; [lia|]. intros _. lia.
Qed.

(** On the empty pool the balanced strategy divides by zero groups. *)
Lemma balanced_sample_empty (target_size : Z) g :
  _balanced_sample [] target_size g = Raise ZeroDivisionError.
Proof. reflexivity. Qed.

Section Quality.
Variable getsize : string -> Z.

Lemma extract_train_pairs_empty_balanced (train_size : Z) g :
  _extract_train_pairs getsize [] train_size "balanced" g
  = Raise ZeroDivisionError.
Proof. unfold _extract_train_pairs. simpl. apply balanced_sample_empty. Qed.

Lemma insert_desc_Permutation (x : pair * Z) (l : list (pair * Z)) :
  insert_desc x l ≡ₚ x :: l.
Proof.
  induction l as [|y l IH]; simpl; [reflexivity|].
  destruct (x.2 <? y.2); [|reflexivity].
  rewrite IH. apply Permutation_swap.
Qed.

Lemma sort_desc_Permutation (l : list (pair * Z)) : sort_desc l ≡ₚ l.
Proof.
  induction l as [|x l IH]; simpl; [reflexivity|].
  rewrite insert_desc_Permutation. now rewrite IH.
Qed.

Lemma slice_to_len {A} (l : list A) (hi : Z) :
  0 <= hi -> len (slice_to l hi) = Z.min hi (len l).
Proof.
  intros Hhi. unfold slice_to, clamp, len.
  destruct (Z.ltb_spec hi 0); [lia|]. rewrite length_take. lia.
Qed.

(** The quality strategy never raises: it returns the
    [min(target_size, len(pairs))] largest images, a selection from the
    pool. *)
Lemma quality_sample_spec pairs (target_size : Z) :
  0 <= target_size ->
  len (_quality_sample getsize pairs target_size)
    = Z.min target_size (len pairs) /\
  _quality_sample getsize pairs target_size ⊆+ pairs.
Proof.
  intros Ht. unfold _quality_sample. split.
  - unfold len at 1. rewrite length_map. fold (len (slice_to
      (sort_desc (map (fun p => (p, getsize (image p))) pairs)) target_size)).
    rewrite slice_to_len by assumption. f_equal.
    unfold len. rewrite (Permutation_length (sort_desc_Permutation _)).
    now rewrite length_map.
  - etrans.
    + apply sublist_submseteq.
      change (map fst ?l) with (fst <$> l).
      apply fmap_sublist. unfold slice_to. apply sublist_take.
    + apply Permutation_submseteq.
      change (map fst ?l) with (fst <$> l).
      rewrite (sort_desc_Permutation _).
      change (map ?f ?l) with (f <$> l).
      rewrite <- list_fmap_compose. simpl.
      rewrite list_fmap_id. reflexivity.
Qed.

(** The three strategies on a pool that is not both empty and sampled
    with the balanced strategy. *)
Lemma extract_train_pairs_spec pairs (train_size : Z) (strategy : string) g :
  0 <= train_size ->
  pairs <> [] \/ strategy <> "balanced"%string ->
  exists selected g',
    _extract_train_pairs getsize pairs train_size strategy g
      = Ok (selected, g') /\
    selected ⊆+ pairs /\
    len selected <= train_size /\
    (NoDup pairs -> len selected = Z.min train_size (len pairs)).
Proof.
  intros Ht Hcase. unfold _extract_train_pairs.
  destruct (String.eqb_spec strategy "balanced") as [->|Hnb].
  - destruct Hcase as [Hne|Hs]; [|congruence].
    apply balanced_sample_spec; assumption.
  - destruct (String.eqb_spec strategy "quality") as [->|Hnq].
    + destruct (quality_sample_spec pairs train_size Ht) as [Hl Hs].
      do 2 eexists. split; [reflexivity|].
      split; [exact Hs|]. split; [lia|]. intros _. exact Hl.
    + destruct (sample_spec pairs (Z.min train_size (len pairs)) g)
        as (picked & g' & -> & Hl & Hs).
      { pose proof (len_nonneg pairs). lia. }
      exists picked, g'. split; [reflexivity|].
      split; [exact Hs|]. split; [lia|]. intros _. exact Hl.
Qed.

End Quality.

End SamplerProps.

Section SamplerClaims.
Import PyRandom PyList Sampler.
Local Open Scope string_scope.

(** C4: the code breaks the claim on the empty pool.  With no valid pair
    the balanced strategy computes [target_size // len(groups)] over zero
    groups and raises [ZeroDivisionError], whatever the target and the
    random source. *)
Theorem balanced_on_empty_pool_raises
    (getsize : string -> Z) (train_size : Z) (g : rng) :
  _extract_train_pairs getsize [] train_size "balanced" g
  = Raise ZeroDivisionError.
Proof.
  unfold _extract_train_pairs, _balanced_sample. simpl.
  (* no pair, so no group: the divisor [len(groups)] is zero *)
  reflexivity.
Qed.

(** Apart from that case an under-supplied pool is sampled without
    error: the selection comes from the pool, so it has fewer items than
    requested, and it is the whole pool when no pair repeats. *)
Lemma undersupplied_pool_is_sampled
    (getsize : string -> Z) (pool : list pair) (train_size : Z)
    (strategy : string) (g : rng) :
  len pool < train_size ->
  pool <> [] \/ strategy <> "balanced" ->
  exists selected g',
    _extract_train_pairs getsize pool train_size strategy g
      = Ok (selected, g') /\
    selected ⊆+ pool /\ len selected <= len pool /\ len selected < train_size /\
    (NoDup pool -> selected ≡ₚ pool).
Proof.
  intros Hlt Hcase. pose proof (len_nonneg pool) as H0.
  destruct (extract_train_pairs_spec getsize pool train_size strategy g
              ltac:(lia) Hcase)
    as (selected & g' & Heq & Hsub & Hle & Hex).
  exists selected, g'. split; [exact Heq|].
  pose proof (submseteq_len _ _ Hsub) as Hls.
  split; [exact Hsub|]. split; [exact Hls|]. split; [lia|].
  intros Hnd. apply submseteq_length_Permutation; [exact Hsub|].
  specialize (Hex Hnd). unfold len in *. lia.
Qed.

(** C6: for a target of at least one, whatever a strategy returns has at
    most [target_size] items; every strategy does return a selection from
    the pool, the balanced one on the empty pool excepted (there it
    raises, see C4); and the balanced strategy returns exactly
    [target_size] items when the pool holds at least that many and no
    pair twice. *)
Theorem select_sample_size
    (getsize : string -> Z) (pool : list pair) (target_size : Z)
    (strategy : string) (g : rng) :
  1 <= target_size ->
  (forall selected g',
     _extract_train_pairs getsize pool target_size strategy g
       = Ok (selected, g') ->
     len selected <= target_size) /\
  (pool <> [] \/ strategy <> "balanced" ->
   exists selected g',
     _extract_train_pairs getsize pool target_size strategy g
       = Ok (selected, g') /\
     selected ⊆+ pool /\ len selected <= target_size) /\
  (strategy = "balanced" -> NoDup pool -> target_size <= len pool ->
   exists selected g',
     _extract_train_pairs getsize pool target_size strategy g
       = Ok (selected, g') /\
     selected ⊆+ pool /\ len selected = target_size).
Proof.
  intros Ht.
  assert (Hret : pool <> [] \/ strategy <> "balanced" ->
            exists selected g',
              _extract_train_pairs getsize pool target_size strategy g
                = Ok (selected, g') /\
              selected ⊆+ pool /\ len selected <= target_size /\
              (NoDup pool -> len selected = Z.min target_size (len pool))).
  { intros Hcase. apply extract_train_pairs_spec; [lia | exact Hcase]. }
  split; [|split].
  - intros selected g' Heq.
    destruct pool as [|p pool'].
    + destruct (String.eqb_spec strategy "balanced") as [->|Hnb].
      * rewrite extract_train_pairs_empty_balanced in Heq. discriminate.
      * destruct (Hret (or_intror Hnb)) as (s & g2 & Heq' & _ & Hle & _).
        rewrite Heq in Heq'. injection Heq' as <- <-. exact Hle.
    + assert (Hne : p :: pool' <> []) by discriminate.
      destruct (Hret (or_introl Hne)) as (s & g2 & Heq' & _ & Hle & _).
      rewrite Heq in Heq'. injection Heq' as <- <-. exact Hle.
  - intros Hcase.
    destruct (Hret Hcase) as (s & g2 & Heq & Hsub & Hle & _). eauto.
  - intros -> Hnd Hsupply.
    assert (Hne : pool <> []).
    { intros ->. unfold len in Hsupply. simpl in Hsupply. lia. }
    destruct (Hret (or_introl Hne)) as (s & g2 & Heq & Hsub & _ & Hex).
    exists s, g2. split; [exact Heq|]. split; [exact Hsub|].
    rewrite (Hex Hnd). lia.
Qed.

(** Seven images of three products. *)
Definition seven_pairs : list pair :=
  map (fun n => mkPair ("train_images/" +:+ n +:+ ".png")
                       ("train_annotations/" +:+ n +:+ ".json") n)
      [ "K-001900-0"; "K-001900-1"; "K-001900-2";
        "K-003544-0"; "K-003544-1";
        "K-016551-0"; "K-016551-1" ].

Definition size_by_name_length (path : string) : Z :=
  Z.of_nat (String.length path).

Lemma select_sample_size_witness :
  exists selected g',
    _extract_train_pairs size_by_name_length seven_pairs 5 "balanced"
      fixed_source = Ok (selected, g') /\
    selected ⊆+ seven_pairs /\ len selected = 5.
Proof.
  apply (select_sample_size size_by_name_length seven_pairs 5 "balanced"
           fixed_source ltac:(lia)).
  - reflexivity.
  - apply (bool_decide_unpack _). vm_compute. exact I.
  - vm_compute. discriminate.
Defined.

(** The example of the claim, run: three groups, one pick per group
    ([5 // 3 = 1]) makes three, topped up with two of the four remaining
    pairs. *)
Example balanced_seven_in_three_groups_target_five :
  map fst (group_by pill_code seven_pairs) = ["001900"; "003544"; "016551"] /\
  exists selected g',
    _balanced_sample seven_pairs 5 fixed_source = Ok (selected, g') /\
    map name selected
    = ["K-001900-0"; "K-003544-0"; "K-016551-1"; "K-001900-1"; "K-001900-2"].
Proof.
  split; [reflexivity|].
  do 2 eexists. split; [vm_compute; reflexivity|]. reflexivity.
Qed.

End SamplerClaims.
(** ** The class balance score *)

(** *** The bounds of the recursions are enough *)

Section AnalyzerSums.
Import Analyzer.
Context {F : Type} `{NpNum F}.

(** The pieces are the list, cut. *)
Lemma pieces_of_concat (fuel size : nat) (l : list F) :
  (0 < size)%nat -> (length l <= fuel)%nat ->
  concat (pieces_of fuel size l) = l.
Proof.
  intros Hsize. revert l.
  induction fuel as [|fuel IH]; intros l Hl.
  - destruct l; [reflexivity | simpl in Hl; lia].
  - destruct l as [|x l]; [reflexivity|].
    cbn [pieces_of concat]. rewrite IH.
    + apply take_drop.
    + rewrite length_drop. simpl in *. lia.
Qed.

(** The halvings end before the depth is used up: any depth of at least
    the length gives the same sum. *)
Lemma pairwise_sum_depth (d1 d2 : nat) (l : list F) :
  (length l <= d1)%nat -> (length l <= d2)%nat ->
  pairwise_sum d1 l = pairwise_sum d2 l.
Proof.
  revert d2 l. induction d1 as [|d1 IH]; intros d2 l H1 H2.
  - destruct l; [|simpl in H1; lia]. destruct d2; reflexivity.
  - destruct d2 as [|d2].
    { destruct l; [reflexivity | simpl in H2; lia]. }
    cbn [pairwise_sum].
    destruct (Nat.ltb_spec (length l) 8); [reflexivity|].
    destruct (Nat.leb_spec (length l) 128); [reflexivity|].
    set (n2 := (length l / 2 - (length l / 2) mod 8)%nat).
    assert (Hhalf : (64 <= length l / 2)%nat)
      by (apply Nat.div_le_lower_bound; lia).
    assert (Hle : (length l / 2 < length l)%nat)
      by (apply Nat.div_lt; lia).
    pose proof (Nat.mod_upper_bound (length l / 2) 8 ltac:(lia)) as Hmod.
    assert (Hn2 : (0 < n2 < length l)%nat).
    { subst n2. generalize dependent (length l / 2)%nat.
      generalize dependent ((length l / 2) mod 8)%nat. intros. lia. }
    f_equal; apply IH; rewrite ?length_take, ?length_drop; lia.
Qed.

End AnalyzerSums.

Section AnalyzerProps.
Import Analyzer.
Local Open Scope R_scope.

Lemma Rabs_le_inv (x a : R) : Rabs x <= a -> - a <= x <= a.
Proof. unfold Rabs. destruct (Rcase_abs x); lra. Qed.

Lemma Int_part_bounds (x : R) : IZR (Int_part x) <= x < IZR (Int_part x) + 1.
Proof. destruct (base_Int_part x). lra. Qed.

(** [rint] returns the floor or the floor plus one, whichever is within
    one half. *)
Lemma rint_near (x : R) : Rabs (IZR (rint x) - x) <= 1 / 2.
Proof.
  unfold rint, frac_part.
  pose proof (Int_part_bounds x) as Hb.
  destruct (Rlt_dec (x - IZR (Int_part x)) (1 / 2)) as [Hlt|Hge].
  - apply Rabs_le. lra.
  - destruct (Rlt_dec (1 / 2) (x - IZR (Int_part x))) as [Hgt|Hle].
    + rewrite plus_IZR. apply Rabs_le. lra.
    + destruct (Z.even (Int_part x)); [|rewrite plus_IZR]; apply Rabs_le; lra.
Qed.

(** An integer strictly within one half of [x] is [rint x]. *)
Lemma rint_eq (x : R) (z : Z) : Rabs (x - IZR z) < 1 / 2 -> rint x = z.
Proof.
  intros Hz. apply Rabs_def2 in Hz as [Hhi Hlo].
  pose proof (rint_near x) as Hn. apply Rabs_le_inv in Hn as [Hn1 Hn2].
  assert (H1 : IZR (rint x) - IZR z < 1) by lra.
  assert (H2 : IZR z - IZR (rint x) < 1) by lra.
  rewrite <- minus_IZR in H1, H2.
  apply (lt_IZR _ 1) in H1. apply (lt_IZR _ 1) in H2. lia.
Qed.

(** [round(x, 3)] over the real numbers. *)
Lemma round3_R (x : R) : round3 x = IZR (rint (x * 1000)) / 1000.
Proof. reflexivity. Qed.

Lemma round3_near (x : R) : Rabs (round3 x - x) <= 1 / 2000.
Proof.
  rewrite round3_R. pose proof (rint_near (x * 1000)) as Hn.
  apply Rabs_le_inv in Hn. apply Rabs_le. lra.
Qed.

Lemma round3_unit (x : R) : 0 <= x <= 1 -> 0 <= round3 x <= 1.
Proof.
  intros [H0 H1]. rewrite round3_R.
  pose proof (rint_near (x * 1000)) as Hn. apply Rabs_le_inv in Hn.
  assert (Hlo : IZR (-1) < IZR (rint (x * 1000))) by lra.
  assert (Hhi : IZR (rint (x * 1000)) < IZR 1001) by lra.
  apply lt_IZR in Hlo, Hhi.
  assert (Hlo' : (0 <= rint (x * 1000))%Z) by lia.
  assert (Hhi' : (rint (x * 1000) <= 1000)%Z) by lia.
  apply IZR_le in Hlo', Hhi'. lra.
Qed.

Lemma round3_one : round3 1 = 1.
Proof.
  rewrite round3_R. rewrite (rint_eq (1 * 1000) 1000).
  - lra.
  - replace (1 * 1000 - 1000) with 0 by lra. rewrite Rabs_R0. lra.
Qed.

(** *** Over the real numbers the order of the additions does not
    matter *)

Definition sumR (l : list R) : R := foldr Rplus 0 l.

Definition meanR (l : list R) : R := sumR l / INR (length l).

Lemma sumR_app (l k : list R) : sumR (l ++ k) = sumR l + sumR k.
Proof. induction l as [|x l IH]; simpl; [lra | rewrite IH; lra]. Qed.

Lemma add_loop_R (res : R) (l : list R) : add_loop res l = res + sumR l.
Proof.
  revert res. induction l as [|x l IH]; intros res.
  - unfold add_loop. simpl. lra.
  - change (add_loop res (x :: l)) with (add_loop (res + x) l).
    rewrite IH. simpl. lra.
Qed.

Definition tree (r : lanes (F:=R)) : R :=
  let '(r0, r1, r2, r3, r4, r5, r6, r7) := r in
  ((r0 + r1) + (r2 + r3)) + ((r4 + r5) + (r6 + r7)).

Lemma accumulate_R (n : nat) (l : list R) (r : lanes) :
  (length l <= n)%nat ->
  tree (accumulate r l).1 + sumR (accumulate r l).2 = tree r + sumR l.
Proof.
  revert l r. induction n as [|n IH]; intros l r Hn;
    destruct l as [|a0 [|a1 [|a2 [|a3 [|a4 [|a5 [|a6 [|a7 l]]]]]]]];
    try reflexivity; simpl in Hn; try lia.
  destruct r as [[[[[[[r0 r1] r2] r3] r4] r5] r6] r7].
  cbn [accumulate]. rewrite IH by lia. simpl. lra.
Qed.

Lemma block_sum_R (l : list R) : block_sum l = sumR l.
Proof.
  destruct l as [|a0 [|a1 [|a2 [|a3 [|a4 [|a5 [|a6 [|a7 l]]]]]]]];
    try (unfold block_sum; rewrite add_loop_R; simpl; lra).
  unfold block_sum.
  pose proof (accumulate_R (length l) l (a0, a1, a2, a3, a4, a5, a6, a7)
                (le_n _)) as Hacc.
  destruct (accumulate (a0, a1, a2, a3, a4, a5, a6, a7) l)
    as [[[[[[[[r0 r1] r2] r3] r4] r5] r6] r7] rest].
  rewrite add_loop_R. simpl in *. lra.
Qed.

Lemma pairwise_sum_R (depth : nat) (l : list R) :
  pairwise_sum depth l = sumR l.
Proof.
  revert l. induction depth as [|depth IH]; intros l; cbn [pairwise_sum];
    destruct (length l <? 8)%nat;
    try (rewrite add_loop_R; simpl; lra);
    destruct (length l <=? 128)%nat; try apply block_sum_R.
  rewrite !IH. change (np_add ?a ?b) with (a + b).
  now rewrite <- sumR_app, take_drop.
Qed.

Lemma add_reduce_R (pieces : list (list R)) :
  add_reduce pieces = sumR (concat pieces).
Proof.
  unfold add_reduce. change (np_of_int 0) with 0.
  rewrite <- (Rplus_0_l (sumR (concat pieces))). generalize 0 as res.
  induction pieces as [|piece pieces IH]; intros res; simpl; [lra|].
  rewrite IH, pairwise_sum_R, sumR_app.
  change (np_add ?a ?b) with (a + b). lra.
Qed.

Lemma sum_as_float_R (counts : list Z) :
  sum_as_float counts = sumR (map IZR counts).
Proof.
  unfold sum_as_float. rewrite add_reduce_R, pieces_of_concat;
    [reflexivity | unfold buffer_size; lia | lia].
Qed.

(** [np.mean] and [np.std] over the real numbers: the mean, and the
    square root of the mean squared deviation. *)
Lemma np_mean_R (counts : list Z) :
  np_mean counts = meanR (map IZR counts).
Proof.
  unfold np_mean, meanR. rewrite sum_as_float_R, length_map.
  change (np_div ?a ?b) with (a / b). f_equal.
  symmetry. apply INR_IZR_INZ.
Qed.

Lemma np_std_R (counts : list Z) :
  np_std counts
  = R_sqrt.sqrt
      (meanR (map (fun c => (IZR c - np_mean counts) * (IZR c - np_mean counts))
                  counts)).
Proof.
  unfold np_std. rewrite add_reduce_R. simpl concat. rewrite app_nil_r.
  unfold meanR. rewrite !map_map, length_map.
  change (np_sqrt ?a) with (R_sqrt.sqrt a).
  change (np_div ?a ?b) with (a / b). do 2 f_equal.
  symmetry. apply INR_IZR_INZ.
Qed.

(** *** Mean and deviation of positive counts *)

Lemma sumR_pos (l : list R) :
  l <> [] -> Forall (fun x => 0 < x) l -> 0 < sumR l.
Proof.
  intros Hne Hall. destruct Hall as [|x l Hx Hl]; [congruence|]. simpl.
  clear Hne. assert (0 <= sumR l); [|lra].
  induction Hl as [|y l Hy _ IH]; simpl; lra.
Qed.

Lemma np_mean_pos (counts : list Z) :
  counts <> [] -> Forall (fun c => (0 < c)%Z) counts -> 0 < np_mean counts.
Proof.
  intros Hne Hall. rewrite np_mean_R. unfold meanR.
  apply Rdiv_lt_0_compat.
  - apply sumR_pos.
    + destruct counts; [congruence|discriminate].
    + apply Forall_fmap. eapply Forall_impl; [exact Hall|].
      intros c Hc. simpl. now apply (IZR_lt 0).
  - apply lt_0_INR. rewrite length_map.
    destruct counts; [congruence|simpl; lia].
Qed.

Lemma np_std_nonneg (counts : list Z) : 0 <= np_std counts.
Proof. rewrite np_std_R. apply sqrt_pos. Qed.

Lemma sumR_const (c : R) (l : list R) :
  Forall (fun x => x = c) l -> sumR l = INR (length l) * c.
Proof.
  induction 1 as [|x l -> _ IH]; [simpl; lra|].
  change (sumR (c :: l)) with (c + sumR l).
  rewrite IH, length_cons, S_INR. lra.
Qed.

Lemma meanR_const (c : R) (l : list R) :
  l <> [] -> Forall (fun x => x = c) l -> meanR l = c.
Proof.
  intros Hne Hall. unfold meanR. rewrite (sumR_const c l Hall).
  assert (0 < INR (length l)).
  { apply lt_0_INR. destruct l; [congruence|simpl; lia]. }
  field. lra.
Qed.

Lemma np_mean_const (c : Z) (counts : list Z) :
  counts <> [] -> Forall (fun x => x = c) counts -> np_mean counts = IZR c.
Proof.
  intros Hne Hall. rewrite np_mean_R. apply meanR_const.
  - destruct counts; [congruence|discriminate].
  - apply Forall_fmap. eapply Forall_impl; [exact Hall|].
    intros x ->. reflexivity.
Qed.

Lemma np_std_const (c : Z) (counts : list Z) :
  counts <> [] -> Forall (fun x => x = c) counts -> np_std counts = 0.
Proof.
  intros Hne Hall. rewrite np_std_R.
  rewrite (np_mean_const c counts Hne Hall).
  rewrite (meanR_const 0).
  - apply sqrt_0.
  - destruct counts; [congruence|discriminate].
  - apply Forall_fmap. eapply Forall_impl; [exact Hall|].
    intros x ->. simpl. lra.
Qed.

(** *** From the histogram to its counts *)

Lemma counts_of_nonempty (class_dist : list (string * Z)) :
  class_dist <> [] -> counts_of class_dist <> [].
Proof. destruct class_dist; [congruence | discriminate]. Qed.

(** The score before rounding, for counts with a positive mean. *)
Definition unrounded_score (counts : list Z) : R :=
  1 / (1 + np_std counts / np_mean counts).

Lemma score_nonempty (class_dist : list (string * Z)) :
  class_dist <> [] ->
  0 < np_mean (counts_of class_dist) ->
  _calculate_class_balance_score class_dist
  = round3 (unrounded_score (counts_of class_dist)).
Proof.
  intros Hne Hm. unfold _calculate_class_balance_score.
  destruct class_dist as [|item rest]; [congruence|].
  cbv zeta. unfold coefficient_of_variation.
  change (np_gt0 ?x) with (if Rlt_dec 0 x then true else false).
  destruct (Rlt_dec 0 (np_mean (counts_of (item :: rest))));
    [|contradiction].
  reflexivity.
Qed.

Lemma unrounded_score_unit (counts : list Z) :
  0 < np_mean counts -> 0 < unrounded_score counts <= 1.
Proof.
  intros Hm. unfold unrounded_score.
  pose proof (np_std_nonneg counts) as Hs.
  assert (Hcv : 0 <= np_std counts / np_mean counts).
  { apply Rmult_le_pos; [exact Hs|]. left. now apply Rinv_0_lt_compat. }
  split.
  - apply Rdiv_lt_0_compat; lra.
  - unfold Rdiv. rewrite Rmult_1_l. rewrite <- Rinv_1 at 2.
    apply Rinv_le_contravar; lra.
Qed.

End AnalyzerProps.

Section AnalyzerClaims.
Import Analyzer.
Local Open Scope R_scope.

(** C7 (as amended): the score of the empty histogram is 0.  Read over
    the real numbers, on a non-empty histogram of positive counts the
    value 1/(1 + stddev/mean) lies in (0, 1] and the score is that value
    rounded to three decimals, so it is within 0.0005 of it and lies in
    [0, 1]; when all classes have the same positive count the score is
    exactly 1.  In binary64, as NumPy computes it, the histogram
    {a: 10, b: 10, c: 10} scores 1.0, {a: 1, b: 3} scores 0.667, and the
    empty one 0. *)
Theorem class_balance_score_contract (class_dist : list (string * Z)) :
  let score := _calculate_class_balance_score (F:=R) class_dist in
  let counts := counts_of class_dist in
  let raw := 1 / (1 + np_std (F:=R) counts / np_mean (F:=R) counts) in
  (class_dist = [] -> score = 0) /\
  (class_dist <> [] ->
   Forall (fun c => (0 < c)%Z) counts ->
   0 < raw <= 1 /\
   score = IZR (rint (raw * 1000)) / 1000 /\
   Rabs (score - raw) <= 1 / 2000 /\
   0 <= score <= 1) /\
  (class_dist <> [] ->
   (exists c, (0 < c)%Z /\ Forall (fun v => v = c) counts) ->
   score = 1) /\
  _calculate_class_balance_score (F:=float) [] = 0%float /\
  _calculate_class_balance_score (F:=float)
    [("a", 10%Z); ("b", 10%Z); ("c", 10%Z)]%string = 1%float /\
  _calculate_class_balance_score (F:=float) [("a", 1%Z); ("b", 3%Z)]%string
  = 0x1.55810624dd2f2p-1%float.
Proof.
  intros score counts raw. split; [|split; [|split]].
  - intros ->. reflexivity.
  - intros Hne Hpos.
    assert (Hm : 0 < np_mean counts).
    { apply np_mean_pos; [now apply counts_of_nonempty | exact Hpos]. }
    assert (Hs : score = round3 raw) by (apply score_nonempty; assumption).
    pose proof (unrounded_score_unit counts Hm) as Hraw.
    change (0 < raw <= 1) in Hraw.
    split; [exact Hraw|]. split; [exact Hs|].
    rewrite Hs. split; [apply round3_near | apply round3_unit; lra].
  - intros Hne (c & Hc & Hcounts).
    pose proof (counts_of_nonempty _ Hne) as Hcne. fold counts in Hcne.
    assert (Hm : np_mean counts = IZR c) by (now apply np_mean_const).
    assert (Hsd : np_std counts = 0) by (now apply (np_std_const c)).
    assert (Hc' : 0 < IZR c) by (now apply (IZR_lt 0)).
    subst score. rewrite score_nonempty; [|assumption|fold counts; lra].
    unfold unrounded_score. fold counts. rewrite Hm, Hsd.
    replace (1 / (1 + 0 / IZR c)) with 1 by (field; lra).
    apply round3_one.
  - repeat split; vm_compute; reflexivity.
Qed.

(** The histogram of the claim: three classes of ten objects each. *)
Definition even_histogram : list (string * Z) :=
  [("a", 10%Z); ("b", 10%Z); ("c", 10%Z)]%string.

Lemma class_balance_score_contract_witness :
  _calculate_class_balance_score (F:=R) even_histogram = 1.
Proof.
  apply (proj1 (proj2 (proj2 (class_balance_score_contract even_histogram)))).
  - discriminate.
  - exists 10%Z. split; [lia|]. repeat constructor.
Defined.

(** The claim of C7 fails, in binary64 as over the real numbers.  As
    NumPy computes it, the histogram {a: 1, b: 3} has the value
    1/(1 + stddev/mean) = 0.6666666666666666 and the score 0.667, another
    number.  And the score is not that of the exact value either: on
    {a: 1, b: 40} the exact value is 0.5125, which rounds to 0.512, where
    the computed value 0.5125000000000001 gives the score 0.513. *)
Lemma balance_score_is_rounded :
  let class_dist := [("a", 1%Z); ("b", 3%Z)]%string in
  let skewed := [("a", 1%Z); ("b", 40%Z)]%string in
  (* binary64 *)
  inv_one_plus (F:=float) (coefficient_of_variation (counts_of class_dist))
    = 0x1.5555555555555p-1%float /\
  _calculate_class_balance_score (F:=float) class_dist
    = 0x1.55810624dd2f2p-1%float /\
  PrimFloat.eqb
    (_calculate_class_balance_score (F:=float) class_dist)
    (inv_one_plus (F:=float) (coefficient_of_variation (counts_of class_dist)))
    = false /\
  inv_one_plus (F:=float) (coefficient_of_variation (counts_of skewed))
    = 0x1.0666666666667p-1%float /\
  _calculate_class_balance_score (F:=float) skewed
    = 0x1.06a7ef9db22d1p-1%float /\
  (* the real numbers *)
  1 / (1 + np_std (F:=R) (counts_of class_dist)
           / np_mean (F:=R) (counts_of class_dist)) = 2 / 3 /\
  _calculate_class_balance_score (F:=R) class_dist = 667 / 1000 /\
  1 / (1 + np_std (F:=R) (counts_of skewed)
           / np_mean (F:=R) (counts_of skewed)) = 5125 / 10000 /\
  _calculate_class_balance_score (F:=R) skewed = 512 / 1000.
Proof.
  intros class_dist skewed.
  assert (Hmean : np_mean (F:=R) (counts_of class_dist) = 2).
  { rewrite np_mean_R. unfold meanR. simpl. field. }
  assert (Hstd : np_std (F:=R) (counts_of class_dist) = 1).
  { rewrite np_std_R, Hmean. unfold meanR. simpl.
    replace (((1 - 2) * (1 - 2) + ((3 - 2) * (3 - 2) + 0)) / (1 + 1))
      with 1 by field.
    apply sqrt_1. }
  assert (Hmean' : np_mean (F:=R) (counts_of skewed) = 41 / 2).
  { rewrite np_mean_R. unfold meanR. simpl. field. }
  assert (Hstd' : np_std (F:=R) (counts_of skewed) = 39 / 2).
  { rewrite np_std_R, Hmean'. unfold meanR. simpl.
    replace (((1 - 41 / 2) * (1 - 41 / 2)
              + ((40 - 41 / 2) * (40 - 41 / 2) + 0)) / (1 + 1))
      with ((39 / 2) * (39 / 2)) by field.
    apply sqrt_square. lra. }
  assert (Hraw : 1 / (1 + np_std (F:=R) (counts_of class_dist)
                        / np_mean (F:=R) (counts_of class_dist)) = 2 / 3).
  { rewrite Hmean, Hstd. lra. }
  assert (Hraw' : 1 / (1 + np_std (F:=R) (counts_of skewed)
                         / np_mean (F:=R) (counts_of skewed)) = 5125 / 10000).
  { rewrite Hmean', Hstd'. lra. }
  split; [vm_compute; reflexivity|]. split; [vm_compute; reflexivity|].
  split; [vm_compute; reflexivity|]. split; [vm_compute; reflexivity|].
  split; [vm_compute; reflexivity|].
  split; [exact Hraw|]. split.
  { rewrite score_nonempty; [|discriminate|rewrite Hmean; lra].
    unfold unrounded_score. rewrite Hraw, round3_R.
    rewrite (rint_eq (2 / 3 * 1000) 667); [reflexivity|].
    apply Rabs_def1; lra. }
  split; [exact Hraw'|].
  rewrite score_nonempty; [|discriminate|rewrite Hmean'; lra].
  unfold unrounded_score. rewrite Hraw', round3_R.
  replace (5125 / 10000 * 1000) with (IZR 512 + 1 / 2) by lra.
  unfold rint.
  assert (Hint : Int_part (IZR 512 + 1 / 2) = 512%Z).
  { symmetry. apply Int_part_spec. lra. }
  assert (Hfrac : frac_part (IZR 512 + 1 / 2) = 1 / 2).
  { unfold frac_part. rewrite Hint. lra. }
  rewrite Hint, Hfrac.
  destruct (Rlt_dec (1 / 2) (1 / 2)) as [Habs|_]; [lra|].
  reflexivity.
Qed.

(** In binary64 the score depends on the order of the classes in the
    dictionary: the counts 1, 1, 1, 1, 10 score 0.438, the counts
    10, 1, 1, 1, 1 score 0.437. *)
Example balance_score_order_binary64 :
  _calculate_class_balance_score (F:=float)
    [("a", 1%Z); ("b", 1%Z); ("c", 1%Z); ("d", 1%Z); ("e", 10%Z)]%string
  = 0x1.c083126e978d5p-2%float /\
  _calculate_class_balance_score (F:=float)
    [("e", 10%Z); ("a", 1%Z); ("b", 1%Z); ("c", 1%Z); ("d", 1%Z)]%string
  = 0x1.bf7ced916872bp-2%float.
Proof. split; vm_compute; reflexivity. Qed.

End AnalyzerClaims.

(** ** The class mapping of the conversion *)

Section StringOrder.

(** [<=] on Python strings compares character by character. *)
Definition str_le (a b : string) : Prop := String.leb a b = true.

Lemma ascii_compare_eq (a b : ascii) : Ascii.compare a b = Eq -> a = b.
Proof. apply Ascii.compare_eq_iff. Qed.

Lemma ascii_compare_refl (a : ascii) : Ascii.compare a a = Eq.
Proof. unfold Ascii.compare. apply N.compare_refl. Qed.

Lemma ascii_compare_lt_trans (a b c : ascii) :
  Ascii.compare a b = Lt -> Ascii.compare b c = Lt -> Ascii.compare a c = Lt.
Proof.
  unfold Ascii.compare. rewrite !N.compare_lt_iff. apply N.lt_trans.
Qed.

Lemma string_compare_refl (s : string) : String.compare s s = Eq.
Proof.
  induction s as [|c s IH]; simpl; [reflexivity|].
  now rewrite ascii_compare_refl.
Qed.

Lemma string_compare_lt_trans (a b c : string) :
  String.compare a b = Lt -> String.compare b c = Lt ->
  String.compare a c = Lt.
Proof.
  revert b c. induction a as [|x a IH]; intros [|y b] [|z c]; simpl;
    try discriminate; try reflexivity.
  destruct (Ascii.compare x y) eqn:Exy; try discriminate;
    destruct (Ascii.compare y z) eqn:Eyz; try discriminate; intros Hab Hbc.
  - apply ascii_compare_eq in Exy, Eyz. subst.
    rewrite ascii_compare_refl. eapply IH; eassumption.
  - apply ascii_compare_eq in Exy. subst. now rewrite Eyz.
  - apply ascii_compare_eq in Eyz. subst. now rewrite Exy.
  - now rewrite (ascii_compare_lt_trans _ _ _ Exy Eyz).
Qed.

Lemma str_le_lt_or_eq (a b : string) :
  str_le a b <-> String.compare a b = Lt \/ a = b.
Proof.
  unfold str_le, String.leb. split.
  - destruct (String.compare a b) eqn:E; intros Hle; try discriminate.
    + right. now apply String.compare_eq_iff.
    + now left.
  - intros [->| ->]; [reflexivity|]. now rewrite string_compare_refl.
Qed.

Lemma str_le_trans (a b c : string) : str_le a b -> str_le b c -> str_le a c.
Proof.
  rewrite !str_le_lt_or_eq. intros [Hab| ->] [Hbc| ->]; auto.
  left. eapply string_compare_lt_trans; eassumption.
Qed.

Lemma str_le_ne_ltb (a b : string) :
  str_le a b -> a <> b -> String.ltb a b = true.
Proof.
  rewrite str_le_lt_or_eq. intros [Hlt|Heq] Hne; [|contradiction].
  unfold String.ltb. now rewrite Hlt.
Qed.

End StringOrder.

Section ClassMapping.
Import Coco Converter.

(** [sorted] rearranges its argument into ascending order. *)
Lemma insert_sorted_Permutation (c : string) (l : list string) :
  insert_sorted c l ≡ₚ c :: l.
Proof.
  induction l as [|d l IH]; simpl; [reflexivity|].
  destruct (String.leb c d); [reflexivity|].
  rewrite IH. apply Permutation_swap.
Qed.

Lemma sorted_Permutation (l : list string) : sorted l ≡ₚ l.
Proof.
  induction l as [|c l IH]; simpl; [reflexivity|].
  now rewrite insert_sorted_Permutation, IH.
Qed.

Lemma insert_sorted_ascending (c : string) (l : list string) :
  StronglySorted str_le l -> StronglySorted str_le (insert_sorted c l).
Proof.
  induction 1 as [|d l Hl IH Hd]; simpl.
  - repeat constructor.
  - destruct (String.leb c d) eqn:E.
    + constructor; [now constructor|].
      constructor; [exact E|].
      eapply Forall_impl; [exact Hd|].
      intros e He. eapply str_le_trans; [exact E | exact He].
    + constructor; [exact IH|].
      rewrite insert_sorted_Permutation. constructor; [|exact Hd].
      destruct (String.leb_total c d) as [Hcd|Hdc]; [congruence | exact Hdc].
Qed.

Lemma sorted_ascending (l : list string) : StronglySorted str_le (sorted l).
Proof.
  induction l as [|c l IH]; simpl; [constructor|].
  now apply insert_sorted_ascending.
Qed.

(** In an ascending list without repetition an earlier entry is strictly
    below a later one. *)
Lemma ascending_strict (l : list string) (i j : nat) (c d : string) :
  StronglySorted str_le l -> NoDup l ->
  l !! i = Some c -> l !! j = Some d -> (i < j)%nat ->
  String.ltb c d = true.
Proof.
  intros Hs. revert i j.
  induction Hs as [|a l Hl IH Ha]; intros i j Hnd Hi Hj Hij; [done|].
  apply NoDup_cons in Hnd as [Hnotin Hnd].
  destruct j as [|j]; [lia|]. simpl in Hj.
  destruct i as [|i]; simpl in Hi.
  - injection Hi as <-.
    assert (Hin : d ∈ l) by (eapply list_elem_of_lookup_2; exact Hj).
    apply str_le_ne_ltb.
    + rewrite Forall_forall in Ha. now apply Ha.
    + intros ->. contradiction.
  - eapply (IH i j); [exact Hnd | exact Hi | exact Hj | lia].
Qed.

(** The dictionary comprehension over [enumerate]: each code is stored
    under its position, a later occurrence replacing an earlier one. *)
Definition enumerate_from (k : nat) (codes : list string)
    (m : gmap string nat) : gmap string nat :=
  foldl (fun m '(i, code) => <[code := i]> m) m
        (imap (fun i code => ((k + i)%nat, code)) codes).

Lemma enumerate_from_cons (k : nat) (c : string) (codes : list string)
    (m : gmap string nat) :
  enumerate_from k (c :: codes) m
  = enumerate_from (S k) codes (<[c := k]> m).
Proof.
  unfold enumerate_from. rewrite imap_cons. simpl.
  rewrite Nat.add_0_r. f_equal. apply imap_ext. intros i x _. simpl.
  f_equal. lia.
Qed.

Lemma enumerate_codes_from (codes : list string) :
  enumerate_codes codes = enumerate_from 0 codes ∅.
Proof. reflexivity. Qed.

Lemma enumerate_from_absent (k : nat) (codes : list string)
    (m : gmap string nat) (c : string) :
  c ∉ codes -> enumerate_from k codes m !! c = m !! c.
Proof.
  revert k m. induction codes as [|d codes IH]; intros k m Hc; [done|].
  apply not_elem_of_cons in Hc as [Hne Hc].
  rewrite enumerate_from_cons, IH by assumption.
  now apply lookup_insert_ne.
Qed.

Lemma enumerate_from_present (k : nat) (codes : list string)
    (m : gmap string nat) (c : string) (i : nat) :
  NoDup codes -> codes !! i = Some c ->
  enumerate_from k codes m !! c = Some (k + i)%nat.
Proof.
  revert k m i. induction codes as [|d codes IH]; intros k m i Hnd Hi; [done|].
  apply NoDup_cons in Hnd as [Hnotin Hnd].
  rewrite enumerate_from_cons.
  destruct i as [|i]; simpl in Hi.
  - injection Hi as ->.
    rewrite enumerate_from_absent by assumption.
    rewrite lookup_insert_eq. f_equal. lia.
  - rewrite (IH (S k) _ i Hnd Hi). f_equal. lia.
Qed.

(** Over a list without repetition the mapping and the list are inverse
    to each other. *)
Lemma enumerate_codes_lookup (codes : list string) (c : string) (i : nat) :
  NoDup codes ->
  enumerate_codes codes !! c = Some i <-> codes !! i = Some c.
Proof.
  intros Hnd. rewrite enumerate_codes_from. split.
  - intros Hl. destruct (decide (c ∈ codes)) as [Hin|Hout].
    + apply list_elem_of_lookup_1 in Hin as [j Hj].
      rewrite (enumerate_from_present 0 codes ∅ c j Hnd Hj) in Hl.
      simpl in Hl. now injection Hl as <-.
    + rewrite enumerate_from_absent in Hl by assumption.
      now rewrite lookup_empty in Hl.
  - intros Hi. now rewrite (enumerate_from_present 0 codes ∅ c i Hnd Hi).
Qed.

Lemma enumerate_from_size (k : nat) (codes : list string)
    (m : gmap string nat) :
  NoDup codes -> (forall c, c ∈ codes -> m !! c = None) ->
  size (enumerate_from k codes m) = (size m + length codes)%nat.
Proof.
  revert k m. induction codes as [|d codes IH]; intros k m Hnd Hfresh.
  - simpl. unfold enumerate_from. simpl. lia.
  - apply NoDup_cons in Hnd as [Hnotin Hnd].
    rewrite enumerate_from_cons, IH; [|exact Hnd|].
    + rewrite map_size_insert_None by (apply Hfresh, list_elem_of_here).
      simpl. lia.
    + intros c Hc. rewrite lookup_insert_ne.
      * apply Hfresh. now apply list_elem_of_further.
      * intros ->. contradiction.
Qed.

Section Generic.
Context {F : Type} `{PyNum F}.

Lemma sorted_codes_NoDup (files : list (coco F)) :
  NoDup (sorted (all_pill_codes files)).
Proof.
  rewrite sorted_Permutation. apply NoDup_remove_dups.
Qed.

Lemma pill_code_listed (files : list (coco F)) (data : coco F)
    (img : image_info) :
  data ∈ files -> img ∈ images data ->
  extract_pill_code (file_name img) ∈ sorted (all_pill_codes files).
Proof.
  intros Hd Hi. rewrite sorted_Permutation.
  unfold all_pill_codes. apply elem_of_remove_dups.
  apply list_elem_of_In, in_flat_map. exists data.
  split; [now apply list_elem_of_In|].
  apply (in_map (fun img => extract_pill_code (file_name img))).
  now apply list_elem_of_In.
Qed.

(** What a returned summary holds. *)
Lemma convert_summary (json_files : list (option (coco F))) (s : summary) :
  (convert_coco_to_yolo json_files).2 = Ok (Some s) ->
  let files := valid_files json_files in
  code_to_id_of s = class_mapping files /\
  total_classes s = length (sorted (all_pill_codes files)) /\
  head (convert_coco_to_yolo json_files).1
    = Some ("classes.txt"%string, sorted (all_pill_codes files)).
Proof.
  unfold convert_coco_to_yolo, class_mapping.
  destruct json_files as [|file rest]; [discriminate|].
  destruct (convert_files _ (valid_files (file :: rest)))
    as [[written count] e].
  destruct e as [err|]; simpl; [discriminate|].
  intros Hs. injection Hs as <-. simpl. done.
Qed.

End Generic.

End ClassMapping.

Section ClassMappingTheorems.
Import Coco Converter.
Local Open Scope string_scope.

(** X1: the class mapping and [classes.txt] are inverse to each other.
    Line [i] of [classes.txt] (counted from 0) is the code whose class id
    is [i]; the lines ascend strictly in string order, so no code is
    listed twice; the mapping has as many entries as the file has lines.
    A returned summary carries exactly this mapping and this count, and
    [classes.txt] is the first file written. *)
Theorem class_ids_index_classes_file {F : Type} `{PyNum F}
    (json_files : list (option (coco F))) :
  let files := valid_files json_files in
  let sorted_codes := sorted (all_pill_codes files) in
  let code_to_id := class_mapping files in
  (forall (code : string) (i : nat),
     code_to_id !! code = Some i <-> sorted_codes !! i = Some code) /\
  (forall (i j : nat) (c d : string),
     sorted_codes !! i = Some c -> sorted_codes !! j = Some d ->
     (i < j)%nat -> String.ltb c d = true) /\
  size code_to_id = length sorted_codes /\
  (forall s : summary,
     (convert_coco_to_yolo json_files).2 = Ok (Some s) ->
     code_to_id_of s = code_to_id /\
     total_classes s = length sorted_codes /\
     head (convert_coco_to_yolo json_files).1
       = Some ("classes.txt", sorted_codes)).
Proof.
  intros files sorted_codes code_to_id.
  pose proof (sorted_codes_NoDup files) as Hnd. fold sorted_codes in Hnd.
  split; [|split; [|split]].
  - intros code i. apply enumerate_codes_lookup, Hnd.
  - intros i j c d Hi Hj Hij.
    eapply ascending_strict; [apply sorted_ascending | exact Hnd | | | ];
      eassumption.
  - subst code_to_id. unfold class_mapping. fold sorted_codes.
    rewrite enumerate_codes_from, enumerate_from_size.
    + now rewrite map_size_empty.
    + exact Hnd.
    + intros c _. apply lookup_empty.
  - intros s Hs. exact (convert_summary json_files s Hs).
Qed.

(** X2: every image of a valid annotation file has a class id of its own
    code: the lookup [code_to_id.get(pill_code, 0)] never falls back to
    its default, the id is below the number of classes, the line of
    [classes.txt] at that index is the image's pill code, and two images
    get the same class id exactly when their pill codes are equal. *)
Theorem image_class_id_resolved {F : Type} `{PyNum F}
    (json_files : list (option (coco F))) (data data' : coco F)
    (img img' : image_info) :
  Some data ∈ json_files -> img ∈ images data ->
  Some data' ∈ json_files -> img' ∈ images data' ->
  let files := valid_files json_files in
  let sorted_codes := sorted (all_pill_codes files) in
  let code_to_id := class_mapping files in
  let pill_code := extract_pill_code (file_name img) in
  let class_id := default O (code_to_id !! pill_code) in
  code_to_id !! pill_code = Some class_id /\
  (class_id < length sorted_codes)%nat /\
  sorted_codes !! class_id = Some pill_code /\
  (class_id = default O (code_to_id !! extract_pill_code (file_name img'))
   <-> pill_code = extract_pill_code (file_name img')).
Proof.
  intros Hd Hi Hd' Hi' files sorted_codes code_to_id pill_code class_id.
  apply valid_files_elem in Hd, Hd'. fold files in Hd, Hd'.
  pose proof (sorted_codes_NoDup files) as Hnd. fold sorted_codes in Hnd.
  assert (Hres : forall d im, d ∈ files -> im ∈ images d ->
            exists i, sorted_codes !! i = Some (extract_pill_code (file_name im))
                      /\ code_to_id !! extract_pill_code (file_name im) = Some i).
  { intros d im Hdin Him.
    pose proof (pill_code_listed files d im Hdin Him) as Hin.
    apply list_elem_of_lookup_1 in Hin as [i Hl]. exists i.
    split; [exact Hl|]. now apply enumerate_codes_lookup. }
  destruct (Hres data img Hd Hi) as (i & Hl & Hm).
  destruct (Hres data' img' Hd' Hi') as (i' & Hl' & Hm').
  fold pill_code in Hl, Hm.
  assert (Hid : class_id = i) by (subst class_id; now rewrite Hm).
  rewrite Hm'. simpl. rewrite Hid.
  split; [exact Hm|]. split; [eapply lookup_lt_Some; exact Hl|].
  split; [exact Hl|]. split.
  - intros ->. congruence.
  - intros Heq. rewrite Heq in Hm. congruence.
Qed.

Lemma image_class_id_resolved_witness :
  let files := valid_files [Some (example_file Q)] in
  let code_to_id := class_mapping files in
  code_to_id !! "K-003544" = Some 1%nat /\
  (1 < length (sorted (all_pill_codes files)))%nat /\
  sorted (all_pill_codes files) !! 1%nat = Some "K-003544" /\
  (1%nat = default O (code_to_id !! "K-001900") <-> "K-003544" = "K-001900").
Proof.
  exact (image_class_id_resolved [Some (example_file Q)]
           (example_file Q) (example_file Q)
           (mkImage 2 "K-003544_0_2.png" 1000 1000)
           (mkImage 1 "K-001900_0_2.png" 1000 1000)
           ltac:(apply list_elem_of_here)
           ltac:(apply list_elem_of_further, list_elem_of_here)
           ltac:(apply list_elem_of_here)
           ltac:(apply list_elem_of_here)).
Defined.

End ClassMappingTheorems.

(** ** An image that has the size of the canvas *)

Section LetterboxExact.
Import Coco Converter.
Local Open Scope Q_scope.

Lemma Qtrunc_canvas (t : Z) (s : Q) :
  (0 < t)%Z -> s == 1 -> Qtrunc (inject_Z t * s) = t.
Proof.
  intros Ht Hs.
  assert (Hts : inject_Z t * s == inject_Z t) by (rewrite Hs; ring).
  rewrite Qtrunc_floor.
  - rewrite (Qfloor_comp _ _ Hts). apply Qfloor_Z.
  - rewrite Hts. apply Qlt_le_weak, inject_Z_pos, Ht.
Qed.

(** X6: an image that already has the canvas size is left as it is.  For
    a square image whose side is the target size the parameters are
    scale 1, the same size and no padding, and every box is remapped to
    itself: in exact arithmetic a second preprocessing pass changes
    neither the geometry nor the annotations of the first. *)
Theorem canvas_sized_image_unchanged (target : Z) (b : bbox Q) :
  (0 < target)%Z ->
  exists p : ResizeParams Q,
    calculate_resize_params target target target = Ok p /\
    scale p == 1 /\ new_size p = (target, target) /\ padding p = (0, 0)%Z /\
    target_size p = target /\
    let b' := update_bbox p b in
    bx b' == bx b /\ by_ b' == by_ b /\ bw b' == bw b /\ bh b' == bh b.
Proof.
  intros Ht. exists (the_params target target target).
  split; [apply calculate_resize_params_exact; assumption|].
  pose proof (inject_Z_pos target Ht) as Htq.
  assert (Hs : the_scale target target target == 1).
  { rewrite the_scale_min, Q.min_id. field. lra. }
  cbn [the_params update_bbox padding scale new_size target_size
       bx by_ bw bh fadd fmul of_int PyNum_Q].
  rewrite (Qtrunc_canvas target _ Ht Hs), Z.sub_diag.
  change (0 / 2)%Z with 0%Z. change (inject_Z 0) with 0.
  split; [exact Hs|]. split; [reflexivity|]. split; [reflexivity|].
  split; [reflexivity|]. cbv zeta. rewrite Hs.
  repeat split; ring.
Qed.

Lemma canvas_sized_image_unchanged_witness :
  exists p : ResizeParams Q,
    calculate_resize_params 1280 1280 1280 = Ok p /\
    scale p == 1 /\ new_size p = (1280, 1280)%Z /\ padding p = (0, 0)%Z /\
    target_size p = 1280%Z /\
    let b' := update_bbox p {| bx := 6; by_ := 166; bw := 219; bh := 25 |} in
    bx b' == 6 /\ by_ b' == 166 /\ bw b' == 219 /\ bh b' == 25.
Proof.
  apply (canvas_sized_image_unchanged 1280
           {| bx := 6; by_ := 166; bw := 219; bh := 25 |}). lia.
Defined.

(** The same call in binary64: scale 1.0 exactly, nothing moves. *)
Example canvas_sized_image_binary64 :
  calculate_resize_params (F:=float) 1280 1280 1280
  = Ok {| scale := 1%float; new_size := (1280, 1280)%Z;
          padding := (0, 0)%Z; target_size := 1280%Z |}.
Proof. vm_compute. reflexivity. Qed.

End LetterboxExact.

(** ** Grouping by a key *)

Section Grouping.
Import PyList.
Context {A : Type} (key : A -> string).

Implicit Types (l vs : list A) (groups : list (string * list A)).

(** The items of [l] that have the key [k], in their order. *)
Definition with_key (k : string) l : list A :=
  filter (fun v => key v = k) l.

Lemma with_key_snoc_same (k : string) l (v : A) :
  key v = k -> with_key k (l ++ [v]) = with_key k l ++ [v].
Proof.
  intros Hk. unfold with_key. rewrite filter_app. f_equal.
  now rewrite filter_cons_True.
Qed.

Lemma with_key_snoc_other (k : string) l (v : A) :
  key v <> k -> with_key k (l ++ [v]) = with_key k l.
Proof.
  intros Hk. unfold with_key. rewrite filter_app.
  rewrite (filter_cons_False _ v []) by assumption.
  apply app_nil_r.
Qed.

Lemma with_key_all (k : string) l :
  Forall (fun v => key v = k) l -> with_key k l = l.
Proof.
  intros Hall. apply filter_all. intros v Hv.
  rewrite Forall_forall in Hall. now apply Hall.
Qed.

Lemma with_key_none (k : string) l :
  Forall (fun v => key v <> k) l -> with_key k l = [].
Proof.
  intros Hall. apply filter_none. intros v Hv.
  rewrite Forall_forall in Hall. now apply Hall.
Qed.

Lemma with_key_Forall (k : string) l : Forall (fun v => key v = k) (with_key k l).
Proof.
  apply Forall_forall. intros v Hv.
  apply list_elem_of_filter in Hv. tauto.
Qed.

(** Each group holds the items of its key, and is not empty. *)
Definition group_of l (group : string * list A) : Prop :=
  group.2 = with_key group.1 l /\ group.2 <> [].

Lemma group_append_spec (k : string) (v : A) groups l :
  key v = k -> NoDup groups.*1 -> Forall (group_of l) groups ->
  (k ∉ groups.*1 -> with_key k l = []) ->
  NoDup (group_append k v groups).*1 /\
  Forall (group_of (l ++ [v])) (group_append k v groups) /\
  (forall k', k' ∈ (group_append k v groups).*1 <-> k' = k \/ k' ∈ groups.*1).
Proof.
  intros Hk. induction groups as [|[k' vs] rest IH]; intros Hnd Hall Hnew.
  - simpl. split; [apply NoDup_singleton|]. split.
    + constructor; [|constructor]. split; [|discriminate]. simpl.
      rewrite (with_key_snoc_same k l v Hk), Hnew; [reflexivity|].
      apply not_elem_of_nil.
    + intros k''. rewrite list_elem_of_singleton.
      split; [now left | intros [?|Hin]; [assumption|]].
      now apply elem_of_nil in Hin.
  - rewrite fmap_cons in Hnd. simpl in Hnd.
    apply NoDup_cons in Hnd as [Hnotin Hnd].
    apply Forall_cons in Hall as [[Hvs Hne] Hall]. simpl in Hvs, Hne.
    simpl. destruct (String.eqb_spec k' k) as [->|Hkk].
    + rewrite fmap_cons. simpl. split; [now apply NoDup_cons|]. split.
      * constructor.
        -- split; simpl.
           ++ now rewrite (with_key_snoc_same k l v Hk), Hvs.
           ++ intros E. now apply app_eq_nil in E as [_ E].
        -- apply Forall_forall. intros [k2 vs2] Hin.
           rewrite Forall_forall in Hall.
           destruct (Hall _ Hin) as [H1 H2]. simpl in *.
           split; [|exact H2]. simpl.
           rewrite with_key_snoc_other; [exact H1|].
           rewrite Hk. intros Heq. apply Hnotin.
           apply list_elem_of_fmap. exists (k2, vs2).
           split; [exact Heq | exact Hin].
      * intros k''. rewrite ?fmap_cons. simpl. rewrite !elem_of_cons. tauto.
    + destruct (IH Hnd Hall) as (IHnd & IHall & IHkeys).
      { intros Hout. apply Hnew. rewrite fmap_cons. simpl.
        apply not_elem_of_cons. split; [congruence | exact Hout]. }
      rewrite fmap_cons. simpl. split; [|split].
      * apply NoDup_cons. split; [|exact IHnd].
        rewrite IHkeys. intros [?|?]; [congruence | contradiction].
      * constructor; [|exact IHall]. split; [|exact Hne]. simpl.
        rewrite with_key_snoc_other; [exact Hvs | congruence].
      * intros k''. rewrite ?fmap_cons. simpl.
        rewrite !elem_of_cons, IHkeys. tauto.
Qed.

(** The groups built from [l]: one per key that occurs, each with the
    items of that key in their order. *)
Lemma group_by_spec l :
  NoDup (group_by key l).*1 /\
  Forall (group_of l) (group_by key l) /\
  (forall k, k ∈ (group_by key l).*1 <-> exists v, v ∈ l /\ key v = k).
Proof.
  unfold group_by.
  assert (Hgen : forall l' acc l0,
            NoDup acc.*1 -> Forall (group_of l0) acc ->
            (forall k, k ∈ acc.*1 <-> exists v, v ∈ l0 /\ key v = k) ->
            let groups :=
              foldl (fun groups v => group_append (key v) v groups) acc l' in
            NoDup groups.*1 /\ Forall (group_of (l0 ++ l')) groups /\
            (forall k, k ∈ groups.*1
                       <-> exists v, v ∈ l0 ++ l' /\ key v = k)).
  { induction l' as [|v l' IH]; intros acc l0 Hnd Hall Hkeys.
    - simpl. rewrite app_nil_r. auto.
    - simpl.
      destruct (group_append_spec (key v) v acc l0 eq_refl Hnd Hall)
        as (Hnd' & Hall' & Hkeys').
      { intros Hout. apply with_key_none, Forall_forall. intros w Hw Hkw.
        apply Hout, Hkeys. now exists w. }
      specialize (IH (group_append (key v) v acc) (l0 ++ [v]) Hnd' Hall').
      rewrite <- app_assoc in IH. simpl in IH. apply IH.
      intros k. rewrite Hkeys', Hkeys. split.
      + intros [->|(w & Hw & Hkw)].
        * exists v. split; [|reflexivity].
          apply elem_of_app. right. apply list_elem_of_here.
        * exists w. split; [|exact Hkw]. apply elem_of_app. now left.
      + intros (w & Hw & Hkw). apply elem_of_app in Hw as [Hw|Hw].
        * right. now exists w.
        * apply list_elem_of_singleton in Hw as ->. now left. }
  apply (Hgen l [] []).
  - constructor.
  - constructor.
  - intros k. split.
    + intros Hin. now apply elem_of_nil in Hin.
    + intros (v & Hv & _). now apply elem_of_nil in Hv.
Qed.

Lemma group_by_homogeneous l :
  Forall (fun group => Forall (fun v => key v = group.1) group.2)
         (group_by key l).
Proof.
  destruct (group_by_spec l) as (_ & Hall & _).
  eapply Forall_impl; [exact Hall|].
  intros [k vs] [Hvs _]. simpl in *. rewrite Hvs. apply with_key_Forall.
Qed.

(** There are as many groups as distinct keys. *)
Lemma group_by_length l :
  length (group_by key l) = length (remove_dups (map key l)).
Proof.
  destruct (group_by_spec l) as (Hnd & _ & Hkeys).
  rewrite <- (length_fmap fst (group_by key l)).
  apply Permutation_length, NoDup_Permutation;
    [exact Hnd | apply NoDup_remove_dups|].
  intros k. rewrite Hkeys, elem_of_remove_dups. split.
  - intros (v & Hv & <-). apply list_elem_of_In, in_map.
    now apply list_elem_of_In.
  - intros Hin. apply list_elem_of_In, in_map_iff in Hin as (v & Hk & Hv).
    exists v. split; [now apply list_elem_of_In | exact Hk].
Qed.

End Grouping.

(** ** The stratified split, class by class *)

Section SplitterShares.
Import PyRandom PyList Splitter.

(** The number of pairs of a pill code in a list. *)
Definition count_code (code : string) (l : list pair) : Z :=
  len (with_key pill_code code l).

Lemma count_code_app (code : string) (l k : list pair) :
  count_code code (l ++ k) = count_code code l + count_code code k.
Proof.
  unfold count_code, with_key. rewrite filter_app. apply len_app.
Qed.

Lemma count_code_Permutation (code : string) (l k : list pair) :
  l ≡ₚ k -> count_code code l = count_code code k.
Proof.
  intros Hp. unfold count_code, with_key, len.
  now rewrite Hp.
Qed.

Lemma count_code_same (code : string) (l : list pair) :
  Forall (fun p => pill_code p = code) l -> count_code code l = len l.
Proof. intros Hl. unfold count_code. now rewrite with_key_all. Qed.

Lemma count_code_other (code k : string) (l : list pair) :
  Forall (fun p => pill_code p = k) l -> code <> k -> count_code code l = 0.
Proof.
  intros Hl Hne. unfold count_code. rewrite with_key_none; [reflexivity|].
  eapply Forall_impl; [exact Hl|]. simpl. intros p -> E. now apply Hne.
Qed.

Lemma slice_len {A} (l : list A) (a b : Z) :
  0 <= a <= b ->
  len (slice l a b) = Z.min b (len l) - Z.min a (len l).
Proof.
  intros [Ha Hab]. unfold slice. rewrite !clamp_nonneg by lia.
  unfold len. rewrite length_take, length_drop. lia.
Qed.

Lemma slice_from_len {A} (l : list A) (b : Z) :
  0 <= b -> len (slice_from l b) = len l - Z.min b (len l).
Proof.
  intros Hb. unfold slice_from. rewrite clamp_nonneg by lia.
  unfold len. rewrite length_drop. lia.
Qed.

Lemma slices_Forall {A} (P : A -> Prop) (l : list A) (a b : Z) :
  Forall P l ->
  Forall P (slice_to l a) /\ Forall P (slice l a b) /\
  Forall P (slice_from l b).
Proof.
  intros Hl. unfold slice_to, slice, slice_from.
  split; [now apply Forall_take|].
  split; [now apply Forall_take, Forall_drop | now apply Forall_drop].
Qed.

(** What one class contributes to the three splits: the first
    [train_end] pairs of its shuffled group, the next [val_len], and the
    rest, each cut at the size [n] of the group. *)
Definition shares (n train_end val_len : Z) (train val test : Z) : Prop :=
  train = Z.min train_end n /\
  val = Z.min (train_end + val_len) n - Z.min train_end n /\
  test = n - Z.min (train_end + val_len) n.

Section Generic.
Context {F : Type} `{PyNum F}.

Lemma split_groups_shares (groups : list (string * list pair))
    (train_ratio val_ratio : F) (g : rng) :
  usable_ratio train_ratio -> usable_ratio val_ratio ->
  NoDup groups.*1 ->
  Forall (fun group => Forall (fun p => pill_code p = group.1) group.2)
         groups ->
  exists train val test g',
    split_groups groups train_ratio val_ratio g
      = Ok ((train, val, test), g') /\
    (forall code, code ∉ groups.*1 ->
       count_code code train = 0 /\ count_code code val = 0 /\
       count_code code test = 0) /\
    (forall code group_pairs, (code, group_pairs) ∈ groups ->
       exists train_end val_len,
         to_int (fmul (of_int (len group_pairs)) train_ratio) = Ok train_end /\
         to_int (fmul (of_int (len group_pairs)) val_ratio) = Ok val_len /\
         0 <= train_end /\ 0 <= val_len /\
         shares (len group_pairs) train_end val_len
                (count_code code train) (count_code code val)
                (count_code code test)).
Proof.
  intros Ht Hv. revert g.
  induction groups as [|[k vs] rest IH]; intros g Hnd Hhom.
  - exists [], [], [], g. split; [reflexivity|]. split.
    + intros code _. done.
    + intros code group_pairs Hin. now apply elem_of_nil in Hin.
  - rewrite fmap_cons in Hnd. simpl in Hnd.
    apply NoDup_cons in Hnd as [Hnotin Hnd].
    apply Forall_cons in Hhom as [Hk Hhom]. simpl in Hk.
    simpl.
    pose proof (shuffle_Permutation vs g) as Hsh.
    destruct (shuffle vs g) as [shuffled g1]. simpl in Hsh.
    assert (Hlen : len shuffled = len vs)
      by (unfold len; now rewrite Hsh).
    assert (Hks : Forall (fun p => pill_code p = k) shuffled)
      by (now rewrite Hsh).
    destruct (Ht (len shuffled)) as (te & Hte & Hte0); [unfold len; lia|].
    destruct (Hv (len shuffled)) as (vl & Hvl & Hvl0); [unfold len; lia|].
    rewrite Hte, Hvl. simpl.
    destruct (IH g1 Hnd Hhom) as (train & val & test & g2 & -> & Hout & Hin).
    simpl. do 4 eexists. split; [reflexivity|].
    destruct (slices_Forall _ shuffled te (te + vl) Hks) as (Hs1 & Hs2 & Hs3).
    split.
    + intros code Hcode. rewrite ?fmap_cons in Hcode. simpl in Hcode.
      apply not_elem_of_cons in Hcode as [Hne Hcode].
      destruct (Hout code Hcode) as (E1 & E2 & E3).
      rewrite !count_code_app, E1, E2, E3.
      rewrite (count_code_other code k _ Hs1 Hne),
              (count_code_other code k _ Hs2 Hne),
              (count_code_other code k _ Hs3 Hne). done.
    + intros code group_pairs Hmem.
      apply elem_of_cons in Hmem as [Heq|Hmem].
      * injection Heq as -> ->.
        destruct (Hout k Hnotin) as (E1 & E2 & E3).
        exists te, vl. rewrite <- Hlen.
        split; [exact Hte|]. split; [exact Hvl|].
        split; [exact Hte0|]. split; [exact Hvl0|].
        unfold shares. rewrite !count_code_app, E1, E2, E3, !Z.add_0_r.
        rewrite !count_code_same by assumption.
        rewrite slice_to_len, slice_len, slice_from_len by lia. done.
      * assert (Hne : code <> k).
        { intros ->. apply Hnotin. apply list_elem_of_fmap.
          now exists (k, group_pairs). }
        destruct (Hin code group_pairs Hmem)
          as (te' & vl' & Ete & Evl & H0 & H1 & Hsh').
        exists te', vl'. do 4 (split; [assumption|]).
        rewrite !count_code_app.
        rewrite (count_code_other code k _ Hs1 Hne),
                (count_code_other code k _ Hs2 Hne),
                (count_code_other code k _ Hs3 Hne). exact Hsh'.
Qed.

(** The shares of every pill code after [_stratified_split]. *)
Lemma stratified_split_shares (pairs : list pair)
    (train_ratio val_ratio test_ratio : F) (g : rng) :
  usable_ratio train_ratio -> usable_ratio val_ratio ->
  exists train val test g',
    _stratified_split pairs train_ratio val_ratio test_ratio g
      = Ok ((train, val, test), g') /\
    forall code,
      exists train_end val_len,
        to_int (fmul (of_int (count_code code pairs)) train_ratio)
          = Ok train_end /\
        to_int (fmul (of_int (count_code code pairs)) val_ratio)
          = Ok val_len /\
        0 <= train_end /\ 0 <= val_len /\
        shares (count_code code pairs) train_end val_len
               (count_code code train) (count_code code val)
               (count_code code test).
Proof.
  intros Ht Hv. unfold _stratified_split.
  destruct (group_by_spec pill_code pairs) as (Hnd & Hgroups & Hkeys).
  destruct (split_groups_shares (group_by pill_code pairs)
              train_ratio val_ratio g Ht Hv Hnd
              (group_by_homogeneous pill_code pairs))
    as (train & val & test & g1 & -> & Hout & Hin). simpl.
  pose proof (shuffle_Permutation train g1) as H1.
  destruct (shuffle train g1) as [train' g2].
  pose proof (shuffle_Permutation val g2) as H2.
  destruct (shuffle val g2) as [val' g3].
  pose proof (shuffle_Permutation test g3) as H3.
  destruct (shuffle test g3) as [test' g4]. simpl in *.
  do 4 eexists. split; [reflexivity|].
  intros code.
  rewrite (count_code_Permutation code _ _ H1),
          (count_code_Permutation code _ _ H2),
          (count_code_Permutation code _ _ H3).
  destruct (decide (code ∈ (group_by pill_code pairs).*1)) as [Hmem|Hnot].
  - apply list_elem_of_fmap in Hmem as ([k vs] & -> & Hmem). simpl.
    rewrite Forall_forall in Hgroups.
    destruct (Hgroups _ Hmem) as [Hvs _]. simpl in Hvs.
    destruct (Hin k vs Hmem) as (te & vl & Hres).
    exists te, vl. unfold count_code at 1 2 3. now rewrite <- Hvs.
  - destruct (Hout code Hnot) as (E1 & E2 & E3).
    assert (Hzero : count_code code pairs = 0).
    { unfold count_code. rewrite with_key_none; [reflexivity|].
      apply Forall_forall. intros p Hp Hkp. apply Hnot, Hkeys.
      now exists p. }
    rewrite Hzero, E1, E2, E3.
    destruct (Ht 0 ltac:(lia)) as (te & Hte & Hte0).
    destruct (Hv 0 ltac:(lia)) as (vl & Hvl & Hvl0).
    exists te, vl. do 4 (split; [assumption|]).
    unfold shares. lia.
Qed.

End Generic.

(** X7: the split is stratified.  For usable train and validation ratios
    every pill code with [n] pairs in the pool has exactly
    [min(int(n * train_ratio), n)] of them in the training list, the next
    [int(n * val_ratio)] (as far as the group reaches) in the validation
    list and all the others in the test list.  The test ratio takes no
    part: the result is the same for every value of it. *)
Theorem stratified_split_class_shares {F : Type} `{PyNum F}
    (pairs : list pair) (train_ratio val_ratio test_ratio : F) (g : rng) :
  usable_ratio train_ratio -> usable_ratio val_ratio ->
  (exists train val test g',
     _stratified_split pairs train_ratio val_ratio test_ratio g
       = Ok ((train, val, test), g') /\
     forall code,
       let n := count_code code pairs in
       exists train_end val_len,
         to_int (fmul (of_int n) train_ratio) = Ok train_end /\
         to_int (fmul (of_int n) val_ratio) = Ok val_len /\
         count_code code train = Z.min train_end n /\
         count_code code val
           = Z.min (train_end + val_len) n - Z.min train_end n /\
         count_code code test = n - Z.min (train_end + val_len) n) /\
  (forall other_ratio : F,
     _stratified_split pairs train_ratio val_ratio other_ratio g
     = _stratified_split pairs train_ratio val_ratio test_ratio g).
Proof.
  intros Ht Hv. split; [|reflexivity].
  destruct (stratified_split_shares pairs train_ratio val_ratio test_ratio g
              Ht Hv) as (train & val & test & g' & Heq & Hshares).
  exists train, val, test, g'. split; [exact Heq|].
  intros code. cbv zeta.
  destruct (Hshares code) as (te & vl & Hte & Hvl & _ & _ & Hs).
  exists te, vl. split; [exact Hte|]. split; [exact Hvl|]. exact Hs.
Qed.

Lemma stratified_split_class_shares_witness :
  let pairs := pool_of "003544" 4 ++ pool_of "001900" 10 in
  (exists train val test g',
     _stratified_split pairs (8 # 10)%Q (1 # 10)%Q (1 # 10)%Q fixed_source
       = Ok ((train, val, test), g') /\
     forall code,
       let n := count_code code pairs in
       exists train_end val_len,
         to_int (fmul (of_int n) (8 # 10)%Q) = Ok train_end /\
         to_int (fmul (of_int n) (1 # 10)%Q) = Ok val_len /\
         count_code code train = Z.min train_end n /\
         count_code code val
           = Z.min (train_end + val_len) n - Z.min train_end n /\
         count_code code test = n - Z.min (train_end + val_len) n) /\
  (forall other_ratio : Q,
     _stratified_split pairs (8 # 10)%Q (1 # 10)%Q other_ratio fixed_source
     = _stratified_split pairs (8 # 10)%Q (1 # 10)%Q (1 # 10)%Q fixed_source).
Proof.
  apply (stratified_split_class_shares
           (pool_of "003544" 4 ++ pool_of "001900" 10)
           (8 # 10)%Q (1 # 10)%Q (1 # 10)%Q fixed_source);
    apply nonneg_ratio_usable; vm_compute; discriminate.
Defined.

(** In exact arithmetic [int(n * ratio)] is 0 as long as [n * ratio] is
    below 1. *)
Lemma exact_cut_zero (n : Z) (r : Q) :
  0 <= n -> (0 <= r)%Q -> (inject_Z n * r < 1)%Q ->
  to_int (fmul (of_int n) r) = Ok 0.
Proof.
  intros Hn Hr Hlt. simpl. f_equal.
  assert (Hnq : (0 <= inject_Z n)%Q).
  { change 0%Q with (inject_Z 0). now rewrite <- Zle_Qle. }
  assert (Hnr : (0 <= inject_Z n * r)%Q) by now apply Qmult_le_0_compat.
  rewrite Qtrunc_floor by exact Hnr.
  pose proof (Qfloor_le (inject_Z n * r)) as Hlo.
  assert (Hf : (inject_Z (Qfloor (inject_Z n * r)) < inject_Z 1)%Q).
  { eapply Qle_lt_trans; [exact Hlo | exact Hlt]. }
  rewrite <- Zlt_Qlt in Hf.
  assert (H0 : (Qfloor 0 <= Qfloor (inject_Z n * r))%Z)
    by now apply Qfloor_resp_le.
  change (Qfloor 0) with 0%Z in H0. lia.
Qed.

(** In binary64, with the default ratios 0.8 and 0.1: [int(1 * 0.8)] is
    0, and [int(n * 0.1)] is 0 for every [n] below 10 and 1 for 10. *)
Lemma default_cuts_binary64 :
  to_int (fmul (F:=float) (of_int 1) 0x1.999999999999ap-1%float) = Ok 0 /\
  (forall n : Z, 0 <= n < 10 ->
     to_int (fmul (F:=float) (of_int n) 0x1.999999999999ap-4%float) = Ok 0) /\
  to_int (fmul (F:=float) (of_int 10) 0x1.999999999999ap-4%float) = Ok 1.
Proof.
  split; [vm_compute; reflexivity|]. split; [|vm_compute; reflexivity].
  intros n Hn.
  assert (Hk : (Z.to_nat n < 10)%nat) by lia.
  replace n with (Z.of_nat (Z.to_nat n)) by lia.
  clear Hn. revert Hk. generalize (Z.to_nat n). clear n. intros k Hk.
  do 10 (destruct k as [|k]; [vm_compute; reflexivity|]).
  lia.
Qed.

(** X8: a rare pill code can miss the training and the validation list.
    For usable ratios, a code with [n] pairs for which
    [int(n * train_ratio)] is 0 has no pair in the training list, one for
    which [int(n * val_ratio)] is 0 has none in the validation list, and
    when both are 0 all its pairs are in the test list.  In binary64 and
    with the default ratios 0.8 and 0.1 this is the case of a code with a
    single image (only tested on) and, for the validation list, of every
    code with fewer than ten images; in exact arithmetic, of every code
    with [n * ratio < 1]. *)
Theorem rare_code_misses_training {F : Type} `{PyNum F}
    (pairs : list pair) (train_ratio val_ratio test_ratio : F) (g : rng)
    (code : string) :
  usable_ratio train_ratio -> usable_ratio val_ratio ->
  (exists train val test g',
     _stratified_split pairs train_ratio val_ratio test_ratio g
       = Ok ((train, val, test), g') /\
     let n := count_code code pairs in
     (to_int (fmul (of_int n) train_ratio) = Ok 0 ->
      count_code code train = 0) /\
     (to_int (fmul (of_int n) val_ratio) = Ok 0 ->
      count_code code val = 0) /\
     (to_int (fmul (of_int n) train_ratio) = Ok 0 ->
      to_int (fmul (of_int n) val_ratio) = Ok 0 ->
      count_code code test = n)) /\
  to_int (fmul (F:=float) (of_int 1) 0x1.999999999999ap-1%float) = Ok 0 /\
  (forall n : Z, 0 <= n < 10 ->
     to_int (fmul (F:=float) (of_int n) 0x1.999999999999ap-4%float) = Ok 0) /\
  (forall (n : Z) (r : Q), 0 <= n -> (0 <= r)%Q -> (inject_Z n * r < 1)%Q ->
     to_int (fmul (of_int n) r) = Ok 0).
Proof.
  intros Ht Hv. split.
  - destruct (stratified_split_shares pairs train_ratio val_ratio test_ratio
                g Ht Hv) as (train & val & test & g' & Heq & Hshares).
    exists train, val, test, g'. split; [exact Heq|]. cbv zeta.
    destruct (Hshares code) as (te & vl & Hte & Hvl & Hte0 & Hvl0 & Hs).
    pose proof (len_nonneg (with_key pill_code code pairs)) as Hn.
    fold (count_code code pairs) in Hn.
    unfold shares in Hs. destruct Hs as (Etrain & Eval & Etest).
    rewrite Hte, Hvl. split; [|split].
    + intros [= ->]. lia.
    + intros [= ->]. lia.
    + intros [= ->] [= ->]. lia.
  - destruct default_cuts_binary64 as (Hone & Hten & _).
    split; [exact Hone|]. split; [exact Hten|]. exact exact_cut_zero.
Qed.

Lemma rare_code_misses_training_witness :
  exists train val test g',
    _stratified_split (pool_of "003544" 1 ++ pool_of "001900" 10)
      (8 # 10)%Q (1 # 10)%Q (1 # 10)%Q fixed_source
      = Ok ((train, val, test), g') /\
    count_code "003544" train = 0 /\ count_code "003544" val = 0 /\
    count_code "003544" test = 1.
Proof.
  destruct (rare_code_misses_training
              (pool_of "003544" 1 ++ pool_of "001900" 10)
              (8 # 10)%Q (1 # 10)%Q (1 # 10)%Q fixed_source "003544")
    as ((train & val & test & g' & Heq & Htrain & Hval & Htest) & _);
    [apply nonneg_ratio_usable; vm_compute; discriminate
    |apply nonneg_ratio_usable; vm_compute; discriminate|].
  exists train, val, test, g'. split; [exact Heq|].
  split; [apply Htrain; vm_compute; reflexivity|].
  split; [apply Hval; vm_compute; reflexivity|].
  rewrite Htest by (vm_compute; reflexivity). vm_compute. reflexivity.
Defined.

(** The default ratios in binary64 on a single image and on a group of
    nine: the single image is only tested on, the nine are not validated
    on. *)
Example rare_codes_default_ratios_binary64 :
  (exists train val test g',
     _stratified_split (pool_of "003544" 1)
       0x1.999999999999ap-1%float 0x1.999999999999ap-4%float
       0x1.999999999999ap-4%float fixed_source
       = Ok ((train, val, test), g') /\
     (length train, length val, length test) = (0, 0, 1)%nat) /\
  (exists train val test g',
     _stratified_split (pool_of "001900" 9)
       0x1.999999999999ap-1%float 0x1.999999999999ap-4%float
       0x1.999999999999ap-4%float fixed_source
       = Ok ((train, val, test), g') /\
     (length train, length val, length test) = (7, 0, 2)%nat).
Proof.
  split; do 4 eexists; (split; [vm_compute; reflexivity | reflexivity]).
Qed.

End SplitterShares.

(** ** More on the sampling strategies *)

Section SamplerExtras.
Import PyRandom PyList Sampler SamplerFiles.
Local Open Scope string_scope.

Implicit Types (pairs : list pair) (g : rng).

(** *** The quality strategy takes the largest files *)

(** [x] is at least as large as [y]. *)
Definition size_ge (x y : pair * Z) : Prop := y.2 <= x.2.

Lemma insert_desc_sorted (x : pair * Z) (l : list (pair * Z)) :
  StronglySorted size_ge l -> StronglySorted size_ge (insert_desc x l).
Proof.
  induction 1 as [|y l Hl IH Hy]; simpl.
  - repeat constructor.
  - destruct (Z.ltb_spec x.2 y.2) as [Hlt|Hge].
    + constructor; [exact IH|].
      rewrite insert_desc_Permutation. constructor; [|exact Hy].
      unfold size_ge. lia.
    + constructor; [now constructor|].
      constructor; [exact Hge|].
      eapply Forall_impl; [exact Hy|]. unfold size_ge. intros z Hz. lia.
Qed.

Lemma sort_desc_sorted (l : list (pair * Z)) :
  StronglySorted size_ge (sort_desc l).
Proof.
  induction l as [|x l IH]; simpl; [constructor|].
  now apply insert_desc_sorted.
Qed.

Lemma sorted_app_inv {A} (R : A -> A -> Prop) (l1 l2 : list A) :
  StronglySorted R (l1 ++ l2) ->
  StronglySorted R l1 /\
  (forall x y, x ∈ l1 -> y ∈ l2 -> R x y).
Proof.
  induction l1 as [|a l1 IH]; simpl; intros Hs.
  - split; [constructor|]. intros x y Hx. now apply elem_of_nil in Hx.
  - apply StronglySorted_inv in Hs as [Hs Ha].
    destruct (IH Hs) as [IH1 IH2].
    apply Forall_app in Ha as [Ha1 Ha2].
    split; [now constructor|].
    intros x y Hx Hy. apply elem_of_cons in Hx as [->|Hx].
    + rewrite Forall_forall in Ha2. now apply Ha2.
    + now apply IH2.
Qed.

Lemma sorted_fmap {A B} (R : A -> A -> Prop) (R' : B -> B -> Prop)
    (f : A -> B) (l : list A) :
  (forall x y, x ∈ l -> y ∈ l -> R x y -> R' (f x) (f y)) ->
  StronglySorted R l -> StronglySorted R' (map f l).
Proof.
  intros Hf Hs. induction Hs as [|a l Hl IH Ha]; simpl; [constructor|].
  constructor.
  - apply IH. intros x y Hx Hy. apply Hf; now apply list_elem_of_further.
  - apply Forall_forall. intros b Hb.
    apply list_elem_of_In, in_map_iff in Hb as (x & <- & Hx).
    apply list_elem_of_In in Hx. apply Hf.
    + apply list_elem_of_here.
    + now apply list_elem_of_further.
    + rewrite Forall_forall in Ha. now apply Ha.
Qed.

Section Quality.
Variable getsize : string -> Z.

(** The length of the selection: the slice bound is clamped as a Python
    slice bound is. *)
Lemma quality_sample_length pairs (target_size : Z) :
  len (_quality_sample getsize pairs target_size)
  = if (target_size <? 0)%Z then Z.max 0 (len pairs + target_size)
    else Z.min target_size (len pairs).
Proof.
  unfold _quality_sample, slice_to, len.
  rewrite length_map, length_take.
  pose proof (sort_desc_Permutation
                (map (fun p => (p, getsize (image p))) pairs)) as Hperm.
  apply Permutation_length in Hperm. rewrite length_map in Hperm.
  unfold clamp, len. rewrite Hperm.
  destruct (Z.ltb_spec target_size 0); lia.
Qed.

(** X9: the quality strategy returns the largest image files, largest
    first.  The pool is the selection together with the pairs left out,
    no left-out image is larger than a selected one, and the selection is
    in descending order of size.  It holds [min(target_size, len(pairs))]
    pairs for a non-negative target; a negative target is not refused but
    read as a slice bound from the end, so that all pairs but the
    [-target_size] smallest are returned. *)
Theorem quality_sample_takes_largest pairs (target_size : Z) :
  let selected := _quality_sample getsize pairs target_size in
  let size (p : pair) := getsize (image p) in
  (exists rest,
     pairs ≡ₚ selected ++ rest /\
     forall p q, p ∈ selected -> q ∈ rest -> size q <= size p) /\
  StronglySorted (fun p q => size q <= size p) selected /\
  (0 <= target_size -> len selected = Z.min target_size (len pairs)) /\
  (target_size < 0 -> len selected = Z.max 0 (len pairs + target_size)).
Proof.
  intros selected size. subst selected. unfold _quality_sample.
  set (pairs_with_size := map (fun p => (p, getsize (image p))) pairs).
  set (ordered := sort_desc pairs_with_size).
  assert (Hperm : ordered ≡ₚ pairs_with_size) by apply sort_desc_Permutation.
  assert (Hsize : forall x, x ∈ ordered -> x.2 = size x.1).
  { intros x Hx. rewrite Hperm in Hx. subst pairs_with_size.
    apply list_elem_of_In, in_map_iff in Hx as (p & <- & _). reflexivity. }
  assert (Hlen : len ordered = len pairs).
  { unfold len. rewrite Hperm. subst pairs_with_size.
    now rewrite length_map. }
  unfold slice_to. set (k := clamp ordered target_size).
  pose proof (sort_desc_sorted pairs_with_size) as Hsorted.
  fold ordered in Hsorted.
  rewrite <- (take_drop k ordered) in Hsorted.
  destruct (sorted_app_inv _ _ _ Hsorted) as [Htake Hcross].
  split; [|split; [|split]].
  - exists (map fst (drop k ordered)). split.
    + rewrite <- map_app, take_drop.
      change (map fst ordered) with (fst <$> ordered). rewrite Hperm.
      subst pairs_with_size.
      change (map ?f ?l) with (f <$> l).
      rewrite <- list_fmap_compose. simpl. now rewrite list_fmap_id.
    + intros p q Hp Hq.
      apply list_elem_of_In, in_map_iff in Hp as (x & <- & Hx).
      apply list_elem_of_In, in_map_iff in Hq as (y & <- & Hy).
      apply list_elem_of_In in Hx, Hy.
      specialize (Hcross x y Hx Hy). unfold size_ge in Hcross.
      rewrite <- (Hsize x), <- (Hsize y); [exact Hcross| |].
      * rewrite <- (take_drop k ordered). apply elem_of_app. now right.
      * rewrite <- (take_drop k ordered). apply elem_of_app. now left.
  - eapply sorted_fmap; [|exact Htake].
    intros x y Hx Hy Hxy. unfold size_ge in Hxy.
    rewrite <- (Hsize x), <- (Hsize y); [exact Hxy| |].
    + rewrite <- (take_drop k ordered). apply elem_of_app. now left.
    + rewrite <- (take_drop k ordered). apply elem_of_app. now left.
  - intros Ht. unfold len at 1. rewrite length_map, length_take.
    subst k. unfold clamp. destruct (Z.ltb_spec target_size 0); [lia|].
    unfold len in *. lia.
  - intros Ht. unfold len at 1. rewrite length_map, length_take.
    subst k. unfold clamp. destruct (Z.ltb_spec target_size 0); [|lia].
    unfold len in *. lia.
Qed.

(** Five files of sizes 30, 10, 50, 20, 40: the three largest. *)
Example quality_sample_three_of_five :
  let size_of (path : string) : Z :=
    match path with
    | "a.png" => 30 | "b.png" => 10 | "c.png" => 50
    | "d.png" => 20 | _ => 40
    end in
  map name
    (_quality_sample size_of
       (map (fun n => mkPair (n +:+ ".png") (n +:+ ".json") n)
            ["a"; "b"; "c"; "d"; "e"]) 3)
  = ["c"; "e"; "a"].
Proof. vm_compute. reflexivity. Qed.

(** *** Negative sizes *)

(** X10: a negative size is refused by the random draw only.  With
    [train_size < 0] the random strategy (every strategy name other than
    "balanced" and "quality") raises [ValueError], and so does the
    balanced strategy on a non-empty pool, where one pair per group is
    drawn first; the quality strategy returns without an error; and
    [_extract_test_files] raises [ValueError] for a negative
    [test_size]. *)
Theorem negative_size_outcome pairs (size : Z) (strategy : string) g
    (test_images : list string) :
  size < 0 ->
  (strategy <> "balanced" -> strategy <> "quality" ->
   _extract_train_pairs getsize pairs size strategy g = Raise ValueError) /\
  (pairs <> [] ->
   _extract_train_pairs getsize pairs size "balanced" g = Raise ValueError) /\
  (exists selected,
     _extract_train_pairs getsize pairs size "quality" g = Ok (selected, g) /\
     len selected = Z.max 0 (len pairs + size)) /\
  _extract_test_files test_images size g = Raise ValueError.
Proof.
  intros Hneg. split; [|split; [|split]].
  - intros Hnb Hnq. unfold _extract_train_pairs.
    destruct (String.eqb_spec strategy "balanced"); [contradiction|].
    destruct (String.eqb_spec strategy "quality"); [contradiction|].
    apply sample_raises. left. pose proof (len_nonneg pairs). lia.
  - intros Hne. unfold _extract_train_pairs. simpl.
    unfold _balanced_sample.
    pose proof (group_by_nonempty pill_code pairs Hne) as Hg.
    set (groups := group_by pill_code pairs) in *.
    assert (Hlen : 0 < len groups).
    { unfold len. destruct groups; [done | simpl; lia]. }
    destruct (Z.eqb_spec (len groups) 0) as [E|_]; [lia|].
    destruct (sample_groups_spec (Z.max 1 (size / len groups)) groups g
                ltac:(lia)) as (selected & g1 & -> & _).
    simpl. pose proof (len_nonneg selected) as Hsel.
    destruct (Z.ltb_spec (len selected) size); [lia|].
    destruct (Z.ltb_spec size (len selected)); [|lia].
    apply sample_raises. now left.
  - eexists. split; [reflexivity|].
    rewrite quality_sample_length.
    destruct (Z.ltb_spec size 0); [reflexivity | lia].
  - unfold _extract_test_files. apply sample_raises. left.
    pose proof (len_nonneg test_images). lia.
Qed.

End Quality.

Lemma negative_size_outcome_witness :
  _extract_train_pairs size_by_name_length seven_pairs (-2) "random"
    fixed_source = Raise ValueError /\
  _extract_train_pairs size_by_name_length seven_pairs (-2) "balanced"
    fixed_source = Raise ValueError /\
  (exists selected,
     _extract_train_pairs size_by_name_length seven_pairs (-2) "quality"
       fixed_source = Ok (selected, fixed_source) /\
     len selected = 5) /\
  _extract_test_files ["t1.png"; "t2.png"] (-2) fixed_source
  = Raise ValueError.
Proof.
  destruct (negative_size_outcome size_by_name_length seven_pairs (-2)
              "random" fixed_source ["t1.png"; "t2.png"] ltac:(lia))
    as (Hrandom & Hbalanced & Hquality & Htest).
  split; [apply Hrandom; discriminate|].
  split; [apply Hbalanced; discriminate|].
  split; [exact Hquality | exact Htest].
Defined.

(** *** The balanced strategy reaches every class *)

(** The number of pairs of a class key in a list. *)
Definition count_key (code : string) pairs : Z :=
  len (with_key pill_code code pairs).

Lemma count_key_app (code : string) pairs (more : list pair) :
  count_key code (pairs ++ more) = count_key code pairs + count_key code more.
Proof.
  unfold count_key, with_key. rewrite filter_app. apply len_app.
Qed.

Lemma count_key_nonneg (code : string) pairs : 0 <= count_key code pairs.
Proof. apply len_nonneg. Qed.

Lemma submseteq_Forall {A} (P : A -> Prop) (l k : list A) :
  l ⊆+ k -> Forall P k -> Forall P l.
Proof.
  intros Hsub Hk. apply Forall_forall. intros x Hx.
  rewrite Forall_forall in Hk. apply Hk.
  eapply elem_of_submseteq; eassumption.
Qed.

(** The per-group draws take [min(samples_per_group, len(group))] pairs
    of every group. *)
Lemma sample_groups_counts (samples_per_group : Z)
    (groups : list (string * list pair)) g :
  0 <= samples_per_group -> NoDup groups.*1 ->
  Forall (fun group => Forall (fun p => pill_code p = group.1) group.2)
         groups ->
  exists selected g',
    sample_groups samples_per_group groups g = Ok (selected, g') /\
    len selected <= samples_per_group * len groups /\
    (forall code, code ∉ groups.*1 -> count_key code selected = 0) /\
    (forall code group_pairs, (code, group_pairs) ∈ groups ->
       count_key code selected = Z.min samples_per_group (len group_pairs)).
Proof.
  intros Hs. revert g.
  induction groups as [|[k vs] rest IH]; intros g Hnd Hhom.
  - exists [], g. split; [reflexivity|]. split; [unfold len; simpl; lia|].
    split; [done|]. intros code group_pairs Hin.
    now apply elem_of_nil in Hin.
  - rewrite fmap_cons in Hnd. simpl in Hnd.
    apply NoDup_cons in Hnd as [Hnotin Hnd].
    apply Forall_cons in Hhom as [Hk Hhom]. simpl in Hk. simpl.
    destruct (sample_spec vs (Z.min samples_per_group (len vs)) g)
      as (picked & g1 & -> & Hlen & Hsub).
    { pose proof (len_nonneg vs). lia. }
    simpl.
    destruct (IH g1 Hnd Hhom) as (more & g2 & -> & Hbound & Hout & Hin).
    simpl. exists (picked ++ more)%list, g2. split; [reflexivity|].
    pose proof (submseteq_Forall _ _ _ Hsub Hk) as Hpk.
    assert (Hsame : count_key k picked = len picked).
    { unfold count_key. now rewrite with_key_all. }
    assert (Hother : forall code, code <> k -> count_key code picked = 0).
    { intros code Hne. unfold count_key.
      rewrite with_key_none; [reflexivity|].
      eapply Forall_impl; [exact Hpk|]. simpl. intros p -> E. now apply Hne. }
    split; [|split].
    + rewrite len_app, Hlen.
      replace (len ((k, vs) :: rest)) with (1 + len rest)
        by (unfold len; simpl length; lia).
      lia.
    + intros code Hcode. rewrite ?fmap_cons in Hcode. simpl in Hcode.
      apply not_elem_of_cons in Hcode as [Hne Hcode].
      rewrite count_key_app, (Hother code Hne), (Hout code Hcode). lia.
    + intros code group_pairs Hmem.
      apply elem_of_cons in Hmem as [Heq|Hmem].
      * injection Heq as -> ->.
        rewrite count_key_app, Hsame, Hlen, (Hout k Hnotin). lia.
      * assert (Hne : code <> k).
        { intros ->. apply Hnotin. apply list_elem_of_fmap.
          now exists (k, group_pairs). }
        rewrite count_key_app, (Hother code Hne). simpl.
        now apply Hin.
Qed.

(** X11: with a target of at least the number of class keys the balanced
    strategy leaves no class out.  It returns a selection in which every
    class key of the pool has at least
    [min(target_size // classes, its pairs in the pool)] pairs, hence at
    least one. *)
Theorem balanced_sample_covers_classes pairs (target_size : Z) g :
  let classes := remove_dups (map pill_code pairs) in
  pairs <> [] -> len classes <= target_size ->
  exists selected g',
    _balanced_sample pairs target_size g = Ok (selected, g') /\
    forall code, code ∈ classes ->
      Z.min (target_size / len classes) (count_key code pairs)
        <= count_key code selected /\
      1 <= count_key code selected.
Proof.
  intros classes Hne Htarget. unfold _balanced_sample.
  destruct (group_by_spec pill_code pairs) as (Hnd & Hgroups & Hkeys).
  pose proof (group_by_length pill_code pairs) as Hcount.
  pose proof (group_by_nonempty pill_code pairs Hne) as Hg.
  set (groups := group_by pill_code pairs) in *.
  assert (Hlen : len groups = len classes).
  { unfold len. subst classes. now rewrite Hcount. }
  assert (Hpos : 0 < len groups).
  { unfold len. destruct groups; [done | simpl; lia]. }
  rewrite <- Hlen in *.
  destruct (Z.eqb_spec (len groups) 0) as [E|_]; [lia|].
  assert (Hspg : 1 <= target_size / len groups)
    by (apply Z.div_le_lower_bound; lia).
  replace (Z.max 1 (target_size / len groups))
    with (target_size / len groups) by lia.
  set (spg := target_size / len groups) in *.
  destruct (sample_groups_counts spg groups g ltac:(lia) Hnd
              (group_by_homogeneous pill_code pairs))
    as (selected & g1 & -> & Hbound & _ & Hin).
  simpl.
  assert (Hfit : len selected <= target_size).
  { pose proof (Z.mul_div_le target_size (len groups) Hpos).
    subst spg. lia. }
  assert (Hcover : forall code, code ∈ classes ->
            Z.min spg (count_key code pairs) <= count_key code selected /\
            1 <= count_key code selected).
  { intros code Hcode.
    assert (Hmem : code ∈ groups.*1).
    { apply Hkeys. subst classes. rewrite elem_of_remove_dups in Hcode.
      apply list_elem_of_In, in_map_iff in Hcode as (p & Hp & Hin').
      exists p. split; [now apply list_elem_of_In | exact Hp]. }
    apply list_elem_of_fmap in Hmem as ([k vs] & -> & Hmem). simpl.
    rewrite Forall_forall in Hgroups.
    destruct (Hgroups _ Hmem) as [Hvs Hvsne]. simpl in Hvs, Hvsne.
    rewrite (Hin k vs Hmem). unfold count_key. rewrite <- Hvs.
    split; [lia|].
    assert (1 <= len vs) by (unfold len; destruct vs; [done | simpl; lia]).
    lia. }
  destruct (Z.ltb_spec (len selected) target_size) as [Hlt|Hge].
  - destruct (sample_groups_spec spg groups g ltac:(lia))
      as (selected' & g1' & Heq' & Hsub).
    set (remaining := filter (fun p => p ∉ selected) pairs).
    destruct (sample_spec remaining
                (Z.min (target_size - len selected) (len remaining)) g1)
      as (additional & g2 & -> & _ & _).
    { pose proof (len_nonneg remaining). lia. }
    simpl. exists (selected ++ additional)%list, g2. split; [reflexivity|].
    intros code Hcode. destruct (Hcover code Hcode) as [H1 H2].
    rewrite count_key_app. pose proof (count_key_nonneg code additional).
    lia.
  - destruct (Z.ltb_spec target_size (len selected)) as [Hgt|_]; [lia|].
    exists selected, g1. split; [reflexivity|]. exact Hcover.
Qed.

Lemma balanced_sample_covers_classes_witness :
  exists selected g',
    _balanced_sample seven_pairs 5 fixed_source = Ok (selected, g') /\
    forall code, code ∈ ["001900"; "003544"; "016551"] ->
      Z.min 1 (count_key code seven_pairs) <= count_key code selected /\
      1 <= count_key code selected.
Proof.
  destruct (balanced_sample_covers_classes seven_pairs 5 fixed_source)
    as (selected & g' & Heq & Hall);
    [discriminate | vm_compute; discriminate |].
  exists selected, g'. split; [exact Heq|].
  intros code Hcode. apply Hall.
  apply elem_of_remove_dups.
  repeat (apply elem_of_cons in Hcode as [->|Hcode];
          [apply list_elem_of_In; vm_compute; tauto|]).
  now apply elem_of_nil in Hcode.
Defined.

End SamplerExtras.

(** ** From [classes.txt] to [dataset.yaml] *)

Section ClassesRoundTrip.
Import Coco Converter PyText DatasetYaml.

(** A printable ASCII character other than the space. *)
Definition printable (c : ascii) : bool :=
  (33 <=? nat_of_ascii c)%nat && (nat_of_ascii c <=? 126)%nat.

Fixpoint all_printable (s : string) : bool :=
  match s with
  | EmptyString => true
  | String c s' => printable c && all_printable s'
  end.

(** A non-empty string of such characters. *)
Definition plain (s : string) : bool :=
  match s with
  | EmptyString => false
  | String _ _ => all_printable s
  end.

Lemma printable_not_newline (c : ascii) :
  printable c = true ->
  Ascii.eqb c newline = false /\ Ascii.eqb c carriage_return = false.
Proof.
  intros Hc. split.
  - destruct (Ascii.eqb_spec c newline) as [->|]; [discriminate | reflexivity].
  - destruct (Ascii.eqb_spec c carriage_return) as [->|];
      [discriminate | reflexivity].
Qed.

Lemma append_cons (x : ascii) (a b : string) :
  String x a +:+ b = String x (a +:+ b).
Proof. reflexivity. Qed.

Lemma append_nil (b : string) : EmptyString +:+ b = b.
Proof. reflexivity. Qed.

Lemma string_app_assoc (a b c : string) : (a +:+ b) +:+ c = a +:+ (b +:+ c).
Proof.
  induction a as [|x a IH]; [reflexivity|].
  rewrite !append_cons. f_equal. exact IH.
Qed.

Lemma string_app_nil_r (a : string) : a +:+ EmptyString = a.
Proof.
  induction a as [|x a IH]; [reflexivity|].
  rewrite append_cons. f_equal. exact IH.
Qed.

(** A line of printable characters is read back as it was written. *)
Lemma readlines_line (line rest : string) :
  all_printable line = true ->
  readlines (line +:+ String newline rest)
  = (line +:+ String newline EmptyString) :: readlines rest.
Proof.
  induction line as [|c line IH]; intros Hp.
  - reflexivity.
  - simpl in Hp. apply andb_true_iff in Hp as [Hc Hline].
    rewrite !append_cons. simpl.
    destruct (printable_not_newline c Hc) as [-> ->].
    now rewrite (IH Hline).
Qed.

Lemma plain_all_printable (s : string) : plain s = true -> all_printable s = true.
Proof. destruct s; [discriminate | trivial]. Qed.

Lemma readlines_text_of (lines : list string) :
  Forall (fun line => plain line = true) lines ->
  readlines (text_of lines)
  = map (fun line => line +:+ String newline EmptyString) lines.
Proof.
  induction 1 as [|line lines Hline _ IH]; [reflexivity|].
  simpl text_of. rewrite readlines_line by now apply plain_all_printable.
  simpl map. f_equal. exact IH.
Qed.

(** *** Stripping a written line *)

Lemma reverse_app (a b : string) :
  reverse (a +:+ b) = reverse b +:+ reverse a.
Proof.
  induction a as [|x a IH].
  - rewrite append_nil. simpl. now rewrite string_app_nil_r.
  - rewrite append_cons. simpl. rewrite IH. apply string_app_assoc.
Qed.

Lemma reverse_involutive (a : string) : reverse (reverse a) = a.
Proof.
  induction a as [|x a IH]; [reflexivity|].
  simpl. rewrite reverse_app, IH. reflexivity.
Qed.

Lemma all_printable_app (a b : string) :
  all_printable (a +:+ b) = all_printable a && all_printable b.
Proof.
  induction a as [|x a IH]; [reflexivity|].
  rewrite append_cons. simpl. now rewrite IH, andb_assoc.
Qed.

Lemma all_printable_reverse (a : string) :
  all_printable (reverse a) = all_printable a.
Proof.
  induction a as [|x a IH]; simpl; [reflexivity|].
  rewrite all_printable_app, IH. simpl.
  rewrite andb_true_r. apply andb_comm.
Qed.

Lemma reverse_plain (a : string) :
  plain a = true -> plain (reverse a) = true.
Proof.
  intros Ha. pose proof (plain_all_printable a Ha) as Hall.
  rewrite <- all_printable_reverse in Hall.
  destruct a as [|x a]; [discriminate|].
  simpl in *. destruct (reverse a); simpl in *; exact Hall.
Qed.

(** No item of [ws] starts with [c]. *)
Definition none_starts_with (c : ascii) (ws : list string) : bool :=
  forallb (fun w => match w with
                    | EmptyString => false
                    | String a _ => negb (Ascii.eqb a c)
                    end) ws.

Lemma drop_first_none (c : ascii) (ws : list string) (s : string) :
  none_starts_with c ws = true -> drop_first ws (String c s) = None.
Proof.
  induction ws as [|w ws IH]; simpl; [reflexivity|].
  intros Hw. apply andb_true_iff in Hw as [Hw Hws].
  destruct w as [|a w]; [discriminate|]. simpl.
  apply negb_true_iff in Hw. rewrite Hw. now apply IH.
Qed.

Lemma printable_no_whitespace (c : ascii) :
  printable c = true ->
  none_starts_with c whitespace = true /\
  none_starts_with c (map reverse whitespace) = true.
Proof.
  destruct c as [b0 b1 b2 b3 b4 b5 b6 b7].
  destruct b0, b1, b2, b3, b4, b5, b6, b7; vm_compute;
    first [discriminate | intros _; split; reflexivity].
Qed.

Lemma lstrip_upto_head (fuel : nat) (ws : list string) (c : ascii)
    (s : string) :
  none_starts_with c ws = true ->
  lstrip_upto fuel ws (String c s) = String c s.
Proof.
  intros Hws. destruct fuel as [|fuel]; [reflexivity|]. simpl.
  now rewrite (drop_first_none c ws s Hws).
Qed.

Lemma string_length_snoc (s : string) (c : ascii) :
  String.length (s +:+ String c EmptyString) = S (String.length s).
Proof.
  induction s as [|x s IH]; [reflexivity|].
  rewrite append_cons. simpl. now rewrite IH.
Qed.

Lemma drop_line_end (s : string) :
  drop_first (map reverse whitespace) (String newline s) = Some s.
Proof. reflexivity. Qed.

(** A plain line with its line end strips to the line. *)
Lemma strip_written_line (line : string) :
  plain line = true -> strip (line +:+ String newline EmptyString) = line.
Proof.
  intros Hline. unfold strip, lstrip, rstrip.
  pose proof (reverse_plain line Hline) as Hrev.
  destruct line as [|c line]; [discriminate|].
  assert (Hc : printable c = true).
  { simpl in Hline. now apply andb_true_iff in Hline as [Hc _]. }
  change (String c line +:+ String newline EmptyString)
    with (String c (line +:+ String newline EmptyString)).
  rewrite lstrip_upto_head by apply (printable_no_whitespace c Hc).
  change (String c (line +:+ String newline EmptyString))
    with (String c line +:+ String newline EmptyString).
  rewrite reverse_app, string_length_snoc.
  change (reverse (String newline EmptyString) +:+ reverse (String c line))
    with (String newline (reverse (String c line))).
  cbn [lstrip_upto]. rewrite drop_line_end.
  destruct (reverse (String c line)) as [|d r] eqn:Hr; [discriminate|].
  assert (Hd : printable d = true).
  { simpl in Hrev. now apply andb_true_iff in Hrev as [Hd _]. }
  rewrite lstrip_upto_head by apply (printable_no_whitespace d Hd).
  rewrite <- Hr. apply reverse_involutive.
Qed.

Lemma read_class_names_written (codes : list string) :
  Forall (fun code => plain code = true) codes ->
  read_class_names (text_of codes) = codes.
Proof.
  intros Hcodes. unfold read_class_names.
  rewrite (readlines_text_of codes Hcodes), map_map.
  induction Hcodes as [|code codes Hcode _ IH]; [reflexivity|].
  simpl map. rewrite (strip_written_line code Hcode).
  rewrite filter_cons_True by (destruct code; [discriminate | done]).
  f_equal. exact IH.
Qed.

Lemma listed_pill_code {F : Type} `{PyNum F} (files : list (coco F))
    (code : string) :
  code ∈ sorted (all_pill_codes files) ->
  exists data img, data ∈ files /\ img ∈ images data /\
                   code = extract_pill_code (file_name img).
Proof.
  rewrite sorted_Permutation. unfold all_pill_codes.
  rewrite elem_of_remove_dups. intros Hin.
  apply list_elem_of_In, in_flat_map in Hin as (data & Hd & Hin).
  apply in_map_iff in Hin as (img & Hcode & Hi).
  exists data, img. split; [now apply list_elem_of_In|].
  split; [now apply list_elem_of_In | now symmetry].
Qed.

(** X12: [dataset.yaml] names the classes as the conversion numbered
    them.  When every pill code is a non-empty string of printable ASCII
    characters without blanks, the class names that
    [_create_dataset_yaml] reads from the [classes.txt] written by a
    successful conversion are its lines, [nc] is the number of classes of
    the summary, and [names[i]] is the code whose class id is [i]: the
    class id in the label file of an image indexes the pill code of that
    image. *)
Theorem class_names_round_trip {F : Type} `{PyNum F}
    (json_files : list (option (coco F))) (s : summary)
    (abs_output_path : string) :
  (convert_coco_to_yolo json_files).2 = Ok (Some s) ->
  (forall data img, Some data ∈ json_files -> img ∈ images data ->
     plain (extract_pill_code (file_name img)) = true) ->
  exists codes,
    head (convert_coco_to_yolo json_files).1
      = Some ("classes.txt"%string, codes) /\
    let config := _create_dataset_yaml (Some (text_of codes))
                                       abs_output_path in
    names config = codes /\
    nc config = total_classes s /\
    (forall (code : string) (i : nat),
       code_to_id_of s !! code = Some i <-> names config !! i = Some code) /\
    (forall data img, Some data ∈ json_files -> img ∈ images data ->
       names config
         !! default O (code_to_id_of s !! extract_pill_code (file_name img))
       = Some (extract_pill_code (file_name img))).
Proof.
  intros Hs Hplain.
  destruct (convert_summary json_files s Hs) as (Hmap & Htotal & Hhead).
  set (files := valid_files json_files) in *.
  set (codes := sorted (all_pill_codes files)) in *.
  exists codes. split; [exact Hhead|].
  assert (Hcodes : Forall (fun code => plain code = true) codes).
  { apply Forall_forall. intros code Hcode.
    destruct (listed_pill_code files code Hcode) as (data & img & Hd & Hi & ->).
    apply (Hplain data img); [|exact Hi]. now apply valid_files_elem. }
  cbv zeta. unfold _create_dataset_yaml. cbn [names nc].
  rewrite (read_class_names_written codes Hcodes).
  pose proof (sorted_codes_NoDup files) as Hnd. fold codes in Hnd.
  split; [reflexivity|]. split; [now rewrite Htotal|]. split.
  - intros code i. rewrite Hmap. unfold class_mapping. fold codes.
    now apply enumerate_codes_lookup.
  - intros data img Hd Hi. apply valid_files_elem in Hd. fold files in Hd.
    pose proof (pill_code_listed files data img Hd Hi) as Hin.
    fold codes in Hin.
    apply list_elem_of_lookup_1 in Hin as [i Hl].
    rewrite Hmap. unfold class_mapping. fold codes.
    rewrite (proj2 (enumerate_codes_lookup codes _ i Hnd) Hl). exact Hl.
Qed.

Lemma class_names_round_trip_witness :
  exists s codes,
    (convert_coco_to_yolo [Some (example_file Q)]).2 = Ok (Some s) /\
    head (convert_coco_to_yolo [Some (example_file Q)]).1
      = Some ("classes.txt"%string, codes) /\
    let config := _create_dataset_yaml (Some (text_of codes))
                                       "/data/final_dataset" in
    names config = codes /\
    nc config = total_classes s /\
    (forall (code : string) (i : nat),
       code_to_id_of s !! code = Some i <-> names config !! i = Some code) /\
    (forall data img,
       Some data ∈ [Some (example_file Q)] -> img ∈ images data ->
       names config
         !! default O (code_to_id_of s !! extract_pill_code (file_name img))
       = Some (extract_pill_code (file_name img))).
Proof.
  pose proof (convert_outcome [Some (example_file Q)] ltac:(discriminate))
    as Hout.
  specialize (Hout ltac:(vm_compute; reflexivity)).
  destruct (class_names_round_trip [Some (example_file Q)] _
              "/data/final_dataset" Hout) as (codes & Hhead & Hrest).
  - intros data img Hd Hi.
    apply list_elem_of_singleton in Hd. injection Hd as ->.
    simpl in Hi.
    repeat (apply elem_of_cons in Hi as [->|Hi]; [reflexivity|]).
    now apply elem_of_nil in Hi.
  - eexists. exists codes. split; [exact Hout|]. split; [exact Hhead|].
    exact Hrest.
Defined.

(** Without [classes.txt] the one class is "pill", whatever ids the
    label files hold. *)
Example dataset_yaml_fallback :
  let config := _create_dataset_yaml None "/data/final_dataset" in
  names config = ["pill"%string] /\ nc config = 1%nat.
Proof. split; reflexivity. Qed.

(** A file name that starts with an underscore has the empty pill code:
    its line of [classes.txt] is blank and is dropped on reading, so the
    names move up by one against the class ids. *)
Example blank_code_shifts_names :
  let file : coco Q :=
    {| images := [ mkImage 1 "_0_2.png" 1000 1000;
                   mkImage 2 "K-003544_0_2.png" 1000 1000 ];
       annotations := [] |} in
  let codes := sorted (all_pill_codes [file]) in
  let config := _create_dataset_yaml (Some (text_of codes))
                                     "/data/final_dataset" in
  codes = [EmptyString; "K-003544"%string] /\
  class_mapping [file] !! "K-003544"%string = Some 1%nat /\
  names config = ["K-003544"%string] /\ nc config = 1%nat.
Proof. vm_compute. repeat split. Qed.

End ClassesRoundTrip.

(** ** Dataset validation *)

Section ValidationProps.
Import PyList Validation.

(** The loops count the items without an issue and keep the issues of the
    others, in order. *)
Lemma record_loop {A} (issue_of : A -> option string) (l : list A)
    (valid_count : Z) (issues : list string) :
  foldl (fun state x => record state (issue_of x)) (valid_count, issues) l
  = (valid_count + len (filter (fun x => issue_of x = None) l),
     issues ++ omap issue_of l).
Proof.
  revert valid_count issues.
  induction l as [|x l IH]; intros valid_count issues; simpl.
  - unfold len. simpl. now rewrite Z.add_0_r, app_nil_r.
  - destruct (issue_of x) as [text|] eqn:Hx; simpl; rewrite IH.
    + rewrite filter_cons_False by (rewrite Hx; discriminate).
      now rewrite <- app_assoc.
    + rewrite filter_cons_True by exact Hx.
      f_equal. unfold len. simpl length. lia.
Qed.

Lemma issues_complement {A} (issue_of : A -> option string) (l : list A) :
  len (filter (fun x => issue_of x = None) l) + len (omap issue_of l)
  = len l.
Proof.
  unfold len. induction l as [|x l IH]; [reflexivity|].
  simpl omap. fold (omap issue_of l).
  destruct (issue_of x) as [text|] eqn:Hx.
  - rewrite filter_cons_False by (rewrite Hx; discriminate).
    simpl length. lia.
  - rewrite filter_cons_True by exact Hx. simpl length. lia.
Qed.

Lemma validate_images_spec (d : dataset) (min_size : Z) :
  let all_images := train_images d ++ test_images d in
  let issue_of img_path :=
    image_issue min_size img_path (open_image d img_path) in
  validate_images d min_size
  = (len (filter (fun img_path => issue_of img_path = None) all_images),
     len all_images, omap issue_of all_images).
Proof.
  cbv zeta. unfold validate_images. now rewrite record_loop.
Qed.

Lemma validate_annotations_spec (d : dataset) :
  validate_annotations d
  = (len (filter (fun img_path => annotation_issue d img_path = None)
                 (train_images d)),
     len (train_images d), omap (annotation_issue d) (train_images d)).
Proof. unfold validate_annotations. now rewrite record_loop. Qed.

(** X13: the validation accounts for every image once, and fails on a
    dataset without training images.  [validate_dataset] raises
    [ZeroDivisionError] exactly when there is no training image, also
    when there are test images; otherwise it returns a report in which,
    for the images and for the annotations, the valid ones and the issues
    add up to the total: every image is either valid or has exactly one
    issue, and the totals are the numbers of image files found. *)
Theorem validate_dataset_outcome {F : Type} `{PyNum F} (d : dataset) :
  (train_images d = [] ->
   validate_dataset (F:=F) d = Raise ZeroDivisionError) /\
  (train_images d <> [] ->
   exists r : report,
     validate_dataset (F:=F) d = Ok r /\
     total (images r) = len (train_images d) + len (test_images d) /\
     total (annotations r) = len (train_images d) /\
     valid (images r) + len (issues (images r)) = total (images r) /\
     valid (annotations r) + len (issues (annotations r))
       = total (annotations r) /\
     0 <= valid (images r) /\ 0 <= valid (annotations r)).
Proof.
  unfold validate_dataset.
  rewrite validate_images_spec, validate_annotations_spec. cbv zeta.
  set (issue_of img_path :=
         image_issue 100 img_path (open_image d img_path)).
  unfold Geometry.true_div. split.
  - intros Htrain. rewrite Htrain. simpl.
    destruct (Z.eqb_spec (len (test_images d)) 0); reflexivity.
  - intros Htrain.
    assert (Hpos : 0 < len (train_images d)).
    { unfold len. destruct (train_images d); [done | simpl; lia]. }
    pose proof (len_nonneg (test_images d)) as Htest.
    pose proof (len_app (train_images d) (test_images d)) as Hall.
    destruct (Z.eqb_spec (len (train_images d ++ test_images d)) 0)
      as [E|_]; [lia|].
    destruct (Z.eqb_spec (len (train_images d)) 0) as [E|_]; [lia|].
    simpl. eexists. split; [reflexivity|]. simpl.
    split; [exact Hall|]. split; [reflexivity|].
    split; [apply issues_complement|].
    split; [apply issues_complement|].
    split; apply len_nonneg.
Qed.

(** Two training images, the second without annotation, and a corrupt
    test image. *)
Example validate_three_images :
  let d :=
    {| train_images := ["data/train_images/a.png"; "data/train_images/b.png"];
       test_images := ["data/test_images/t.png"];
       open_image := fun path =>
         if String.eqb path "data/test_images/t.png"
         then OpenError "cannot identify image file"
         else Image 976 1280 "RGB";
       annotation_files := fun img_name =>
         if String.eqb img_name "a"
         then ["data/train_annotations/x/y/a.json"] else [];
       load_error := fun _ => None |}%string in
  validate_dataset (F:=Q) d
  = Ok {| images :=
            {| valid := 2; total := 3;
               issues := ["Corrupted image: data/test_images/t.png - cannot identify image file"%string] |};
          annotations :=
            {| valid := 1; total := 2;
               issues := ["Missing annotation: b"%string] |} |}.
Proof. vm_compute. reflexivity. Qed.

End ValidationProps.

(** ** The counters of the preprocessing *)

Section PreprocessProps.
Import PyList Preprocess.
Context {F : Type} `{PyNum F}.

Variable target_size : Z.

(** A training image is counted as processed when its image is written
    and its annotation updated, as failed when its image is not written,
    and is left out of both counters otherwise. *)
Definition train_processed (img : train_image) : bool :=
  match process_image (F:=F) (file img) target_size, annotation_updated img with
  | Some _, Some true => true
  | _, _ => false
  end.

Definition train_failed (img : train_image) : bool :=
  match process_image (F:=F) (file img) target_size with
  | None => true
  | Some _ => false
  end.

Definition train_left_out (img : train_image) : bool :=
  match process_image (F:=F) (file img) target_size, annotation_updated img with
  | Some _, Some true => false
  | Some _, _ => true
  | None, _ => false
  end.

Definition test_processed (img : image_file) : bool :=
  match process_image (F:=F) img target_size with
  | Some _ => true
  | None => false
  end.

Definition count {A} (P : A -> bool) (l : list A) : Z :=
  len (filter (fun x => P x = true) l).

Lemma count_cons {A} (P : A -> bool) (x : A) (l : list A) :
  count P (x :: l) = (if P x then 1 else 0) + count P l.
Proof.
  unfold count, len. destruct (P x) eqn:Hx.
  - rewrite filter_cons_True by exact Hx. simpl length. lia.
  - rewrite filter_cons_False by (rewrite Hx; discriminate). lia.
Qed.

Lemma count_nonneg {A} (P : A -> bool) (l : list A) : 0 <= count P l.
Proof. apply len_nonneg. Qed.

Lemma train_loop (train_images : list train_image) (p f : Z) :
  foldl (fun '(processed_count, failed_count) img =>
           match process_image (F:=F) (file img) target_size with
           | None => (processed_count, failed_count + 1)
           | Some params =>
               match annotation_updated img with
               | Some true => (processed_count + 1, failed_count)
               | _ => (processed_count, failed_count)
               end
           end)
        (p, f) train_images
  = (p + count train_processed train_images,
     f + count train_failed train_images).
Proof.
  revert p f. induction train_images as [|img rest IH]; intros p f.
  - unfold count, len. simpl. now rewrite !Z.add_0_r.
  - rewrite !count_cons. unfold train_processed at 1, train_failed at 1.
    simpl foldl.
    destruct (process_image (file img) target_size) as [params|].
    + destruct (annotation_updated img) as [[|]|]; rewrite IH; f_equal; lia.
    + rewrite IH. f_equal; lia.
Qed.

Lemma test_loop (test_images : list image_file) (p f : Z) :
  foldl (fun '(processed_count, failed_count) img =>
           match process_image (F:=F) img target_size with
           | Some _ => (processed_count + 1, failed_count)
           | None => (processed_count, failed_count + 1)
           end)
        (p, f) test_images
  = (p + count test_processed test_images,
     f + count (fun img => negb (test_processed img)) test_images).
Proof.
  revert p f. induction test_images as [|img rest IH]; intros p f.
  - unfold count, len. simpl. now rewrite !Z.add_0_r.
  - rewrite !count_cons. unfold test_processed at 1 3.
    simpl foldl.
    destruct (process_image img target_size) as [params|];
      rewrite IH; simpl; f_equal; lia.
Qed.

Lemma count_split3 {A} (P Q R : A -> bool) (l : list A) :
  (forall x, (if P x then 1 else 0) + (if Q x then 1 else 0)
             + (if R x then 1 else 0) = 1) ->
  count P l + count Q l + count R l = len l.
Proof.
  intros Hone. induction l as [|x l IH]; [reflexivity|].
  rewrite !count_cons. specialize (Hone x).
  replace (len (x :: l)) with (1 + len l) by (unfold len; simpl length; lia).
  lia.
Qed.

Lemma count_split2 {A} (P : A -> bool) (l : list A) :
  count P l + count (fun x => negb (P x)) l = len l.
Proof.
  induction l as [|x l IH]; [reflexivity|].
  rewrite !count_cons.
  replace (len (x :: l)) with (1 + len l) by (unfold len; simpl length; lia).
  destruct (P x); simpl; lia.
Qed.

End PreprocessProps.

Section PreprocessTheorems.
Import PyList Preprocess.

(** X14: the counters of the preprocessing leave out the training images
    without a usable annotation.  A training image whose picture was
    written but whose annotation file is missing or could not be updated
    is counted neither as processed nor as failed, so that processed +
    failed + left out is the number of image files; and
    [run_preprocessing] raises [ZeroDivisionError] exactly when processed
    + failed is 0, which is the case for an empty dataset and for one
    that has only such training images, and returns the two counters
    otherwise. *)
Theorem preprocessing_counters {F : Type} `{PyNum F}
    (train_images : list train_image) (test_images : list image_file)
    (target_size : Z) :
  let left_out := count (train_left_out (F:=F) target_size) train_images in
  exists processed failed,
    preprocess_dataset (F:=F) train_images test_images target_size
      = (processed, failed) /\
    processed = count (train_processed (F:=F) target_size) train_images
                + count (test_processed (F:=F) target_size) test_images /\
    0 <= processed /\ 0 <= failed /\ 0 <= left_out /\
    processed + failed + left_out = len train_images + len test_images /\
    run_preprocessing (F:=F) train_images test_images target_size
      = (if processed + failed =? 0 then Raise ZeroDivisionError
         else Ok (processed, failed)) /\
    (processed + failed = 0 <->
     test_images = [] /\ left_out = len train_images).
Proof.
  cbv zeta. unfold run_preprocessing, preprocess_dataset.
  rewrite train_loop, test_loop, !Z.add_0_l.
  pose proof (count_nonneg (train_processed (F:=F) target_size) train_images).
  pose proof (count_nonneg (train_failed (F:=F) target_size) train_images).
  pose proof (count_nonneg (train_left_out (F:=F) target_size) train_images).
  pose proof (count_nonneg (test_processed (F:=F) target_size) test_images).
  pose proof (count_nonneg
                (fun img => negb (test_processed (F:=F) target_size img))
                test_images).
  assert (Htrain : count (train_processed (F:=F) target_size) train_images
                   + count (train_failed (F:=F) target_size) train_images
                   + count (train_left_out (F:=F) target_size) train_images
                   = len train_images).
  { apply count_split3. intros img.
    unfold train_processed, train_failed, train_left_out.
    destruct (process_image (file img) target_size);
      [destruct (annotation_updated img) as [[|]|]|]; reflexivity. }
  pose proof (count_split2 (test_processed (F:=F) target_size) test_images)
    as Htest.
  set (tp := count (train_processed target_size) train_images) in *.
  set (tf := count (train_failed target_size) train_images) in *.
  set (tl := count (train_left_out target_size) train_images) in *.
  set (sp := count (test_processed target_size) test_images) in *.
  set (sf := count (fun img => negb (test_processed target_size img))
                   test_images) in *.
  exists (tp + sp), (tf + sf). split; [reflexivity|].
  split; [reflexivity|]. split; [lia|]. split; [lia|]. split; [lia|].
  split; [lia|]. split.
  - unfold Geometry.true_div.
    destruct (Z.eqb_spec (tp + sp + (tf + sf)) 0); reflexivity.
  - split.
    + intros Hzero. split; [|lia].
      assert (Hlen : len test_images = 0) by lia.
      unfold len in Hlen. destruct test_images; [reflexivity|].
      simpl in Hlen. lia.
    + intros [-> Hall]. subst sp sf. unfold count, len in *. simpl in *. lia.
Qed.

(** Two training images that are written but have no annotation file:
    nothing is counted, and the summary divides by zero. *)
Example preprocessing_without_annotations :
  let picture := {| image_size := Some (976, 1280); image_written := true |} in
  let train := [ {| file := picture; annotation_updated := None |};
                 {| file := picture; annotation_updated := None |} ] in
  preprocess_dataset (F:=Q) train [] 1280 = (0, 0) /\
  run_preprocessing (F:=Q) train [] 1280 = Raise ZeroDivisionError.
Proof. split; reflexivity. Qed.

End PreprocessTheorems.

(** ** The predefined settings *)

Section ConfigProps.
Import Config.
Local Open Scope string_scope.

Lemma settings_lookup (train_size test_size : Z)
    (output_path sampling_strategy description : string) :
  let c := settings train_size test_size output_path sampling_strategy
                    description in
  c !! "train_size" = Some (VInt train_size) /\
  c !! "test_size" = Some (VInt test_size) /\
  c !! "output_path" = Some (VStr output_path) /\
  c !! "sampling_strategy" = Some (VStr sampling_strategy) /\
  c !! "description" = Some (VStr description).
Proof. cbv zeta. repeat split; vm_compute; reflexivity. Qed.

(** What [validate_config] makes of a dictionary with the five keys. *)
Lemma validate_settings (train_size test_size : Z)
    (output_path sampling_strategy description : string) :
  validate_config (settings train_size test_size output_path
                            sampling_strategy description)
  = if (train_size <=? 0)%Z || (test_size <=? 0)%Z then
      Raises (ValueErrorOf "train_size와 test_size는 0보다 커야 합니다.")
    else if is_strategy (VStr sampling_strategy) then Returns true
    else Raises (ValueErrorOf
      "sampling_strategy는 'balanced', 'quality', 'random' 중 하나여야 합니다.").
Proof.
  destruct (settings_lookup train_size test_size output_path
              sampling_strategy description) as (H1 & H2 & H3 & H4 & _).
  unfold validate_config, subscript. cbn [require_keys].
  unfold config in *. rewrite H1, H2, H3, H4. simpl.
  destruct (train_size <=? 0)%Z; simpl; [reflexivity|].
  destruct (test_size <=? 0)%Z; reflexivity.
Qed.

Definition valid_settings (c : config) : Prop :=
  validate_config c = Returns true.

Lemma dataset_settings_valid name c :
  DATASET_CONFIGS !! name = Some c -> valid_settings c.
Proof.
  intros Hl. apply elem_of_list_to_map_2 in Hl.
  unfold dataset_settings in Hl.
  repeat (apply elem_of_cons in Hl as [[= -> ->]|Hl];
          [unfold valid_settings; rewrite validate_settings; reflexivity|]).
  now apply elem_of_nil in Hl.
Qed.

Lemma personal_settings_valid :
  map_Forall (fun _ c => valid_settings c) PERSONAL_CONFIGS.
Proof.
  intros name c Hl. apply elem_of_list_to_map_2 in Hl.
  unfold personal_settings in Hl.
  repeat (apply elem_of_cons in Hl as [[= -> ->]|Hl];
          [unfold valid_settings; rewrite validate_settings; reflexivity|]).
  now apply elem_of_nil in Hl.
Qed.

Lemma development_settings :
  exists c, DATASET_CONFIGS !! "development" = Some c.
Proof. eexists. vm_compute. reflexivity. Qed.

Lemma recommended_is_predefined (purpose : string) :
  is_Some (DATASET_CONFIGS !! get_recommended_config purpose).
Proof.
  unfold get_recommended_config.
  destruct (recommendations !! purpose) as [name|] eqn:Hl; simpl.
  - apply elem_of_list_to_map_2 in Hl.
    repeat (apply elem_of_cons in Hl as [[= _ ->]|Hl];
            [eexists; vm_compute; reflexivity|]).
    now apply elem_of_nil in Hl.
  - eexists. vm_compute. reflexivity.
Qed.

(** X15: every settings name resolves to settings that pass the
    validation.  As long as the personal settings are valid (those the
    module ships are), [get_config] never raises and returns, for every
    name, settings that [validate_config] accepts: a predefined entry, a
    personal one, or, for an unknown name, the "development" entry; and
    every name that [get_recommended_config] returns, whatever the
    purpose, is a predefined entry, which [get_config] returns. *)
Theorem settings_always_valid (personal : gmap string config)
    (config_name purpose : string) :
  map_Forall (fun _ c => validate_config c = Returns true) personal ->
  (exists c,
     get_config personal config_name = Returns c /\
     validate_config c = Returns true /\
     (DATASET_CONFIGS !! config_name = None ->
      personal !! config_name = None ->
      DATASET_CONFIGS !! "development" = Some c)) /\
  (exists c,
     DATASET_CONFIGS !! get_recommended_config purpose = Some c /\
     get_config personal (get_recommended_config purpose) = Returns c /\
     validate_config c = Returns true).
Proof.
  intros Hpersonal. split.
  - unfold get_config.
    destruct (DATASET_CONFIGS !! config_name) as [c|] eqn:Hd.
    + exists c. split; [reflexivity|].
      split; [exact (dataset_settings_valid _ _ Hd) | discriminate].
    + destruct (personal !! config_name) as [c|] eqn:Hp.
      * exists c. split; [reflexivity|].
        split; [exact (Hpersonal _ _ Hp) | discriminate].
      * destruct development_settings as [c Hc]. exists c.
        unfold subscript. rewrite Hc. split; [reflexivity|].
        split; [exact (dataset_settings_valid _ _ Hc) | auto].
  - destruct (recommended_is_predefined purpose) as [c Hc].
    exists c. split; [exact Hc|]. unfold get_config. rewrite Hc.
    split; [reflexivity | exact (dataset_settings_valid _ _ Hc)].
Qed.

Lemma settings_always_valid_witness :
  (exists c,
     get_config PERSONAL_CONFIGS "no_such_settings" = Returns c /\
     validate_config c = Returns true /\
     (DATASET_CONFIGS !! "no_such_settings" = None ->
      PERSONAL_CONFIGS !! "no_such_settings" = None ->
      DATASET_CONFIGS !! "development" = Some c)) /\
  (exists c,
     DATASET_CONFIGS !! get_recommended_config "production" = Some c /\
     get_config PERSONAL_CONFIGS (get_recommended_config "production")
       = Returns c /\
     validate_config c = Returns true).
Proof.
  apply (settings_always_valid PERSONAL_CONFIGS "no_such_settings"
           "production").
  exact personal_settings_valid.
Defined.

(** X16: a personal entry is found again unless it bears the name of a
    predefined one.  After [add_personal_config], [get_config] returns
    the settings just stored (with the default description when none was
    given) for a name that is not predefined, still the predefined entry
    for a predefined name, and what it returned before for every other
    name.  The settings are stored unchecked: [validate_config] accepts
    them exactly when both sizes are positive and the strategy is one of
    the three. *)
Theorem personal_settings_round_trip (personal : gmap string config)
    (name other : string) (train_size test_size : Z)
    (output_path sampling_strategy description : string) :
  let stored :=
    settings train_size test_size output_path sampling_strategy
      (if String.eqb description EmptyString
       then name +:+ " 전용 설정" else description) in
  let personal' :=
    add_personal_config personal name train_size test_size output_path
                        sampling_strategy description in
  (DATASET_CONFIGS !! name = None ->
   get_config personal' name = Returns stored) /\
  (forall predefined, DATASET_CONFIGS !! name = Some predefined ->
     get_config personal' name = Returns predefined) /\
  (other <> name -> get_config personal' other = get_config personal other) /\
  (validate_config stored = Returns true <->
   (0 < train_size)%Z /\ (0 < test_size)%Z /\
   (sampling_strategy = "balanced" \/ sampling_strategy = "quality" \/
    sampling_strategy = "random")).
Proof.
  cbv zeta. unfold add_personal_config, get_config.
  split; [|split; [|split]].
  - intros ->. now rewrite lookup_insert_eq.
  - intros predefined ->. reflexivity.
  - intros Hne. now rewrite lookup_insert_ne by congruence.
  - rewrite validate_settings.
    destruct (Z.leb_spec train_size 0); simpl.
    { split; [discriminate | lia]. }
    destruct (Z.leb_spec test_size 0); simpl.
    { split; [discriminate | lia]. }
    destruct (String.eqb_spec sampling_strategy "balanced"); simpl.
    { split; [intros _; split; [lia | split; [lia | now left]] | reflexivity]. }
    destruct (String.eqb_spec sampling_strategy "quality"); simpl.
    { split; [intros _; split; [lia | split; [lia | auto]] | reflexivity]. }
    destruct (String.eqb_spec sampling_strategy "random"); simpl.
    { split; [intros _; split; [lia | split; [lia | auto]] | reflexivity]. }
    split; [discriminate|]. intros (_ & _ & [?|[?|?]]); contradiction.
Qed.

(** A personal entry named like a predefined one is never returned. *)
Example personal_development_is_shadowed :
  let personal :=
    add_personal_config PERSONAL_CONFIGS "development" 10 5 "./data/mine"
                        "random" EmptyString in
  exists c, get_config personal "development" = Returns c /\
            c !! "train_size" = Some (VInt 150) /\
            (personal !! "development" ≫= (.!! "train_size"))
            = Some (VInt 10).
Proof. eexists. split; [reflexivity|]. split; vm_compute; reflexivity. Qed.

End ConfigProps.

(** ** The pools built by the directory scans *)

Section ScanProps.
Import PyRandom PyList.
Local Open Scope string_scope.

(** A loop that appends at most one item per input, keyed by the input,
    keeps the inputs it accepts, in order and as often as they occur. *)
Lemma omap_keyed {A B} (f : A -> option B) (key : B -> A) (l : list A) :
  (forall x y, f x = Some y -> key y = x) ->
  map key (omap f l) = filter (fun x => is_Some (f x)) l.
Proof.
  intros Hkey. induction l as [|x l IH]; [reflexivity|].
  simpl omap. fold (omap f l).
  destruct (f x) as [y|] eqn:Hx.
  - rewrite filter_cons_True by (rewrite Hx; eauto).
    simpl. now rewrite IH, (Hkey x y Hx).
  - rewrite filter_cons_False by (rewrite Hx; apply is_Some_None).
    exact IH.
Qed.

Lemma omap_keyed_NoDup {A B} (f : A -> option B) (key : B -> A) (l : list A) :
  (forall x y, f x = Some y -> key y = x) ->
  NoDup l -> NoDup (omap f l).
Proof.
  intros Hkey Hnd. apply (NoDup_fmap_1 key).
  change (key <$> omap f l) with (map key (omap f l)).
  rewrite (omap_keyed f key l Hkey). now apply NoDup_filter.
Qed.

Lemma omap_keyed_len {A B} (f : A -> option B) (key : B -> A) (l : list A) :
  (forall x y, f x = Some y -> key y = x) ->
  len (omap f l) = len (filter (fun x => is_Some (f x)) l).
Proof.
  intros Hkey. rewrite <- (omap_keyed f key l Hkey).
  unfold len. now rewrite length_map.
Qed.

Lemma valid_pair_image (src : SamplerScan.source) (img_path : string)
    (p : Sampler.pair) :
  SamplerScan.valid_pair src img_path = Some p -> Sampler.image p = img_path.
Proof.
  unfold SamplerScan.valid_pair.
  destruct (SamplerScan._find_annotation _ _ _) as [json_path|]; [|discriminate].
  destruct (String.eqb json_path EmptyString); [discriminate|].
  now intros [= <-].
Qed.

End ScanProps.

Section ScanTheorems.
Import PyRandom PyList.
Local Open Scope string_scope.

(** X18: the sampler selects annotated images only.  For a non-negative
    [train_size], and unless the balanced strategy meets a source without
    any annotated image, [_extract_train_pairs] returns at most
    [train_size] pairs; each is one of the training images found,
    together with the first annotation file of the first annotation
    folder that holds one for its name, so that an image without
    annotation is never selected; and when no image path is listed twice,
    the selection has exactly [min(train_size, annotated images)]
    pairs. *)
Theorem sampled_pairs_are_annotated (getsize : string -> Z)
    (src : SamplerScan.source) (train_size : Z) (strategy : string)
    (g : rng) :
  let annotated img_path := is_Some (SamplerScan.valid_pair src img_path) in
  0 <= train_size ->
  (exists img_path, img_path ∈ SamplerScan.train_images src /\
                    annotated img_path) \/ strategy <> "balanced" ->
  exists selected g',
    SamplerScan._extract_train_pairs getsize src train_size strategy g
      = Ok (selected, g') /\
    len selected <= train_size /\
    (forall p, p ∈ selected ->
       Sampler.image p ∈ SamplerScan.train_images src /\
       annotated (Sampler.image p) /\
       Sampler.name p = SamplerScan.image_name (Sampler.image p) /\
       SamplerScan._find_annotation src (Sampler.name p)
         (SamplerScan.annotation_folders src)
       = Some (Sampler.annotation p)) /\
    (NoDup (SamplerScan.train_images src) ->
     len selected
     = Z.min train_size
         (len (filter annotated (SamplerScan.train_images src)))).
Proof.
  intros annotated Hsize Hcase.
  unfold SamplerScan._extract_train_pairs.
  assert (Hpool : SamplerScan.valid_pairs src <> [] \/ strategy <> "balanced").
  { destruct Hcase as [(img_path & Hin & [p Hp])|Hs]; [left | now right].
    intros Hnil.
    assert (Hmem : p ∈ SamplerScan.valid_pairs src).
    { apply list_elem_of_omap. now exists img_path. }
    rewrite Hnil in Hmem. now apply elem_of_nil in Hmem. }
  destruct (extract_train_pairs_spec getsize (SamplerScan.valid_pairs src)
              train_size strategy g Hsize Hpool)
    as (selected & g' & Heq & Hsub & Hle & Hex).
  exists selected, g'. split; [exact Heq|]. split; [exact Hle|]. split.
  - intros p Hp.
    assert (Hmem : p ∈ SamplerScan.valid_pairs src)
      by (eapply elem_of_submseteq; eassumption).
    apply list_elem_of_omap in Hmem as (img_path & Hin & Hvalid).
    pose proof (valid_pair_image src img_path p Hvalid) as Himg.
    rewrite Himg. split; [exact Hin|].
    split; [unfold annotated; rewrite Hvalid; eauto|].
    unfold SamplerScan.valid_pair in Hvalid.
    destruct (SamplerScan._find_annotation src
                (SamplerScan.image_name img_path)
                (SamplerScan.annotation_folders src))
      as [json_path|] eqn:Hfind; [|discriminate].
    destruct (String.eqb json_path EmptyString); [discriminate|].
    injection Hvalid as <-. simpl. split; [reflexivity | exact Hfind].
  - intros Hnd. rewrite Hex.
    + unfold SamplerScan.valid_pairs.
      now rewrite (omap_keyed_len _ Sampler.image _ (valid_pair_image src)).
    + apply (omap_keyed_NoDup _ Sampler.image _ (valid_pair_image src)).
      exact Hnd.
Qed.

(** Two training images, the second without annotation file. *)
Definition two_image_source : SamplerScan.source :=
  {| SamplerScan.train_images :=
       ["data/train_images/K-001900-a.png"; "data/train_images/K-003544-b.png"];
     SamplerScan.annotation_folders :=
       ["data/train_annotations/empty"; "data/train_annotations/K-001900"];
     SamplerScan.json_files := fun folder img_name =>
       if String.eqb folder "data/train_annotations/K-001900"
          && String.eqb img_name "K-001900-a"
       then [folder +:+ "/K-001900/" +:+ img_name +:+ ".json"]
       else [] |}.

Lemma sampled_pairs_are_annotated_witness :
  exists selected g',
    SamplerScan._extract_train_pairs size_by_name_length two_image_source 5
      "balanced" fixed_source = Ok (selected, g') /\
    len selected <= 5 /\
    (forall p, p ∈ selected ->
       Sampler.image p ∈ SamplerScan.train_images two_image_source /\
       is_Some (SamplerScan.valid_pair two_image_source (Sampler.image p)) /\
       Sampler.name p = SamplerScan.image_name (Sampler.image p) /\
       SamplerScan._find_annotation two_image_source (Sampler.name p)
         (SamplerScan.annotation_folders two_image_source)
       = Some (Sampler.annotation p)) /\
    (NoDup (SamplerScan.train_images two_image_source) ->
     len selected
     = Z.min 5
         (len (filter
                 (fun img_path =>
                    is_Some (SamplerScan.valid_pair two_image_source img_path))
                 (SamplerScan.train_images two_image_source)))).
Proof.
  apply (sampled_pairs_are_annotated size_by_name_length two_image_source 5
           "balanced" fixed_source); [lia|].
  left. exists "data/train_images/K-001900-a.png". split.
  - apply list_elem_of_In. vm_compute. tauto.
  - vm_compute. eauto.
Defined.

(** The selection from that source is its one annotated image. *)
Example sample_two_image_source :
  match SamplerScan._extract_train_pairs size_by_name_length
          two_image_source 5 "balanced" fixed_source with
  | Ok (selected, _) =>
      selected
      = [ {| Sampler.image := "data/train_images/K-001900-a.png";
             Sampler.annotation :=
               "data/train_annotations/K-001900/K-001900/K-001900-a.json";
             Sampler.name := "K-001900-a" |} ]
  | Raise _ => False
  end.
Proof. vm_compute. reflexivity. Qed.

(** *** The split of the labelled images *)

Lemma labelled_pair_image (input_path img_path : string)
    (path_exists : string -> bool) (p : Splitter.pair) :
  (if path_exists (SplitterScan.label_path_of input_path img_path)
   then Some (Splitter.make_pair img_path
                (SplitterScan.label_path_of input_path img_path)
                (SplitterScan.image_name img_path))
   else None) = Some p ->
  Splitter.image p = img_path.
Proof.
  destruct (path_exists _); [|discriminate]. now intros [= <-].
Qed.

(** X19: the split accounts for every labelled image once and leaves the
    others out.  For train and validation ratios that give non-negative
    slice bounds, [split_dataset_for_yolo] (its file copies going
    through) returns three counts that add
    up to the number of image files whose label file
    [<input>/yolo_labels/<name>.txt] exists; the images of the three
    splits together are exactly those image files (an image without
    label file is in no split, and is not reported), and every pair
    carries that label path, its name and the class key of the name. *)
Theorem split_covers_labelled_images {F : Type} `{PyNum F}
    (input_path output : string) (image_files : list string)
    (path_exists : string -> bool) (train_ratio val_ratio test_ratio : F)
    (g : rng) :
  let labelled :=
    filter (fun img_path =>
              path_exists (SplitterScan.label_path_of input_path img_path)
              = true) image_files in
  usable_ratio train_ratio -> usable_ratio val_ratio ->
  exists train val test summary g',
    SplitterScan.split_dataset_for_yolo input_path output image_files
      path_exists train_ratio val_ratio test_ratio g
    = Ok ((train, val, test), summary, g') /\
    SplitterScan.train_count summary = len train /\
    SplitterScan.val_count summary = len val /\
    SplitterScan.test_count summary = len test /\
    SplitterScan.train_count summary + SplitterScan.val_count summary
      + SplitterScan.test_count summary = len labelled /\
    len labelled <= len image_files /\
    map Splitter.image (train ++ val ++ test)%list ≡ₚ labelled /\
    (forall p, p ∈ (train ++ val ++ test)%list ->
       Splitter.label p
         = SplitterScan.label_path_of input_path (Splitter.image p) /\
       path_exists (Splitter.label p) = true /\
       Splitter.name p = SplitterScan.image_name (Splitter.image p) /\
       Splitter.pill_code p = Splitter._extract_pill_code (Splitter.name p)).
Proof.
  intros labelled Ht Hv. unfold SplitterScan.split_dataset_for_yolo.
  set (pairs := SplitterScan._get_image_label_pairs input_path image_files
                  path_exists).
  destruct (stratified_split_partition_generic pairs train_ratio val_ratio
              test_ratio g Ht Hv)
    as (train & val & test & g' & -> & Hperm).
  simpl. do 5 eexists. split; [reflexivity|]. simpl.
  assert (Himages : map Splitter.image pairs = labelled).
  { subst pairs labelled. unfold SplitterScan._get_image_label_pairs.
    rewrite (omap_keyed _ Splitter.image _
               (fun x y => labelled_pair_image input_path x path_exists y)).
    apply list_filter_iff. intros img_path.
    destruct (path_exists _); split; intros Hx;
      try reflexivity; try discriminate; eauto.
    now apply is_Some_None in Hx. }
  assert (Hlen : len (train ++ val ++ test)%list = len labelled).
  { unfold len. rewrite (Permutation_length Hperm), <- Himages.
    now rewrite length_map. }
  rewrite !len_app in Hlen.
  split; [reflexivity|]. split; [reflexivity|]. split; [reflexivity|].
  split; [lia|]. split.
  - unfold len. subst labelled. pose proof (length_filter
      (fun img_path =>
         path_exists (SplitterScan.label_path_of input_path img_path) = true)
      image_files). lia.
  - split.
    + rewrite <- Himages. now apply Permutation_map.
    + intros p Hp. rewrite Hperm in Hp. subst pairs.
      apply list_elem_of_omap in Hp as (img_path & _ & Hp).
      cbv beta zeta in Hp.
      destruct (path_exists (SplitterScan.label_path_of input_path img_path))
        eqn:Hex; [|discriminate].
      injection Hp as <-. simpl. repeat split. exact Hex.
Qed.

Lemma split_covers_labelled_images_witness :
  let image_files :=
    ["in/train_images/K-001900-a.png"; "in/train_images/K-003544-b.png";
     "in/train_images/K-001900-c.png"] in
  let path_exists path :=
    negb (String.eqb path "in/yolo_labels/K-003544-b.txt") in
  exists train val test summary g',
    SplitterScan.split_dataset_for_yolo (F:=Q) "in" "out" image_files
      path_exists (8 # 10) (1 # 10) (1 # 10) fixed_source
    = Ok ((train, val, test), summary, g') /\
    SplitterScan.train_count summary = len train /\
    SplitterScan.val_count summary = len val /\
    SplitterScan.test_count summary = len test /\
    SplitterScan.train_count summary + SplitterScan.val_count summary
      + SplitterScan.test_count summary = 2 /\
    2 <= len image_files /\
    map Splitter.image (train ++ val ++ test)%list
      ≡ₚ ["in/train_images/K-001900-a.png"; "in/train_images/K-001900-c.png"] /\
    (forall p, p ∈ (train ++ val ++ test)%list ->
       Splitter.label p = SplitterScan.label_path_of "in" (Splitter.image p) /\
       path_exists (Splitter.label p) = true /\
       Splitter.name p = SplitterScan.image_name (Splitter.image p) /\
       Splitter.pill_code p = Splitter._extract_pill_code (Splitter.name p)).
Proof.
  cbv zeta.
  apply (split_covers_labelled_images (F:=Q) "in" "out"
           ["in/train_images/K-001900-a.png"; "in/train_images/K-003544-b.png";
            "in/train_images/K-001900-c.png"]
           (fun path =>
              negb (String.eqb path "in/yolo_labels/K-003544-b.txt"))
           (8 # 10) (1 # 10) (1 # 10) fixed_source);
    apply nonneg_ratio_usable; discriminate.
Defined.

End ScanTheorems.
